(** * Restaurant ordering system: order, delivery, sync and queue services

    A shallow embedding of [src/services/order.service.ts],
    [src/services/delivery.service.ts] and [src/services/queue.service.ts],
    of [parsePagination] of [src/utils/helpers.ts] and of the controller
    methods that decide on whose behalf these services are called, and the
    properties of the order lifecycle, the delivery lifecycle, the carts,
    the offline sync path, the background queue and the paging of listings
    that hold of it.

    - Prisma tables are lists of rows (records); [findUnique] and [findFirst]
      are [List.find], [update] maps over the rows whose key matches,
      [create] appends a row, [delete] and [deleteMany] filter.
    - A service method that throws is a function into [Result]; every throw in
      the modelled methods happens before the first write or inside a
      [$transaction], so a thrown error leaves the store as it was.
    - JS numbers carrying money are IEEE-754 binary64 values ([PrimFloat]).
    - The Redis string keys [order:client:<user>:<client>] live in a [gmap]
      with the instant at which they expire; the list [order:queue] and the
      single slot [order:processing] are fields of their own.
    - Calls that read a clock ([new Date()], the expiry of a Redis key) take
      the instant as an argument. *)

From Stdlib Require Import ZArith List Bool Lia PrimFloat Uint63 Floats.
From Stdlib Require Import Sorting.Sorted Sorting.Permutation Ascii.
From stdpp Require Import gmap strings.
Import ListNotations.

Set Default Proof Using "Type".
Set Warnings "-inexact-float".
Local Open Scope Z_scope.

(** ** Errors ([src/utils/errors]) *)

Inductive AppError : Type :=
| NotFoundError (message : string)
| BadRequestError (message : string).

Inductive Result (A : Type) : Type :=
| Ok (a : A)
| Throw (e : AppError).
Arguments Ok {A} a.
Arguments Throw {A} e.

Definition isOk {A} (r : Result A) : bool :=
  match r with Ok _ => true | Throw _ => false end.

Definition errorMessage (e : AppError) : string :=
  match e with NotFoundError m | BadRequestError m => m end.

Definition isNotFound (e : AppError) : bool :=
  match e with NotFoundError _ => true | _ => false end.

Definition isBadRequest (e : AppError) : bool :=
  match e with BadRequestError _ => true | _ => false end.

(** ** Enumerations of the Prisma schema *)

Module OrderStatus.
Inductive t : Type :=
| PENDING | CONFIRMED | PREPARING | ON_THE_WAY | DELIVERED | CANCELLED.

Definition eqb (a b : t) : bool :=
  match a, b with
  | PENDING, PENDING | CONFIRMED, CONFIRMED | PREPARING, PREPARING
  | ON_THE_WAY, ON_THE_WAY | DELIVERED, DELIVERED | CANCELLED, CANCELLED => true
  | _, _ => false
  end.

(** The enum member's name, as a template literal prints it. *)
Definition name (s : t) : string :=
  match s with
  | PENDING => "PENDING"
  | CONFIRMED => "CONFIRMED"
  | PREPARING => "PREPARING"
  | ON_THE_WAY => "ON_THE_WAY"
  | DELIVERED => "DELIVERED"
  | CANCELLED => "CANCELLED"
  end.

Definition includes (l : list t) (s : t) : bool := existsb (eqb s) l.
End OrderStatus.

Module DeliveryStatus.
Inductive t : Type := ASSIGNED | PICKED_UP | IN_TRANSIT | DELIVERED.

Definition eqb (a b : t) : bool :=
  match a, b with
  | ASSIGNED, ASSIGNED | PICKED_UP, PICKED_UP
  | IN_TRANSIT, IN_TRANSIT | DELIVERED, DELIVERED => true
  | _, _ => false
  end.

Definition name (s : t) : string :=
  match s with
  | ASSIGNED => "ASSIGNED"
  | PICKED_UP => "PICKED_UP"
  | IN_TRANSIT => "IN_TRANSIT"
  | DELIVERED => "DELIVERED"
  end.

Definition includes (l : list t) (s : t) : bool := existsb (eqb s) l.
End DeliveryStatus.

(** ** Rows *)

(** A [Prisma.Decimal] is kept as the double [Number(d)] reads from it:
    [new Prisma.Decimal(x)] of a JS number [x] stores the shortest decimal
    that reads back as [x], and every computation of the services goes
    through [Number]. *)
Definition Decimal : Type := float.

(** Modelled from the spec: [prisma/schema.prisma] is not among the sources.
    The columns are the ones the services read and write; money columns keep
    the value they are given (spec section 8: two-decimal rounding happens at
    presentation, not storage). *)
Module MenuItem.
Record t : Type := mk {
  id : string;
  name : string;
  price : Decimal;
  isAvailable : bool;
  (** [category.restaurantId] of the joined category row *)
  restaurantId : string
}.
End MenuItem.

Module Cart.
Record t : Type := mk { id : nat; userId : string }.
End Cart.

Module CartItem.
Record t : Type := mk {
  id : nat;
  cartId : nat;
  menuItemId : string;
  quantity : Z;
  notes : option string
}.
End CartItem.

Module OrderItem.
Record t : Type := mk {
  menuItemId : string;
  quantity : Z;
  unitPrice : Decimal;
  totalPrice : Decimal;
  notes : option string
}.
End OrderItem.

Module Order.
Record t : Type := mk {
  id : nat;
  orderNumber : nat;
  userId : string;
  restaurantId : string;
  deliveryAddress : string;
  notes : option string;
  subtotal : Decimal;
  tax : Decimal;
  deliveryFee : Decimal;
  totalAmount : Decimal;
  status : OrderStatus.t;
  items : list OrderItem.t
}.

Definition with_status (s : OrderStatus.t) (o : t) : t :=
  mk (id o) (orderNumber o) (userId o) (restaurantId o) (deliveryAddress o)
     (notes o) (subtotal o) (tax o) (deliveryFee o) (totalAmount o) s (items o).
End Order.

Module Delivery.
Record t : Type := mk {
  id : nat;
  orderId : nat;
  driverId : string;
  estimatedTime : option Z;
  status : DeliveryStatus.t;
  pickupTime : option Z;
  deliveryTime : option Z
}.
End Delivery.

Module Driver.
Record t : Type := mk {
  id : string;
  userId : string;
  isAvailable : bool;
  totalDeliveries : Z
}.
End Driver.

(** The relational store. Ids of rows the services create (carts, cart
    items, orders, deliveries) are drawn from [nextId]; an order number, which
    [generateOrderNumber] derives from the clock and random bytes, is named
    by the same counter. *)
Record DB : Type := mkDB {
  restaurants : list string;
  menuItems : list MenuItem.t;
  carts : list Cart.t;
  cartItems : list CartItem.t;
  orders : list Order.t;
  deliveries : list Delivery.t;
  drivers : list Driver.t;
  nextId : nat
}.

Definition set_carts (v : list Cart.t) (db : DB) : DB :=
  mkDB (restaurants db) (menuItems db) v (cartItems db) (orders db)
       (deliveries db) (drivers db) (nextId db).

Definition set_cartItems (v : list CartItem.t) (db : DB) : DB :=
  mkDB (restaurants db) (menuItems db) (carts db) v (orders db)
       (deliveries db) (drivers db) (nextId db).

Definition set_orders (v : list Order.t) (db : DB) : DB :=
  mkDB (restaurants db) (menuItems db) (carts db) (cartItems db) v
       (deliveries db) (drivers db) (nextId db).

Definition set_deliveries (v : list Delivery.t) (db : DB) : DB :=
  mkDB (restaurants db) (menuItems db) (carts db) (cartItems db) (orders db)
       v (drivers db) (nextId db).

Definition set_drivers (v : list Driver.t) (db : DB) : DB :=
  mkDB (restaurants db) (menuItems db) (carts db) (cartItems db) (orders db)
       (deliveries db) v (nextId db).

(** Takes the next generated id. *)
Definition bump (db : DB) : DB :=
  mkDB (restaurants db) (menuItems db) (carts db) (cartItems db) (orders db)
       (deliveries db) (drivers db) (S (nextId db)).

(** ** Queries shared by the services *)

Definition findRestaurant (restaurantId : string) (db : DB) : option string :=
  find (String.eqb restaurantId) (restaurants db).

Definition findMenuItem (menuItemId : string) (db : DB) : option MenuItem.t :=
  find (fun m => String.eqb (MenuItem.id m) menuItemId) (menuItems db).

Definition findCart (userId : string) (db : DB) : option Cart.t :=
  find (fun c => String.eqb (Cart.userId c) userId) (carts db).

Definition findOrder (orderId : nat) (db : DB) : option Order.t :=
  find (fun o => Nat.eqb (Order.id o) orderId) (orders db).

Definition findDelivery (deliveryId : nat) (db : DB) : option Delivery.t :=
  find (fun d => Nat.eqb (Delivery.id d) deliveryId) (deliveries db).

(** [include: { delivery: true }] on an order: the delivery row of that order. *)
Definition deliveryOfOrder (orderId : nat) (db : DB) : option Delivery.t :=
  find (fun d => Nat.eqb (Delivery.orderId d) orderId) (deliveries db).

Definition findDriver (driverId : string) (db : DB) : option Driver.t :=
  find (fun d => String.eqb (Driver.id d) driverId) (drivers db).

(** JS [a || b] on optional strings: the empty string is falsy too. *)
Definition orElse (a b : option string) : option string :=
  match a with
  | Some s => if String.eqb s "" then b else Some s
  | None => b
  end.

(** An integer-valued JS number as a double: the binary64 value of the
    integer, of any size (an integer that is no double, which no JS number
    holds, is taken to the nearest one, ties to even). *)
Definition Number_of_int (z : Z) : float :=
  SF2Prim (binary_normalize prec emax z 0 false).

(** ** [order.service.ts] *)

(** Valid status transitions *)
Definition STATUS_TRANSITIONS (s : OrderStatus.t) : list OrderStatus.t :=
  match s with
  | OrderStatus.PENDING => [OrderStatus.CONFIRMED; OrderStatus.CANCELLED]
  | OrderStatus.CONFIRMED => [OrderStatus.PREPARING; OrderStatus.CANCELLED]
  | OrderStatus.PREPARING => [OrderStatus.ON_THE_WAY; OrderStatus.CANCELLED]
  | OrderStatus.ON_THE_WAY => [OrderStatus.DELIVERED; OrderStatus.CANCELLED]
  | OrderStatus.DELIVERED => []
  | OrderStatus.CANCELLED => []
  end.

(** *** Cart *)

(** [prisma.cartItem.findUnique({ where: { cartId_menuItemId } })] *)
Definition findCartItemByMenu (cartId : nat) (menuItemId : string) (db : DB)
  : option CartItem.t :=
  find (fun ci => Nat.eqb (CartItem.cartId ci) cartId
                  && String.eqb (CartItem.menuItemId ci) menuItemId)
       (cartItems db).

(** [prisma.cartItem.findFirst({ where: { id, cartId } })] *)
Definition findCartItemIn (itemId cartId : nat) (db : DB) : option CartItem.t :=
  find (fun ci => Nat.eqb (CartItem.id ci) itemId
                  && Nat.eqb (CartItem.cartId ci) cartId)
       (cartItems db).

Definition itemsOfCart (cartId : nat) (db : DB) : list CartItem.t :=
  List.filter (fun ci => Nat.eqb (CartItem.cartId ci) cartId) (cartItems db).

(** [prisma.cartItem.delete({ where: { id } })] *)
Definition deleteCartItem (itemId : nat) (db : DB) : DB :=
  set_cartItems
    (List.filter (fun ci => negb (Nat.eqb (CartItem.id ci) itemId)) (cartItems db))
    db.

(** [prisma.cartItem.deleteMany({ where: { cartId } })] *)
Definition deleteCartItemsOf (cartId : nat) (db : DB) : DB :=
  set_cartItems
    (List.filter (fun ci => negb (Nat.eqb (CartItem.cartId ci) cartId)) (cartItems db))
    db.

(** [prisma.cartItem.update({ where: { id }, data })]: an absent field of
    [data] leaves the column as it is. *)
Definition updateCartItemRow (itemId : nat) (quantity : option Z)
    (notes : option string) (db : DB) : DB :=
  set_cartItems
    (map (fun ci =>
            if Nat.eqb (CartItem.id ci) itemId then
              CartItem.mk (CartItem.id ci) (CartItem.cartId ci)
                (CartItem.menuItemId ci)
                (match quantity with Some q => q | None => CartItem.quantity ci end)
                (match notes with Some n => Some n | None => CartItem.notes ci end)
            else ci)
         (cartItems db))
    db.

(** [let cart = findUnique(...); if (!cart) cart = create(...)] *)
Definition getOrCreateCart (userId : string) (db : DB) : Cart.t * DB :=
  match findCart userId db with
  | Some cart => (cart, db)
  | None =>
      let cart := Cart.mk (nextId db) userId in
      (cart, bump (set_carts (carts db ++ [cart]) db))
  end.

(** [getCart]: the rows of the user's cart (the derived subtotal and item
    count of the view are left out; they are not stored). *)
Definition getCart (userId : string) (db : DB) : list CartItem.t * DB :=
  let '(cart, db1) := getOrCreateCart userId db in
  (itemsOfCart (Cart.id cart) db1, db1).

Record AddToCartData : Type := mkAddToCartData {
  add_menuItemId : string;
  add_quantity : Z;
  add_notes : option string
}.

Definition addToCart (userId : string) (data : AddToCartData) (db : DB)
  : Result (list CartItem.t * DB) :=
  match findMenuItem (add_menuItemId data) db with
  | None => Throw (NotFoundError "Menu item not found")
  | Some menuItem =>
      if negb (MenuItem.isAvailable menuItem) then
        Throw (BadRequestError "Menu item is not available")
      else
        let '(cart, db1) := getOrCreateCart userId db in
        let db2 :=
          match findCartItemByMenu (Cart.id cart) (add_menuItemId data) db1 with
          | Some existingItem =>
              updateCartItemRow (CartItem.id existingItem)
                (Some (CartItem.quantity existingItem + add_quantity data))
                (orElse (add_notes data) (CartItem.notes existingItem))
                db1
          | None =>
              bump (set_cartItems
                      (cartItems db1 ++
                       [CartItem.mk (nextId db1) (Cart.id cart)
                          (add_menuItemId data) (add_quantity data)
                          (add_notes data)])
                      db1)
          end in
        Ok (getCart userId db2)
  end.

Record UpdateCartItemData : Type := mkUpdateCartItemData {
  upd_quantity : option Z;
  upd_notes : option string
}.

Definition updateCartItem (userId : string) (itemId : nat)
    (data : UpdateCartItemData) (db : DB) : Result (list CartItem.t * DB) :=
  match findCart userId db with
  | None => Throw (NotFoundError "Cart not found")
  | Some cart =>
      match findCartItemIn itemId (Cart.id cart) db with
      | None => Throw (NotFoundError "Cart item not found")
      | Some _ =>
          let db1 :=
            match upd_quantity data with
            | Some q =>
                if q <=? 0 then deleteCartItem itemId db
                else updateCartItemRow itemId (upd_quantity data) (upd_notes data) db
            | None =>
                updateCartItemRow itemId (upd_quantity data) (upd_notes data) db
            end in
          Ok (getCart userId db1)
      end
  end.

Definition removeFromCart (userId : string) (itemId : nat) (db : DB)
  : Result (list CartItem.t * DB) :=
  match findCart userId db with
  | None => Throw (NotFoundError "Cart not found")
  | Some cart =>
      match findCartItemIn itemId (Cart.id cart) db with
      | None => Throw (NotFoundError "Cart item not found")
      | Some _ => Ok (getCart userId (deleteCartItem itemId db))
      end
  end.

Definition clearCart (userId : string) (db : DB) : DB :=
  match findCart userId db with
  | Some cart => deleteCartItemsOf (Cart.id cart) db
  | None => db
  end.

(** *** Orders *)

Record OrderItemInput : Type := mkOrderItemInput {
  in_menuItemId : string;
  in_quantity : Z;
  in_notes : option string
}.

Record CreateOrderData : Type := mkCreateOrderData {
  data_restaurantId : string;
  data_deliveryAddress : string;
  data_notes : option string;
  data_items : option (list OrderItemInput)
}.

(** [data.items && data.items.length > 0] *)
Definition hasItems (data : CreateOrderData) : bool :=
  match data_items data with
  | Some (_ :: _) => true
  | _ => false
  end.

(** [new Prisma.Decimal(Number(price) * quantity)] *)
Definition lineTotal (price : Decimal) (quantity : Z) : Decimal :=
  PrimFloat.mul price (Number_of_int quantity).

(** The loop over [data.items]: the first offending item throws. *)
Fixpoint orderItemsOfInput (restaurantId : string) (db : DB)
    (items : list OrderItemInput) : Result (list OrderItem.t) :=
  match items with
  | [] => Ok []
  | item :: rest =>
      match findMenuItem (in_menuItemId item) db with
      | None =>
          Throw (NotFoundError ("Menu item " +:+ in_menuItemId item +:+ " not found"))
      | Some menuItem =>
          if negb (MenuItem.isAvailable menuItem) then
            Throw (BadRequestError (MenuItem.name menuItem +:+ " is not available"))
          else if negb (String.eqb (MenuItem.restaurantId menuItem) restaurantId) then
            Throw (BadRequestError
                     (MenuItem.name menuItem +:+ " does not belong to this restaurant"))
          else
            match orderItemsOfInput restaurantId db rest with
            | Throw e => Throw e
            | Ok orderItems =>
                Ok (OrderItem.mk (in_menuItemId item) (in_quantity item)
                      (MenuItem.price menuItem)
                      (lineTotal (MenuItem.price menuItem) (in_quantity item))
                      (in_notes item)
                    :: orderItems)
            end
      end
  end.

(** [include: { items: { include: { menuItem } } }] on the cart: its rows,
    each joined with its menu item (the foreign key makes the join total on
    rows [addToCart] created). *)
Definition cartRowsWithMenu (cartId : nat) (db : DB)
  : list (CartItem.t * MenuItem.t) :=
  flat_map (fun ci =>
              match findMenuItem (CartItem.menuItemId ci) db with
              | Some m => [(ci, m)]
              | None => []
              end)
           (itemsOfCart cartId db).

(** The loop over [cart.items]. *)
Fixpoint orderItemsOfCart (restaurantId : string)
    (rows : list (CartItem.t * MenuItem.t)) : Result (list OrderItem.t) :=
  match rows with
  | [] => Ok []
  | (item, menuItem) :: rest =>
      if negb (String.eqb (MenuItem.restaurantId menuItem) restaurantId) then
        Throw (BadRequestError "All items must be from the same restaurant")
      else if negb (MenuItem.isAvailable menuItem) then
        Throw (BadRequestError (MenuItem.name menuItem +:+ " is no longer available"))
      else
        match orderItemsOfCart restaurantId rest with
        | Throw e => Throw e
        | Ok orderItems =>
            Ok (OrderItem.mk (CartItem.menuItemId item) (CartItem.quantity item)
                  (MenuItem.price menuItem)
                  (lineTotal (MenuItem.price menuItem) (CartItem.quantity item))
                  (orElse (CartItem.notes item) None)
                :: orderItems)
        end
  end.

(** The first half of [createOrder]: which items the order will carry. *)
Definition collectOrderItems (userId : string) (data : CreateOrderData) (db : DB)
  : Result (list OrderItem.t) :=
  match data_items data with
  | Some (item :: rest) =>
      orderItemsOfInput (data_restaurantId data) db (item :: rest)
  | _ =>
      match findCart userId db with
      | None => Throw (BadRequestError "Cart is empty")
      | Some cart =>
          match itemsOfCart (Cart.id cart) db with
          | [] => Throw (BadRequestError "Cart is empty")
          | _ :: _ =>
              orderItemsOfCart (data_restaurantId data)
                (cartRowsWithMenu (Cart.id cart) db)
          end
      end
  end.

(** [orderItems.reduce((sum, item) => sum + Number(item.totalPrice), 0)] *)
Definition sumTotalPrice (orderItems : list OrderItem.t) : float :=
  fold_left (fun sum item => PrimFloat.add sum (OrderItem.totalPrice item))
            orderItems 0%float.

Definition TAX_RATE : float := 0.1%float.
Definition DELIVERY_FEE : float := 5%float.

Definition createOrder (userId : string) (data : CreateOrderData) (db : DB)
  : Result (Order.t * DB) :=
  match findRestaurant (data_restaurantId data) db with
  | None => Throw (NotFoundError "Restaurant not found")
  | Some _ =>
      match collectOrderItems userId data db with
      | Throw e => Throw e
      | Ok orderItems =>
          let subtotal := sumTotalPrice orderItems in
          let tax := PrimFloat.mul subtotal TAX_RATE in
          let deliveryFee := DELIVERY_FEE in
          let totalAmount := PrimFloat.add (PrimFloat.add subtotal tax) deliveryFee in
          (* prisma.$transaction *)
          let newOrder :=
            Order.mk (nextId db) (nextId db) userId (data_restaurantId data)
              (data_deliveryAddress data) (data_notes data)
              subtotal tax deliveryFee totalAmount OrderStatus.PENDING orderItems in
          let db1 := bump (set_orders (orders db ++ [newOrder]) db) in
          let db2 := if hasItems data then db1 else clearCart userId db1 in
          Ok (newOrder, db2)
      end
  end.

(** [prisma.order.update({ where: { id }, data: { status } })] *)
Definition setOrderStatus (orderId : nat) (s : OrderStatus.t) (db : DB) : DB :=
  set_orders
    (map (fun o => if Nat.eqb (Order.id o) orderId then Order.with_status s o else o)
         (orders db))
    db.

Definition transitionMessage (current new : string) : string :=
  "Cannot transition from " +:+ current +:+ " to " +:+ new.

Definition updateOrderStatus (orderId : nat) (newStatus : OrderStatus.t) (db : DB)
  : Result (Order.t * DB) :=
  match findOrder orderId db with
  | None => Throw (NotFoundError "Order not found")
  | Some order =>
      if negb (OrderStatus.includes (STATUS_TRANSITIONS (Order.status order)) newStatus)
      then
        Throw (BadRequestError
                 (transitionMessage (OrderStatus.name (Order.status order))
                                    (OrderStatus.name newStatus)))
      else
        Ok (Order.with_status newStatus order, setOrderStatus orderId newStatus db)
  end.

Definition cancelOrder (orderId : nat) (userId : string) (db : DB)
  : Result (Order.t * DB) :=
  match findOrder orderId db with
  | None => Throw (NotFoundError "Order not found")
  | Some order =>
      if negb (String.eqb (Order.userId order) userId) then
        Throw (NotFoundError "Order not found")
      else if negb (OrderStatus.includes
                      [OrderStatus.PENDING; OrderStatus.CONFIRMED]
                      (Order.status order)) then
        Throw (BadRequestError "Order cannot be cancelled at this stage")
      else updateOrderStatus orderId OrderStatus.CANCELLED db
  end.


(** ** [delivery.service.ts] *)

(** Valid delivery status transitions *)
Definition DELIVERY_STATUS_TRANSITIONS (s : DeliveryStatus.t) : list DeliveryStatus.t :=
  match s with
  | DeliveryStatus.ASSIGNED => [DeliveryStatus.PICKED_UP]
  | DeliveryStatus.PICKED_UP => [DeliveryStatus.IN_TRANSIT]
  | DeliveryStatus.IN_TRANSIT => [DeliveryStatus.DELIVERED]
  | DeliveryStatus.DELIVERED => []
  end.

(** [status: { in: ['ASSIGNED', 'PICKED_UP', 'IN_TRANSIT'] }] *)
Definition ACTIVE_STATUSES : list DeliveryStatus.t :=
  [DeliveryStatus.ASSIGNED; DeliveryStatus.PICKED_UP; DeliveryStatus.IN_TRANSIT].

Definition isActiveFor (driverId : string) (d : Delivery.t) : bool :=
  String.eqb (Delivery.driverId d) driverId
  && DeliveryStatus.includes ACTIVE_STATUSES (Delivery.status d).

(** [prisma.delivery.findFirst({ where: { driverId, status: { in: ... } } })] *)
Definition getActiveDelivery (driverId : string) (db : DB) : option Delivery.t :=
  find (isActiveFor driverId) (deliveries db).

(** Every delivery of the driver that is not yet terminal. *)
Definition activeDeliveries (driverId : string) (db : DB) : list Delivery.t :=
  List.filter (isActiveFor driverId) (deliveries db).

(** [prisma.driver.update({ where: { id }, data })] *)
Definition updateDriverRow (driverId : string) (f : Driver.t -> Driver.t) (db : DB) : DB :=
  set_drivers
    (map (fun d => if String.eqb (Driver.id d) driverId then f d else d) (drivers db))
    db.

Definition setAvailable (b : bool) (d : Driver.t) : Driver.t :=
  Driver.mk (Driver.id d) (Driver.userId d) b (Driver.totalDeliveries d).

(** [data: { isAvailable: true, totalDeliveries: { increment: 1 } }] *)
Definition completeDelivery (d : Driver.t) : Driver.t :=
  Driver.mk (Driver.id d) (Driver.userId d) true (Driver.totalDeliveries d + 1).

Definition assignDriver (orderId : nat) (driverId : string)
    (estimatedTime : option Z) (db : DB) : Result (Delivery.t * DB) :=
  match findOrder orderId db with
  | None => Throw (NotFoundError "Order not found")
  | Some order =>
      if negb (OrderStatus.eqb (Order.status order) OrderStatus.PREPARING)
         && negb (OrderStatus.eqb (Order.status order) OrderStatus.CONFIRMED)
      then Throw (BadRequestError "Order is not ready for delivery assignment")
      else
        match deliveryOfOrder orderId db with
        | Some _ => Throw (BadRequestError "Order already has a delivery assigned")
        | None =>
            match findDriver driverId db with
            | None => Throw (NotFoundError "Driver not found")
            | Some driver =>
                if negb (Driver.isAvailable driver) then
                  Throw (BadRequestError "Driver is not available")
                else
                  (* prisma.$transaction *)
                  let newDelivery :=
                    Delivery.mk (nextId db) orderId driverId estimatedTime
                      DeliveryStatus.ASSIGNED None None in
                  let db1 := bump (set_deliveries (deliveries db ++ [newDelivery]) db) in
                  let db2 :=
                    if OrderStatus.eqb (Order.status order) OrderStatus.PREPARING
                    then setOrderStatus orderId OrderStatus.ON_THE_WAY db1
                    else db1 in
                  let db3 := updateDriverRow driverId (setAvailable false) db2 in
                  Ok (newDelivery, db3)
            end
        end
  end.

(** [updateData]: the new status, and the timestamp the status calls for. *)
Definition applyDeliveryUpdate (newStatus : DeliveryStatus.t) (now : Z)
    (d : Delivery.t) : Delivery.t :=
  Delivery.mk (Delivery.id d) (Delivery.orderId d) (Delivery.driverId d)
    (Delivery.estimatedTime d) newStatus
    (if DeliveryStatus.eqb newStatus DeliveryStatus.PICKED_UP
     then Some now else Delivery.pickupTime d)
    (if DeliveryStatus.eqb newStatus DeliveryStatus.PICKED_UP
     then Delivery.deliveryTime d
     else if DeliveryStatus.eqb newStatus DeliveryStatus.DELIVERED
          then Some now else Delivery.deliveryTime d).

(** [now] is the instant [new Date()] reads. *)
Definition updateDeliveryStatus (deliveryId : nat) (newStatus : DeliveryStatus.t)
    (now : Z) (db : DB) : Result (Delivery.t * DB) :=
  match findDelivery deliveryId db with
  | None => Throw (NotFoundError "Delivery not found")
  | Some delivery =>
      if negb (DeliveryStatus.includes
                 (DELIVERY_STATUS_TRANSITIONS (Delivery.status delivery)) newStatus)
      then
        Throw (BadRequestError
                 (transitionMessage (DeliveryStatus.name (Delivery.status delivery))
                                    (DeliveryStatus.name newStatus)))
      else
        (* prisma.$transaction *)
        let db1 :=
          set_deliveries
            (map (fun d => if Nat.eqb (Delivery.id d) deliveryId
                           then applyDeliveryUpdate newStatus now d else d)
                 (deliveries db))
            db in
        let db2 :=
          if DeliveryStatus.eqb newStatus DeliveryStatus.DELIVERED then
            updateDriverRow (Delivery.driverId delivery) completeDelivery
              (setOrderStatus (Delivery.orderId delivery) OrderStatus.DELIVERED db1)
          else db1 in
        Ok (applyDeliveryUpdate newStatus now delivery, db2)
  end.

Definition updateDriverAvailability (driverId : string) (isAvailable : bool)
    (db : DB) : Result (Driver.t * DB) :=
  match findDriver driverId db with
  | None => Throw (NotFoundError "Driver not found")
  | Some driver =>
      (* Check for active deliveries if trying to go offline *)
      match (if negb isAvailable then getActiveDelivery driverId db else None) with
      | Some _ => Throw (BadRequestError "Cannot go offline with active delivery")
      | None =>
          Ok (setAvailable isAvailable driver,
              updateDriverRow driverId (setAvailable isAvailable) db)
      end
  end.

(** ** [queue.service.ts] *)

(** A queued or synced order request. [createdAt] holds
    [new Date(createdAt).getTime()], the instant the ISO string of the
    request denotes ([syncOrdersSchema] admits well-formed datetimes only). *)
Record QueuedOrder : Type := mkQueuedOrder {
  clientId : string;
  userId : string;
  restaurantId : string;
  deliveryAddress : string;
  notes : option string;
  items : list OrderItemInput;
  createdAt : Z
}.

(** A request of [syncOrders]: the same fields, without [userId]. *)
Record SyncRequest : Type := mkSyncRequest {
  sync_clientId : string;
  sync_restaurantId : string;
  sync_deliveryAddress : string;
  sync_notes : option string;
  sync_items : list OrderItemInput;
  sync_createdAt : Z
}.

Record QueueResult : Type := mkQueueResult {
  res_clientId : string;
  success : bool;
  res_orderId : option nat;
  res_orderNumber : option nat;
  error : option string
}.

(** The value stored under a client key, [{ orderId, orderNumber }]. *)
Record ClientMapping : Type := mkClientMapping {
  map_orderId : nat;
  map_orderNumber : nat
}.

(** The Redis instance: string keys with the instant (in seconds) at which
    they expire, the list [order:queue], and the slot [order:processing]. *)
Record Redis : Type := mkRedis {
  clientKeys : gmap string (ClientMapping * Z);
  queue : list QueuedOrder;
  processing : option QueuedOrder
}.

(** [redis.get(key)] at instant [now]: an expired key reads as absent. *)
Definition redis_get (key : string) (now : Z) (r : Redis) : option ClientMapping :=
  match clientKeys r !! key with
  | Some (v, expiresAt) => if now <? expiresAt then Some v else None
  | None => None
  end.

(** [redis.setex(key, seconds, value)] at instant [now]. *)
Definition redis_setex (key : string) (seconds : Z) (v : ClientMapping) (now : Z)
    (r : Redis) : Redis :=
  mkRedis (<[key := (v, now + seconds)]> (clientKeys r)) (queue r) (processing r).

(** [redis.rpush(QUEUE_KEY, item)] *)
Definition redis_rpush (item : QueuedOrder) (r : Redis) : Redis :=
  mkRedis (clientKeys r) (queue r ++ [item]) (processing r).

(** [redis.lpop(QUEUE_KEY)] *)
Definition redis_lpop (r : Redis) : option QueuedOrder * Redis :=
  match queue r with
  | [] => (None, r)
  | item :: rest => (Some item, mkRedis (clientKeys r) rest (processing r))
  end.

(** [redis.set(PROCESSING_KEY, item)] and [redis.del(PROCESSING_KEY)] *)
Definition redis_setProcessing (v : option QueuedOrder) (r : Redis) : Redis :=
  mkRedis (clientKeys r) (queue r) v.

(** The store, the Redis instance and the [isProcessing] field of the
    [QueueService] singleton. *)
Record World : Type := mkWorld {
  db : DB;
  redis : Redis;
  isProcessing : bool
}.

Definition set_db (v : DB) (w : World) : World := mkWorld v (redis w) (isProcessing w).
Definition set_redis (v : Redis) (w : World) : World := mkWorld (db w) v (isProcessing w).
Definition set_isProcessing (v : bool) (w : World) : World := mkWorld (db w) (redis w) v.

Definition successResult (client : string) (orderId orderNumber : nat) : QueueResult :=
  mkQueueResult client true (Some orderId) (Some orderNumber) None.

Definition failureResult (client : string) (e : AppError) : QueueResult :=
  mkQueueResult client false None None (Some (errorMessage e)).

(** [JSON.stringify({ ...order, userId })] *)
Definition withUserId (user : string) (order : QueuedOrder) : QueuedOrder :=
  mkQueuedOrder (clientId order) user (restaurantId order) (deliveryAddress order)
    (notes order) (items order) (createdAt order).

Definition enqueueOrders (user : string) (orders : list QueuedOrder) (w : World) : World :=
  fold_left (fun w order => set_redis (redis_rpush (withUserId user order) (redis w)) w)
            orders w.

(** What one run of the drain does, call by call: the log is a ghost
    record of the Redis commands on the marker and the queue and of the
    [createOrder] calls, with their outcome. *)
Inductive Event : Type :=
| EvLpop (item : option QueuedOrder)
| EvSetProcessing (item : QueuedOrder)
| EvCreateOrder (user : string) (data : CreateOrderData) (succeeded : bool)
| EvDelProcessing.

Definition dataOfQueued (order : QueuedOrder) : CreateOrderData :=
  mkCreateOrderData (restaurantId order) (deliveryAddress order) (notes order)
    (Some (items order)).

(** The body of the [while (true)] loop of [processQueue] for a popped
    item: mark it, create the order, record the outcome, clear the mark. *)
Definition processItem (item : QueuedOrder) (w : World)
  : QueueResult * World * list Event :=
  let w1 := set_redis (redis_setProcessing (Some item) (redis w)) w in
  let log1 := [EvSetProcessing item] in
  let outcome := createOrder (userId item) (dataOfQueued item) (db w1) in
  let log2 := log1 ++ [EvCreateOrder (userId item) (dataOfQueued item) (isOk outcome)] in
  let '(result, w2) :=
    match outcome with
    | Ok (createdOrder, db') =>
        (successResult (clientId item) (Order.id createdOrder)
           (Order.orderNumber createdOrder),
         set_db db' w1)
    | Throw e => (failureResult (clientId item) e, w1)
    end in
  (* finally *)
  (result, set_redis (redis_setProcessing None (redis w2)) w2,
   log2 ++ [EvDelProcessing]).

(** The [while (true)] loop; [fuel] bounds the number of iterations and
    [None] means it ran out. *)
Fixpoint drain (fuel : nat) (w : World) (results : list QueueResult)
    (log : list Event) : option (list QueueResult * World * list Event) :=
  match fuel with
  | O => None
  | S fuel' =>
      match redis_lpop (redis w) with
      | (None, _) => Some (results, w, log ++ [EvLpop None])
      | (Some item, r) =>
          let '(result, w', events) := processItem item (set_redis r w) in
          drain fuel' w' (results ++ [result]) (log ++ EvLpop (Some item) :: events)
      end
  end.

Definition processQueue (fuel : nat) (w : World)
  : option (list QueueResult * World * list Event) :=
  if isProcessing w then Some ([], w, [])
  else
    match drain fuel (set_isProcessing true w) [] [] with
    | Some (results, w', log) => Some (results, set_isProcessing false w', log)
    | None => None
    end.

(** [`order:client:${userId}:${order.clientId}`] *)
Definition clientKey (user client : string) : string :=
  "order:client:" +:+ user +:+ ":" +:+ client.

(** Seconds a client key lives: 24 hours. *)
Definition CLIENT_KEY_TTL : Z := 86400.

(** [Array.prototype.sort] is stable; with the comparator
    [getTime(a) - getTime(b)] it yields the stable ascending arrangement,
    computed here by insertion. *)
Fixpoint insertByCreatedAt (x : SyncRequest) (l : list SyncRequest) : list SyncRequest :=
  match l with
  | [] => [x]
  | y :: rest =>
      if sync_createdAt x <=? sync_createdAt y then x :: y :: rest
      else y :: insertByCreatedAt x rest
  end.

Definition sortByCreatedAt (orders : list SyncRequest) : list SyncRequest :=
  fold_right insertByCreatedAt [] orders.

Definition dataOfSync (order : SyncRequest) : CreateOrderData :=
  mkCreateOrderData (sync_restaurantId order) (sync_deliveryAddress order)
    (sync_notes order) (Some (sync_items order)).

(** The body of the [for] loop of [syncOrders], at instant [now]. *)
Definition syncOne (user : string) (now : Z) (order : SyncRequest) (w : World)
  : QueueResult * World :=
  let existingKey := clientKey user (sync_clientId order) in
  match redis_get existingKey now (redis w) with
  | Some existingOrder =>
      (successResult (sync_clientId order) (map_orderId existingOrder)
         (map_orderNumber existingOrder), w)
  | None =>
      match createOrder user (dataOfSync order) (db w) with
      | Ok (createdOrder, db') =>
          let mapping :=
            mkClientMapping (Order.id createdOrder) (Order.orderNumber createdOrder) in
          (successResult (sync_clientId order) (Order.id createdOrder)
             (Order.orderNumber createdOrder),
           set_redis (redis_setex existingKey CLIENT_KEY_TTL mapping now (redis w))
                     (set_db db' w))
      | Throw e => (failureResult (sync_clientId order) e, w)
      end
  end.

Fixpoint syncLoop (user : string) (now : Z) (sortedOrders : list SyncRequest)
    (w : World) : list QueueResult * World :=
  match sortedOrders with
  | [] => ([], w)
  | order :: rest =>
      let '(result, w1) := syncOne user now order w in
      let '(results, w2) := syncLoop user now rest w1 in
      (result :: results, w2)
  end.

Definition syncOrders (user : string) (orders : list SyncRequest) (now : Z) (w : World)
  : list QueueResult * World :=
  syncLoop user now (sortByCreatedAt orders) w.

(** ** Further methods of the services, their helpers and callers *)

(** *** [order.service.ts]: reading an order *)

(** JS truthiness of an optional string argument. *)
Definition truthy (s : option string) : bool :=
  match s with
  | Some v => negb (String.eqb v "")
  | None => false
  end.

(** [order.userId !== userId] *)
Definition differsFrom (owner : string) (userId : option string) : bool :=
  match userId with
  | Some u => negb (String.eqb owner u)
  | None => true
  end.

(** [getOrderById]: the order with its delivery ([include: { delivery }]);
    the joined user, restaurant and driver rows are left out. *)
Definition getOrderById (orderId : nat) (userId : option string) (db : DB)
  : Result (Order.t * option Delivery.t) :=
  match findOrder orderId db with
  | None => Throw (NotFoundError "Order not found")
  | Some order =>
      (* Check ownership if userId provided (for customers) *)
      if truthy userId && differsFrom (Order.userId order) userId
      then Throw (NotFoundError "Order not found")
      else Ok (order, deliveryOfOrder (Order.id order) db)
  end.

(** [UserRole] of the Prisma schema. *)
Inductive UserRole : Type := CUSTOMER | STAFF | DRIVER | ADMIN.

(** [OrderController.getOrderById]:
    [userRole === 'CUSTOMER' ? userId : undefined]. *)
Definition controller_getOrderById (role : UserRole) (userId : string)
    (orderId : nat) (db : DB) : Result (Order.t * option Delivery.t) :=
  getOrderById orderId
    (match role with CUSTOMER => Some userId | _ => None end) db.

(** *** [delivery.service.ts]: the driver of a user *)

Definition getDriverByUserId (userId : string) (db : DB) : Result Driver.t :=
  match find (fun d => String.eqb (Driver.userId d) userId) (drivers db) with
  | None => Throw (NotFoundError "Driver profile not found")
  | Some driver => Ok driver
  end.

(** [DeliveryController.updateDriverAvailability] and the socket handler of
    [driver:availability]: the driver is the caller's own profile. *)
Definition controller_updateDriverAvailability (userId : string)
    (isAvailable : bool) (db : DB) : Result (Driver.t * DB) :=
  match getDriverByUserId userId db with
  | Throw e => Throw e
  | Ok driver => updateDriverAvailability (Driver.id driver) isAvailable db
  end.

(** *** [utils/helpers.ts]: pagination *)

Record Pagination : Type := mkPagination {
  page : Z;
  limit : Z;
  skip : Z;
  take : Z
}.

(** An argument of [parsePagination], a [string | number | undefined]:
    [undefined]; an integer-valued number (what the controllers' [parseInt]
    hands to the services); the number [NaN] (what that [parseInt] gives
    for a malformed query value); the empty string; or a string that is the
    decimal numeral of an integer (a query value passed on as it came).
    Numbers with a fraction and strings that are no numeral are not
    covered. *)
Inductive PageArg : Type :=
| ArgUndefined
| ArgNumber (n : Z)
| ArgNaN
| ArgEmptyString
| ArgNumeral (n : Z).

(** The integers this model of the paging arithmetic covers: up to 2^24 in
    magnitude. There every step of the code is exact: the integer is a
    double, [String] prints all of its digits and [parseInt] reads them
    back, and [page - 1] and its product with a limit of at most 100 stay
    below 2^31, far inside the integers that doubles hold without
    rounding. Beyond the range the code still answers, with the digits
    that [String] keeps and with rounded doubles; the model does not. *)
Definition PAGE_RANGE : Z := 2 ^ 24.

Definition inPageRange (n : Z) : bool := Z.abs n <=? PAGE_RANGE.

(** [parseInt(String(a || d), 10)]: [undefined], [NaN], the number 0 and the
    empty string are falsy and give the default; the string "0" is truthy.
    [None] marks an integer outside [PAGE_RANGE], which the model does not
    cover. *)
Definition parseIntOr (a : PageArg) (d : Z) : option Z :=
  match a with
  | ArgUndefined | ArgNaN | ArgEmptyString => Some d
  | ArgNumber n => if inPageRange n then Some (if n =? 0 then d else n) else None
  | ArgNumeral n => if inPageRange n then Some n else None
  end.

(** [None] only where [parseIntOr] gives it. *)
Definition parsePagination (pageArg limitArg : PageArg) : option Pagination :=
  match parseIntOr pageArg 1, parseIntOr limitArg 10 with
  | Some intPage, Some intLimit =>
      let parsedPage := Z.max 1 intPage in
      let parsedLimit := Z.min 100 (Z.max 1 intLimit) in
      Some (mkPagination parsedPage parsedLimit ((parsedPage - 1) * parsedLimit)
              parsedLimit)
  | _, _ => None
  end.

(** [findMany({ ..., skip, take })] over the filtered and ordered rows. *)
Definition pageWindow {A : Type} (p : Pagination) (rows : list A) : list A :=
  firstn (Z.to_nat (take p)) (skipn (Z.to_nat (skip p)) rows).

(** [Math.ceil(total / limit)] for a row count [total] of at most
    [PAGE_RANGE] and a [limit] from 1 to 100: the integer ceiling (the
    quotient is at most 2^24, so the double that holds it is within 2^-29
    of it, and a quotient that is no integer is at least 1/100 away from
    the next one). *)
Definition totalPages (total limitOf : Z) : Z := (total + limitOf - 1) / limitOf.

Record PageInfo : Type := mkPageInfo {
  info_page : Z;
  info_limit : Z;
  info_total : Z;
  info_totalPages : Z
}.

(** The paging that [getOrders], [getDeliveries] and [getMenuItems] share:
    [rows] is what the query's [where] and [orderBy] select, [findMany]
    returns the window and [count] the number of selected rows. [None]
    where [parsePagination] gives it, and for more than [PAGE_RANGE]
    selected rows, which the model of [totalPages] does not cover. *)
Definition paginate {A : Type} (rows : list A) (pageArg limitArg : PageArg)
  : option (list A * PageInfo) :=
  match parsePagination pageArg limitArg with
  | Some p =>
      let total := Z.of_nat (length rows) in
      if total <=? PAGE_RANGE
      then Some (pageWindow p rows,
                 mkPageInfo (page p) (limit p) total (totalPages total (limit p)))
      else None
  | None => None
  end.

(** *** [queue.service.ts]: the queue's length, and clearing it *)

(** [redis.llen(QUEUE_KEY)] *)
Definition getQueueLength (w : World) : nat := length (queue (redis w)).

(** [redis.del(QUEUE_KEY)], then [redis.del(PROCESSING_KEY)] *)
Definition clearQueue (w : World) : World :=
  set_redis (mkRedis (clientKeys (redis w)) [] None) w.

(** *** [sync.controller.ts] *)

(** The [data] of the responses of [syncOrders] and [processQueue]. *)
Record SyncSummary : Type := mkSyncSummary {
  total : nat;
  successful : nat;
  failedCount : nat;
  results : list QueueResult
}.

(** [SyncController.syncOrders]: [total] is [orders.length]. *)
Definition controller_syncOrders (user : string) (orders : list SyncRequest)
    (now : Z) (w : World) : SyncSummary * World :=
  let '(rs, w') := syncOrders user orders now w in
  (mkSyncSummary (length orders)
     (length (List.filter (fun r => success r) rs))
     (length (List.filter (fun r => negb (success r)) rs))
     rs,
   w').

(** [SyncController.processQueue]: [processed] is [results.length]. *)
Definition controller_processQueue (fuel : nat) (w : World)
  : option (SyncSummary * World) :=
  match processQueue fuel w with
  | Some (rs, w', _) =>
      Some (mkSyncSummary (length rs)
              (length (List.filter (fun r => success r) rs))
              (length (List.filter (fun r => negb (success r)) rs))
              rs,
            w')
  | None => None
  end.
(** ** Specification vocabulary *)

(** The transition table of spec section 4.1, edge by edge. *)
Inductive order_edge : OrderStatus.t -> OrderStatus.t -> Prop :=
| edge_pending_confirmed : order_edge OrderStatus.PENDING OrderStatus.CONFIRMED
| edge_pending_cancelled : order_edge OrderStatus.PENDING OrderStatus.CANCELLED
| edge_confirmed_preparing : order_edge OrderStatus.CONFIRMED OrderStatus.PREPARING
| edge_confirmed_cancelled : order_edge OrderStatus.CONFIRMED OrderStatus.CANCELLED
| edge_preparing_on_the_way : order_edge OrderStatus.PREPARING OrderStatus.ON_THE_WAY
| edge_preparing_cancelled : order_edge OrderStatus.PREPARING OrderStatus.CANCELLED
| edge_on_the_way_delivered : order_edge OrderStatus.ON_THE_WAY OrderStatus.DELIVERED
| edge_on_the_way_cancelled : order_edge OrderStatus.ON_THE_WAY OrderStatus.CANCELLED.

(** Two order rows that agree on every column but [status]. *)
Definition sameExceptStatus (o o' : Order.t) : Prop :=
  Order.id o' = Order.id o /\
  Order.orderNumber o' = Order.orderNumber o /\
  Order.userId o' = Order.userId o /\
  Order.restaurantId o' = Order.restaurantId o /\
  Order.deliveryAddress o' = Order.deliveryAddress o /\
  Order.notes o' = Order.notes o /\
  Order.subtotal o' = Order.subtotal o /\
  Order.tax o' = Order.tax o /\
  Order.deliveryFee o' = Order.deliveryFee o /\
  Order.totalAmount o' = Order.totalAmount o /\
  Order.items o' = Order.items o.

(** Two stores that agree on every table but [orders]. *)
Definition sameExceptOrders (db db' : DB) : Prop :=
  restaurants db' = restaurants db /\
  menuItems db' = menuItems db /\
  carts db' = carts db /\
  cartItems db' = cartItems db /\
  deliveries db' = deliveries db /\
  drivers db' = drivers db /\
  nextId db' = nextId db.


(** The (cart, menu item) pair a cart row stands for. *)
Definition cartKey (ci : CartItem.t) : nat * string :=
  (CartItem.cartId ci, CartItem.menuItemId ci).

(** At most one row per (cart, menu item) pair, and every row has a
    quantity of at least one. *)
Definition cartInvariant (db : DB) : Prop :=
  List.NoDup (map cartKey (cartItems db)) /\
  Forall (fun ci => 1 <= CartItem.quantity ci) (cartItems db).

(** The log a drain of queue [q] with outcomes [rs] must show: for each
    item, head first, one pop, the marker set to it, one [createOrder] call
    on it, and the marker cleared. *)
Fixpoint expectedLog (q : list QueuedOrder) (rs : list QueueResult) : list Event :=
  match q, rs with
  | item :: q', r :: rs' =>
      EvLpop (Some item) :: EvSetProcessing item
      :: EvCreateOrder (userId item) (dataOfQueued item) (success r)
      :: EvDelProcessing :: expectedLog q' rs'
  | _, _ => []
  end.

(** Modelled from the spec: the drain invokes [createOrder] once per
    queued item, head first, each call on the store the calls before it left
    behind; the result of an item reports its client id and the outcome of
    its call, the id and number of the created order or the message of the
    error. The results and the final store of such a run. *)
Fixpoint createOrderPerItem (q : list QueuedOrder) (store : DB)
  : list QueueResult * DB :=
  match q with
  | [] => ([], store)
  | item :: rest =>
      match createOrder (userId item) (dataOfQueued item) store with
      | Ok (created, store') =>
          let '(rs, final) := createOrderPerItem rest store' in
          (mkQueueResult (clientId item) true (Some (Order.id created))
             (Some (Order.orderNumber created)) None :: rs,
           final)
      | Throw e =>
          let '(rs, final) := createOrderPerItem rest store in
          (mkQueueResult (clientId item) false None None (Some (errorMessage e)) :: rs,
           final)
      end
  end.




Definition countOf {A : Type} (p : A -> bool) (l : list A) : nat :=
  length (List.filter p l).


(** No live client key for the request at instant [now]. *)
Definition unseen (user : string) (now : Z) (w : World) (o : SyncRequest) : Prop :=
  redis_get (clientKey user (sync_clientId o)) now (redis w) = None.

Definition keyOf (user : string) (o : SyncRequest) : string :=
  clientKey user (sync_clientId o).

(** The second response to a request, against the first: it carries the
    same client id; it is the very same result when the first succeeded; and
    when the first was a rejection (and the second submission is not earlier
    than the first) it is again a rejection that names no order, or it is
    the result of a request of the first submission that carried the same
    client id and was accepted. *)
Definition answersAgain (firstResults : list QueueResult) (now1 now2 : Z)
    (r1 r2 : QueueResult) : Prop :=
  res_clientId r2 = res_clientId r1 /\
  (success r1 = true -> r2 = r1) /\
  (success r1 = false ->
   now1 <= now2 ->
   (success r2 = false /\ res_orderId r2 = None /\ res_orderNumber r2 = None)
   \/
   (exists r,
       In r firstResults /\ res_clientId r = res_clientId r1 /\
       success r = true /\ r2 = r)).

(** The client ids that obtained an order, each once. *)
Definition succeededClients (rs : list QueueResult) : list string :=
  List.nodup String.string_dec (map res_clientId (List.filter success rs)).

(** A line of an order snapshots the menu price and multiplies it out:
    its total is the binary64 product of the unit price and the quantity,
    the quantity being the integer rounded to binary64 as IEEE 754
    prescribes (exactly itself up to 2^53 in magnitude). *)
Definition lineOf (db : DB) (i : OrderItem.t) : Prop :=
  exists m,
    findMenuItem (OrderItem.menuItemId i) db = Some m /\
    OrderItem.unitPrice i = MenuItem.price m /\
    OrderItem.totalPrice i =
    PrimFloat.mul (OrderItem.unitPrice i)
      (SF2Prim (binary_normalize prec emax (OrderItem.quantity i) 0 false)).

(** The stage at which an order accepts a driver. *)
Definition assignable (s : OrderStatus.t) : Prop :=
  s = OrderStatus.CONFIRMED \/ s = OrderStatus.PREPARING.

(** A key of the request that is live at the first instant is live, with the
    same value, at the second. *)
Definition durable (user : string) (now1 now2 : Z) (w : World) (o : SyncRequest) : Prop :=
  forall v,
    redis_get (keyOf user o) now1 (redis w) = Some v ->
    redis_get (keyOf user o) now2 (redis w) = Some v.

(** What the first submission leaves behind for a request and its result:
    a live key holding the order of a successful result, or a request that
    [createOrder] still rejects. *)
Definition settled (user : string) (now2 : Z) (w : World) (o : SyncRequest)
    (r : QueueResult) : Prop :=
  res_clientId r = sync_clientId o /\
  if success r
  then exists v,
         redis_get (keyOf user o) now2 (redis w) = Some v /\
         r = successResult (sync_clientId o) (map_orderId v) (map_orderNumber v)
  else isOk (createOrder user (dataOfSync o) (db w)) = false.

(** ** A sample store

    Two restaurants, a small menu, two drivers, no cart and no order yet. *)

Definition sampleMenu : list MenuItem.t :=
  [MenuItem.mk "X" "Pasta" 8.99%float true "R1";
   MenuItem.mk "Y" "Soup" 4.5%float true "R1";
   MenuItem.mk "Z" "Cake" 3%float false "R1";
   MenuItem.mk "W" "Tea" 2%float true "R2"].

Definition sampleDrivers : list Driver.t :=
  [Driver.mk "D1" "driver-user-1" true 0;
   Driver.mk "D2" "driver-user-2" true 0].

Definition sampleDb : DB :=
  mkDB ["R1"; "R2"] sampleMenu [] [] [] [] sampleDrivers 1.

Definition sampleWorld : World :=
  mkWorld sampleDb (mkRedis ∅ [] None) false.

(** ** Sequences of service calls *)

(** A call of the order or delivery service. *)
Inductive Op : Type :=
| OpCreateOrder (user : string) (data : CreateOrderData)
| OpUpdateOrderStatus (orderId : nat) (newStatus : OrderStatus.t)
| OpCancelOrder (orderId : nat) (user : string)
| OpAssignDriver (orderId : nat) (driverId : string) (estimatedTime : option Z)
| OpUpdateDeliveryStatus (deliveryId : nat) (newStatus : DeliveryStatus.t) (now : Z)
| OpUpdateDriverAvailability (driverId : string) (isAvailable : bool).

(** The store a call leaves behind; a call that throws leaves it as it was. *)
Definition after {A : Type} (r : Result (A * DB)) (db : DB) : DB :=
  match r with
  | Ok (_, db') => db'
  | Throw _ => db
  end.

Definition step (db : DB) (op : Op) : DB :=
  match op with
  | OpCreateOrder user data => after (createOrder user data db) db
  | OpUpdateOrderStatus orderId s => after (updateOrderStatus orderId s db) db
  | OpCancelOrder orderId user => after (cancelOrder orderId user db) db
  | OpAssignDriver orderId driverId t => after (assignDriver orderId driverId t db) db
  | OpUpdateDeliveryStatus deliveryId s now =>
      after (updateDeliveryStatus deliveryId s now db) db
  | OpUpdateDriverAvailability driverId b =>
      after (updateDriverAvailability driverId b db) db
  end.

Definition run (ops : list Op) (db : DB) : DB := fold_left step ops db.

(** The status of an order after each call of a sequence. *)
Fixpoint statusHistory (orderId : nat) (ops : list Op) (db : DB)
  : list (option OrderStatus.t) :=
  match ops with
  | [] => []
  | op :: rest =>
      option_map Order.status (findOrder orderId (step db op))
      :: statusHistory orderId rest (step db op)
  end.

(** A call of the cart part of the order service. *)
Inductive CartOp : Type :=
| OpAddToCart (user : string) (data : AddToCartData)
| OpUpdateCartItem (user : string) (itemId : nat) (data : UpdateCartItemData)
| OpRemoveFromCart (user : string) (itemId : nat)
| OpClearCart (user : string).

Definition stepCart (db : DB) (op : CartOp) : DB :=
  match op with
  | OpAddToCart user data => after (addToCart user data db) db
  | OpUpdateCartItem user itemId data => after (updateCartItem user itemId data db) db
  | OpRemoveFromCart user itemId => after (removeFromCart user itemId db) db
  | OpClearCart user => clearCart user db
  end.

Definition runCart (ops : list CartOp) (db : DB) : DB := fold_left stepCart ops db.

(** *** Scenarios on the sample store *)

Definition twoPasta : CreateOrderData :=
  mkCreateOrderData "R1" "12 Main Street" None (Some [mkOrderItemInput "X" 2 None]).

(** An order is confirmed, gets a driver while still CONFIRMED, and the
    delivery runs to its end. *)
Definition confirmedThenDelivered : list Op :=
  [OpCreateOrder "u1" twoPasta;
   OpUpdateOrderStatus 1 OrderStatus.CONFIRMED;
   OpAssignDriver 1 "D1" None;
   OpUpdateDeliveryStatus 2 DeliveryStatus.PICKED_UP 100;
   OpUpdateDeliveryStatus 2 DeliveryStatus.IN_TRANSIT 200;
   OpUpdateDeliveryStatus 2 DeliveryStatus.DELIVERED 300].

(** The same, with the customer cancelling after the driver was assigned. *)
Definition cancelledThenDelivered : list Op :=
  [OpCreateOrder "u1" twoPasta;
   OpUpdateOrderStatus 1 OrderStatus.CONFIRMED;
   OpAssignDriver 1 "D1" None;
   OpCancelOrder 1 "u1";
   OpUpdateDeliveryStatus 2 DeliveryStatus.PICKED_UP 100;
   OpUpdateDeliveryStatus 2 DeliveryStatus.IN_TRANSIT 200;
   OpUpdateDeliveryStatus 2 DeliveryStatus.DELIVERED 300].

(** Two confirmed orders; driver D1 takes the first and then reports
    itself available again. *)
Definition busyDriverGoesOnline : list Op :=
  [OpCreateOrder "u1" twoPasta;
   OpCreateOrder "u2" twoPasta;
   OpUpdateOrderStatus 1 OrderStatus.CONFIRMED;
   OpUpdateOrderStatus 2 OrderStatus.CONFIRMED;
   OpAssignDriver 1 "D1" None;
   OpUpdateDriverAvailability "D1" true].

(** What [addToCartSchema] lets through: a positive quantity. The other
    cart calls are taken with any argument. *)
Definition validatedCartOp (op : CartOp) : Prop :=
  match op with
  | OpAddToCart _ data => 1 <= add_quantity data
  | _ => True
  end.

(** *** Sync requests on the sample store *)

Definition reqA : SyncRequest :=
  mkSyncRequest "c-a" "R1" "12 Main Street" None [mkOrderItemInput "X" 2 None] 3000.

Definition reqB : SyncRequest :=
  mkSyncRequest "c-b" "R1" "12 Main Street" None [mkOrderItemInput "Y" 1 None] 1000.

(** Restaurant R9 does not exist. *)
Definition reqBad : SyncRequest :=
  mkSyncRequest "c-bad" "R9" "12 Main Street" None [mkOrderItemInput "X" 1 None] 2000.





(** The sample world after customer u1 put two Pasta in the cart. *)
Definition cartWorld : World :=
  mkWorld (stepCart sampleDb (OpAddToCart "u1" (mkAddToCartData "X" 2 None)))
          (mkRedis ∅ [] None) false.

(** The sample world after an earlier sync of [reqA] whose dedup key
    expires at instant 15: order 1 exists and is mapped to client id c-a. *)
Definition expiringWorld : World :=
  snd (syncOrders "u1" [reqA] (15 - CLIENT_KEY_TTL) sampleWorld).

(** *** Further fixtures *)

(** The sample store after customer u1 ordered two Pasta (order 1). *)
Definition orderedDb : DB := run [OpCreateOrder "u1" twoPasta] sampleDb.

(** The same with order 1 confirmed. *)
Definition confirmedDb : DB :=
  run [OpCreateOrder "u1" twoPasta; OpUpdateOrderStatus 1 OrderStatus.CONFIRMED] sampleDb.

Definition queuedA : QueuedOrder :=
  mkQueuedOrder "q-a" "u1" "R1" "12 Main Street" None [mkOrderItemInput "X" 2 None] 1000.

(** Item Z is not available. *)
Definition queuedBad : QueuedOrder :=
  mkQueuedOrder "q-bad" "u1" "R1" "12 Main Street" None [mkOrderItemInput "Z" 1 None] 2000.

Definition queuedWorld : World := enqueueOrders "u1" [queuedA; queuedBad] sampleWorld.

(** Order 1 of [orderedDb], as [createOrder] stored it. *)
Definition pendingOrder : Order.t :=
  Order.mk 1 1 "u1" "R1" "12 Main Street" None 17.98%float 1.798%float 5%float
    24.778%float OrderStatus.PENDING [OrderItem.mk "X" 2 8.99%float 17.98%float None].

(** *** Drivers and their active deliveries *)

(** Delivery ids are distinct and below the id counter; a driver has at
    most one active delivery; and a driver row with an active delivery is
    unavailable. *)
Definition driverInvariant (db : DB) : Prop :=
  List.NoDup (map Delivery.id (deliveries db)) /\
  (forall d, In d (deliveries db) -> (Delivery.id d < nextId db)%nat) /\
  (forall driverId, (length (activeDeliveries driverId db) <= 1)%nat) /\
  (forall driver,
      In driver (drivers db) ->
      activeDeliveries (Driver.id driver) db <> [] ->
      Driver.isAvailable driver = false).

(** A call that does not report a driver available while that driver holds
    an active delivery. *)
Definition quietOp (db : DB) (op : Op) : Prop :=
  match op with
  | OpUpdateDriverAvailability driverId true => activeDeliveries driverId db = []
  | _ => True
  end.

Fixpoint quietRun (ops : list Op) (db : DB) : Prop :=
  match ops with
  | [] => True
  | op :: rest => quietOp db op /\ quietRun rest (step db op)
  end.

(** ** Vocabulary for the delivery lifecycle *)

(** The delivery lifecycle, edge by edge. *)
Inductive delivery_edge : DeliveryStatus.t -> DeliveryStatus.t -> Prop :=
| edge_assigned_picked_up :
    delivery_edge DeliveryStatus.ASSIGNED DeliveryStatus.PICKED_UP
| edge_picked_up_in_transit :
    delivery_edge DeliveryStatus.PICKED_UP DeliveryStatus.IN_TRANSIT
| edge_in_transit_delivered :
    delivery_edge DeliveryStatus.IN_TRANSIT DeliveryStatus.DELIVERED.

(** How far along its lifecycle a delivery is. *)
Definition stage (s : DeliveryStatus.t) : nat :=
  match s with
  | DeliveryStatus.ASSIGNED => 0
  | DeliveryStatus.PICKED_UP => 1
  | DeliveryStatus.IN_TRANSIT => 2
  | DeliveryStatus.DELIVERED => 3
  end.

(** Two delivery rows for the same order, driver and estimate. *)
Definition sameAssignment (d d' : Delivery.t) : Prop :=
  Delivery.id d' = Delivery.id d /\
  Delivery.orderId d' = Delivery.orderId d /\
  Delivery.driverId d' = Delivery.driverId d /\
  Delivery.estimatedTime d' = Delivery.estimatedTime d.

(** A delivery carries a pickup time exactly from PICKED_UP on, and a
    delivery time exactly when DELIVERED. *)
Definition timestamped (d : Delivery.t) : Prop :=
  (Delivery.pickupTime d = None <-> Delivery.status d = DeliveryStatus.ASSIGNED) /\
  (Delivery.deliveryTime d = None <-> Delivery.status d <> DeliveryStatus.DELIVERED).

(** The three status reports of a delivery that runs to its end. *)
Definition deliveryReports (deliveryId : nat) (t1 t2 t3 : Z) : list Op :=
  [OpUpdateDeliveryStatus deliveryId DeliveryStatus.PICKED_UP t1;
   OpUpdateDeliveryStatus deliveryId DeliveryStatus.IN_TRANSIT t2;
   OpUpdateDeliveryStatus deliveryId DeliveryStatus.DELIVERED t3].

(** The sample store with order 1 confirmed and handed to driver D1
    (delivery 2). *)
Definition assignedDb : DB :=
  run [OpCreateOrder "u1" twoPasta;
       OpUpdateOrderStatus 1 OrderStatus.CONFIRMED;
       OpAssignDriver 1 "D1" None] sampleDb.

(** The same store after delivery 2 was reported PICKED_UP at instant 100
    and IN_TRANSIT at instant 200. *)
Definition inTransitDb : DB :=
  run [OpUpdateDeliveryStatus 2 DeliveryStatus.PICKED_UP 100;
       OpUpdateDeliveryStatus 2 DeliveryStatus.IN_TRANSIT 200] assignedDb.

(** Delivery 2 of [assignedDb]. *)
Definition assignedDelivery : Delivery.t :=
  Delivery.mk 2 1 "D1" None DeliveryStatus.ASSIGNED None None.

(** ** Vocabulary for orders and carts *)

(** A menu item that can be ordered from a restaurant: it exists, is
    available and belongs to that restaurant. *)
Definition orderable (db : DB) (restaurantId menuItemId : string) : Prop :=
  exists m,
    findMenuItem menuItemId db = Some m /\
    MenuItem.isAvailable m = true /\
    MenuItem.restaurantId m = restaurantId.

(** What a line of an order and a line of a request say. *)
Definition lineContent (i : OrderItem.t) : string * Z * option string :=
  (OrderItem.menuItemId i, OrderItem.quantity i, OrderItem.notes i).

Definition inputContent (i : OrderItemInput) : string * Z * option string :=
  (in_menuItemId i, in_quantity i, in_notes i).

(** Ids of orders are below the id counter. *)
Definition ordersFresh (db : DB) : Prop :=
  Forall (fun o => (Order.id o < nextId db)%nat) (orders db).

(** The customer a cart call acts for. *)
Definition cartOpUser (op : CartOp) : string :=
  match op with
  | OpAddToCart user _ | OpUpdateCartItem user _ _
  | OpRemoveFromCart user _ | OpClearCart user => user
  end.

(** The rows of every cart but [cartId]. *)
Definition rowsOfOthers (cartId : nat) (db : DB) : list CartItem.t :=
  List.filter (fun ci => negb (Nat.eqb (CartItem.cartId ci) cartId)) (cartItems db).


(** The sample store after customer u1 put Pasta (restaurant R1) and Tea
    (restaurant R2) in the cart. *)
Definition mixedCartDb : DB :=
  runCart [OpAddToCart "u1" (mkAddToCartData "X" 1 None);
           OpAddToCart "u1" (mkAddToCartData "W" 1 None)] sampleDb.

(** ** Vocabulary for the queue and the sync path *)

(** The results and the orders a drain produces for a queue, item by item:
    a success result names the order created for its item, which belongs to
    the user and restaurant of the item and carries its lines; a failure
    result names no order and carries an error message. *)
Inductive processed : list QueuedOrder -> list QueueResult -> list Order.t -> Prop :=
| processed_nil : processed [] [] []
| processed_created (item : QueuedOrder) (q : list QueuedOrder) (r : QueueResult)
    (rs : list QueueResult) (o : Order.t) (created : list Order.t) :
    res_clientId r = clientId item ->
    success r = true ->
    res_orderId r = Some (Order.id o) ->
    res_orderNumber r = Some (Order.orderNumber o) ->
    Order.userId o = userId item ->
    Order.restaurantId o = restaurantId item ->
    Order.status o = OrderStatus.PENDING ->
    (items item <> [] -> map lineContent (Order.items o) = map inputContent (items item)) ->
    processed q rs created ->
    processed (item :: q) (r :: rs) (o :: created)
| processed_rejected (item : QueuedOrder) (q : list QueuedOrder) (r : QueueResult)
    (rs : list QueueResult) (created : list Order.t) :
    res_clientId r = clientId item ->
    success r = false ->
    res_orderId r = None ->
    error r <> None ->
    processed q rs created ->
    processed (item :: q) (r :: rs) created.

(** A user id without a colon, as the generated ids are. *)
Fixpoint colonFree (s : string) : bool :=
  match s with
  | EmptyString => true
  | String a rest => negb (Ascii.eqb a ":"%char) && colonFree rest
  end.

(** A result that names, when it reports success, an order of [pool], and
    that names no order and carries an error message when it reports
    failure. *)
Definition namesOrderIn (pool : list Order.t) (r : QueueResult) : Prop :=
  if success r
  then exists o,
         In o pool /\
         res_orderId r = Some (Order.id o) /\
         res_orderNumber r = Some (Order.orderNumber o)
  else res_orderId r = None /\ error r <> None.

(** The sample store after customers u1 and u2 each put something in their
    cart (carts 1 and 3). *)
Definition twoCartsDb : DB :=
  runCart [OpAddToCart "u1" (mkAddToCartData "X" 2 None);
           OpAddToCart "u2" (mkAddToCartData "Y" 1 None)] sampleDb.

(** *** Paging *)

(** An argument whose integer, if it carries one, lies in [PAGE_RANGE]. *)
Definition supportedArg (a : PageArg) : bool :=
  match a with
  | ArgNumber n | ArgNumeral n => inPageRange n
  | _ => true
  end.

(** The rows that a listing returns for page [k], asked for as a number. *)
Definition pageRows {A : Type} (rows : list A) (k : nat) (limitArg : PageArg)
  : option (list A) :=
  option_map fst (paginate rows (ArgNumber (Z.of_nat k)) limitArg).
(** * Theorems *)

Lemma order_status_eqb_spec a b : reflect (a = b) (OrderStatus.eqb a b).
Proof. destruct a, b; constructor; congruence. Qed.

Lemma delivery_status_eqb_spec a b : reflect (a = b) (DeliveryStatus.eqb a b).
Proof. destruct a, b; constructor; congruence. Qed.

(** ** Order status transitions *)

Lemma includes_transitions_edge (s s' : OrderStatus.t) :
  OrderStatus.includes (STATUS_TRANSITIONS s) s' = true <-> order_edge s s'.
Proof.
  split.
  - destruct s, s'; simpl; intros H; try discriminate H; constructor.
  - intros H; destruct H; reflexivity.
Qed.

Lemma sameExceptStatus_with_status (s : OrderStatus.t) (o : Order.t) :
  sameExceptStatus o (Order.with_status s o).
Proof. repeat split. Qed.

Lemma setOrderStatus_rows (orderId : nat) (s : OrderStatus.t) (l : list Order.t) :
  Forall2
    (fun o o' =>
       if Nat.eqb (Order.id o) orderId
       then Order.status o' = s /\ sameExceptStatus o o'
       else o' = o)
    l
    (map (fun o => if Nat.eqb (Order.id o) orderId then Order.with_status s o else o) l).
Proof.
  induction l as [|o l IH]; simpl; constructor; [|exact IH].
  destruct (Nat.eqb (Order.id o) orderId); [|reflexivity].
  split; [reflexivity | apply sameExceptStatus_with_status].
Qed.

(** C5. [updateOrderStatus]: a missing order is [NotFound]; a new status that
    is not a direct successor of the current one in the transition table
    (same state and skipped states included) is [BadRequest] with the message
    "Cannot transition from <current> to <new>"; otherwise the call returns
    the order with the new status, and in the store only the [status] column
    of the rows with that id has changed. *)
Theorem updateOrderStatus_spec (orderId : nat) (newStatus : OrderStatus.t) (db : DB) :
  (findOrder orderId db = None ->
   updateOrderStatus orderId newStatus db = Throw (NotFoundError "Order not found"))
  /\
  (forall order,
      findOrder orderId db = Some order ->
      ~ order_edge (Order.status order) newStatus ->
      updateOrderStatus orderId newStatus db =
      Throw (BadRequestError
               ("Cannot transition from " +:+ OrderStatus.name (Order.status order)
                +:+ " to " +:+ OrderStatus.name newStatus)))
  /\
  (forall order,
      findOrder orderId db = Some order ->
      order_edge (Order.status order) newStatus ->
      exists updated db',
        updateOrderStatus orderId newStatus db = Ok (updated, db') /\
        Order.status updated = newStatus /\
        sameExceptStatus order updated /\
        sameExceptOrders db db' /\
        Forall2
          (fun o o' =>
             if Nat.eqb (Order.id o) orderId
             then Order.status o' = newStatus /\ sameExceptStatus o o'
             else o' = o)
          (orders db) (orders db')).
Proof.
  unfold updateOrderStatus.
  split; [|split].
  - intros ->. reflexivity.
  - intros order -> Hno.
    destruct (OrderStatus.includes _ newStatus) eqn:E; [|reflexivity].
    apply includes_transitions_edge in E. contradiction.
  - intros order -> Hedge.
    apply includes_transitions_edge in Hedge. rewrite Hedge. simpl.
    eexists _, _. split; [reflexivity|].
    split; [reflexivity|].
    split; [apply sameExceptStatus_with_status|].
    split; [repeat split|].
    apply setOrderStatus_rows.
Qed.

(** ** Order creation from the cart *)

Lemma itemsOfCart_deleteCartItemsOf (cartId : nat) (db : DB) :
  itemsOfCart cartId (deleteCartItemsOf cartId db) = [].
Proof.
  unfold itemsOfCart, deleteCartItemsOf; simpl.
  induction (cartItems db) as [|ci l IH]; simpl; [reflexivity|].
  destruct (Nat.eqb (CartItem.cartId ci) cartId) eqn:E; simpl; [exact IH|].
  rewrite E. exact IH.
Qed.

Lemma orderItemsOfCart_lines (restaurantId : string)
    (rows : list (CartItem.t * MenuItem.t)) (orderItems : list OrderItem.t) :
  orderItemsOfCart restaurantId rows = Ok orderItems ->
  map (fun i => (OrderItem.menuItemId i, OrderItem.quantity i)) orderItems =
  map (fun row => (CartItem.menuItemId (fst row), CartItem.quantity (fst row))) rows.
Proof.
  revert orderItems.
  induction rows as [|[ci m] rows IH]; simpl; intros orderItems H.
  - injection H as <-. reflexivity.
  - destruct (negb (String.eqb (MenuItem.restaurantId m) restaurantId)); [discriminate|].
    destruct (negb (MenuItem.isAvailable m)); [discriminate|].
    destruct (orderItemsOfCart restaurantId rows) as [l|e]; [|discriminate].
    injection H as <-. simpl. f_equal. apply IH. reflexivity.
Qed.

Lemma itemsOfCart_deleteCartItemsOf_other (cartId other : nat) (db : DB) :
  other <> cartId ->
  itemsOfCart other (deleteCartItemsOf cartId db) = itemsOfCart other db.
Proof.
  intros Hne. unfold itemsOfCart, deleteCartItemsOf. simpl.
  induction (cartItems db) as [|ci l IH]; simpl; [reflexivity|].
  destruct (Nat.eqb (CartItem.cartId ci) cartId) eqn:E1; simpl.
  - destruct (Nat.eqb (CartItem.cartId ci) other) eqn:E2; [|exact IH].
    apply Nat.eqb_eq in E1, E2. congruence.
  - destruct (Nat.eqb (CartItem.cartId ci) other); [f_equal|]; exact IH.
Qed.

Lemma orderItemsOfCart_accepts (restaurantId : string)
    (rows : list (CartItem.t * MenuItem.t)) :
  isOk (orderItemsOfCart restaurantId rows) = true <->
  Forall (fun row => MenuItem.restaurantId (snd row) = restaurantId /\
                     MenuItem.isAvailable (snd row) = true) rows.
Proof.
  induction rows as [|[ci m] rows IH]; simpl.
  - split; [constructor|reflexivity].
  - destruct (String.eqb (MenuItem.restaurantId m) restaurantId) eqn:Er; simpl.
    + apply String.eqb_eq in Er.
      destruct (MenuItem.isAvailable m) eqn:Ea; simpl.
      * destruct (orderItemsOfCart restaurantId rows) as [l|e]; simpl in *.
        -- split; [intros _; constructor; [auto|apply IH; reflexivity]|reflexivity].
        -- split; [discriminate|]. intros H. inversion H; subst. apply IH. assumption.
      * split; [discriminate|]. intros H. inversion H as [|x l' Hx Hl]; subst.
        destruct Hx as [_ Hav]. simpl in Hav. congruence.
    + apply String.eqb_neq in Er. split; [discriminate|].
      intros H. inversion H as [|x l' Hx Hl]; subst.
      destruct Hx as [Hr _]. simpl in Hr. contradiction.
Qed.

Lemma orderItemsOfCart_prices (restaurantId : string)
    (rows : list (CartItem.t * MenuItem.t)) (orderItems : list OrderItem.t) :
  orderItemsOfCart restaurantId rows = Ok orderItems ->
  map (fun i => (OrderItem.menuItemId i, OrderItem.quantity i, OrderItem.unitPrice i))
      orderItems =
  map (fun row => (CartItem.menuItemId (fst row), CartItem.quantity (fst row),
                   MenuItem.price (snd row))) rows.
Proof.
  revert orderItems.
  induction rows as [|[ci m] rows IH]; simpl; intros orderItems H.
  - injection H as <-. reflexivity.
  - destruct (negb (String.eqb (MenuItem.restaurantId m) restaurantId)); [discriminate|].
    destruct (negb (MenuItem.isAvailable m)); [discriminate|].
    destruct (orderItemsOfCart restaurantId rows) as [l|e]; [|discriminate].
    injection H as <-. simpl. f_equal. apply IH. reflexivity.
Qed.

(** C10. [createOrder] with [items] present but empty is the omitted-items
    case: the two calls are equal. The call succeeds exactly when the
    restaurant exists and the customer has a cart with at least one row
    whose rows all name available items of that restaurant; with the
    restaurant known and the cart missing or empty it throws BadRequest
    "Cart is empty". A successful call appends one order whose lines are the
    rows of the customer's cart (menu item, quantity, and the menu price as
    unit price), leaves that cart without rows and every other cart as it
    was. *)
Theorem createOrder_empty_items_uses_cart (user restaurantId address : string)
    (notes : option string) (db : DB) :
  let dataEmpty := mkCreateOrderData restaurantId address notes (Some []) in
  let dataOmitted := mkCreateOrderData restaurantId address notes None in
  createOrder user dataEmpty db = createOrder user dataOmitted db
  /\
  (findRestaurant restaurantId db <> None ->
   (forall cart, findCart user db = Some cart -> itemsOfCart (Cart.id cart) db = []) ->
   createOrder user dataEmpty db = Throw (BadRequestError "Cart is empty"))
  /\
  (forall order db',
      createOrder user dataEmpty db = Ok (order, db') ->
      exists cart,
        findCart user db = Some cart /\
        map (fun i => (OrderItem.menuItemId i, OrderItem.quantity i)) (Order.items order) =
        map (fun row => (CartItem.menuItemId (fst row), CartItem.quantity (fst row)))
            (cartRowsWithMenu (Cart.id cart) db) /\
        findCart user db' = Some cart /\
        itemsOfCart (Cart.id cart) db' = [] /\
        map (fun i => (OrderItem.menuItemId i, OrderItem.quantity i, OrderItem.unitPrice i))
            (Order.items order) =
        map (fun row => (CartItem.menuItemId (fst row), CartItem.quantity (fst row),
                         MenuItem.price (snd row)))
            (cartRowsWithMenu (Cart.id cart) db) /\
        orders db' = orders db ++ [order] /\
        (forall other,
            other <> Cart.id cart -> itemsOfCart other db' = itemsOfCart other db))
  /\
  (isOk (createOrder user dataEmpty db) = true <->
   findRestaurant restaurantId db <> None /\
   exists cart,
     findCart user db = Some cart /\
     itemsOfCart (Cart.id cart) db <> [] /\
     Forall (fun row => MenuItem.restaurantId (snd row) = restaurantId /\
                        MenuItem.isAvailable (snd row) = true)
            (cartRowsWithMenu (Cart.id cart) db)).
Proof.
  intros dataEmpty dataOmitted.
  split; [reflexivity|]. split; [|split].
  - intros Hrest Hcart. unfold createOrder, collectOrderItems; simpl.
    destruct (findRestaurant restaurantId db); [|contradiction].
    destruct (findCart user db) as [cart|] eqn:Ec; [|reflexivity].
    rewrite (Hcart cart eq_refl). reflexivity.
  - intros order db'. unfold createOrder, collectOrderItems; simpl.
    destruct (findRestaurant restaurantId db); [|discriminate].
    destruct (findCart user db) as [cart|] eqn:Ec; [|discriminate].
    destruct (itemsOfCart (Cart.id cart) db) eqn:Ei; [discriminate|].
    destruct (orderItemsOfCart restaurantId _) as [orderItems|e] eqn:Eo; [|discriminate].
    intros H. injection H as <- <-.
    exists cart. split; [reflexivity|]. split.
    + simpl. apply orderItemsOfCart_lines with (restaurantId := restaurantId). exact Eo.
    + unfold clearCart. unfold findCart in *. simpl. rewrite Ec.
      split; [exact Ec|]. split; [apply itemsOfCart_deleteCartItemsOf|].
      split.
      { simpl. apply orderItemsOfCart_prices with (restaurantId := restaurantId).
        exact Eo. }
      split; [reflexivity|].
      intros other Hne.
      rewrite itemsOfCart_deleteCartItemsOf_other by exact Hne. reflexivity.
  - unfold createOrder, collectOrderItems. cbn [dataEmpty data_items data_restaurantId].
    destruct (findRestaurant restaurantId db) as [r|].
    + destruct (findCart user db) as [cart|] eqn:Ec.
      * pose proof (orderItemsOfCart_accepts restaurantId
                      (cartRowsWithMenu (Cart.id cart) db)) as Hacc.
        destruct (itemsOfCart (Cart.id cart) db) as [|ci0 l0] eqn:Ei.
        -- split; [discriminate|]. intros (_ & c & Hc & Hne & _).
           injection Hc as <-. rewrite Ei in Hne. contradiction.
        -- destruct (orderItemsOfCart restaurantId (cartRowsWithMenu (Cart.id cart) db))
             as [ois|e].
           ++ split; [|reflexivity]. intros _. split; [discriminate|].
              exists cart. split; [reflexivity|]. split; [rewrite Ei; discriminate|].
              apply Hacc. reflexivity.
           ++ split; [discriminate|]. intros (_ & c & Hc & _ & Hall).
              injection Hc as <-. apply Hacc in Hall. discriminate Hall.
      * split; [discriminate|]. intros (_ & c & Hc & _). discriminate Hc.
    + split; [discriminate|]. intros [H _]. contradiction.
Qed.

(** ** Monetary totals *)

Lemma sumTotalPrice_map (l : list OrderItem.t) (acc : float) :
  fold_left (fun sum item => PrimFloat.add sum (OrderItem.totalPrice item)) l acc =
  fold_left PrimFloat.add (map OrderItem.totalPrice l) acc.
Proof. revert acc. induction l as [|i l IH]; simpl; intros acc; [reflexivity|apply IH]. Qed.

Lemma orderItemsOfInput_lines (restaurantId : string) (db : DB)
    (input : list OrderItemInput) (orderItems : list OrderItem.t) :
  orderItemsOfInput restaurantId db input = Ok orderItems ->
  Forall (lineOf db) orderItems.
Proof.
  revert orderItems.
  induction input as [|item rest IH]; simpl; intros orderItems H.
  - injection H as <-. constructor.
  - destruct (findMenuItem (in_menuItemId item) db) as [m|] eqn:Em; [|discriminate].
    destruct (negb (MenuItem.isAvailable m)); [discriminate|].
    destruct (negb (String.eqb (MenuItem.restaurantId m) restaurantId)); [discriminate|].
    destruct (orderItemsOfInput restaurantId db rest) as [l|e]; [|discriminate].
    injection H as <-. constructor; [|apply IH; reflexivity].
    exists m. simpl. auto.
Qed.

Lemma cartRowsWithMenu_joined (db : DB) (l : list CartItem.t) :
  Forall (fun row => findMenuItem (CartItem.menuItemId (fst row)) db = Some (snd row))
    (flat_map (fun ci =>
                 match findMenuItem (CartItem.menuItemId ci) db with
                 | Some m => [(ci, m)]
                 | None => []
                 end) l).
Proof.
  induction l as [|ci l IH]; simpl; [constructor|].
  destruct (findMenuItem (CartItem.menuItemId ci) db) eqn:E; simpl; [|exact IH].
  constructor; [exact E | exact IH].
Qed.

Lemma orderItemsOfCart_priced (restaurantId : string) (db : DB)
    (rows : list (CartItem.t * MenuItem.t)) (orderItems : list OrderItem.t) :
  Forall (fun row => findMenuItem (CartItem.menuItemId (fst row)) db = Some (snd row)) rows ->
  orderItemsOfCart restaurantId rows = Ok orderItems ->
  Forall (lineOf db) orderItems.
Proof.
  intros Hrows. revert orderItems.
  induction Hrows as [|[ci m] rows Hrow _ IH]; simpl; intros orderItems H.
  - injection H as <-. constructor.
  - destruct (negb (String.eqb (MenuItem.restaurantId m) restaurantId)); [discriminate|].
    destruct (negb (MenuItem.isAvailable m)); [discriminate|].
    destruct (orderItemsOfCart restaurantId rows) as [l|e]; [|discriminate].
    injection H as <-. constructor; [|apply IH; reflexivity].
    exists m. simpl in *. auto.
Qed.

Lemma collectOrderItems_lines (user : string) (data : CreateOrderData) (db : DB)
    (orderItems : list OrderItem.t) :
  collectOrderItems user data db = Ok orderItems -> Forall (lineOf db) orderItems.
Proof.
  unfold collectOrderItems.
  assert (Hcart :
    match findCart user db with
    | Some cart =>
        match itemsOfCart (Cart.id cart) db with
        | [] => Throw (BadRequestError "Cart is empty")
        | _ :: _ =>
            orderItemsOfCart (data_restaurantId data) (cartRowsWithMenu (Cart.id cart) db)
        end
    | None => Throw (BadRequestError "Cart is empty")
    end = Ok orderItems -> Forall (lineOf db) orderItems).
  { destruct (findCart user db) as [cart|]; [|discriminate].
    destruct (itemsOfCart (Cart.id cart) db); [discriminate|].
    apply orderItemsOfCart_priced. apply cartRowsWithMenu_joined. }
  destruct (data_items data) as [[|item rest]|]; try exact Hcart.
  apply orderItemsOfInput_lines.
Qed.

(** C4. Every order [createOrder] creates, from the cart or from explicit
    items, has [subtotal] the (left-to-right, binary64) sum of its lines'
    [totalPrice], each line's [totalPrice] the snapshotted menu price times
    the quantity (the binary64 product of the price and the integer as a
    double, whatever its size), [tax] the subtotal times 0.1, [deliveryFee]
    5.00 and [totalAmount = subtotal + tax + deliveryFee]; two units of an
    item priced 8.99 give 17.98, 1.798, 5.00 and 24.778; and line totals are
    products of doubles: three units at 0.1 cost 0.30000000000000004, three
    at 8.99 cost 26.97, 2^63 units at 0.5 cost 2^62, and minus two units
    at 2.5 cost minus 5. *)
Theorem createOrder_totals :
  (forall user data db order db',
      createOrder user data db = Ok (order, db') ->
      Order.subtotal order =
        fold_left PrimFloat.add (map OrderItem.totalPrice (Order.items order)) 0%float /\
      Forall (lineOf db) (Order.items order) /\
      Order.tax order = PrimFloat.mul (Order.subtotal order) 0.1%float /\
      Order.deliveryFee order = 5%float /\
      Order.totalAmount order =
        PrimFloat.add (PrimFloat.add (Order.subtotal order) (Order.tax order))
                      (Order.deliveryFee order) /\
      In order (orders db'))
  /\
  (forall user restaurantId address notes lineNotes db m,
      findRestaurant restaurantId db = Some restaurantId ->
      findMenuItem "X" db = Some m ->
      MenuItem.price m = 8.99%float ->
      MenuItem.isAvailable m = true ->
      MenuItem.restaurantId m = restaurantId ->
      exists order db',
        createOrder user
          (mkCreateOrderData restaurantId address notes
             (Some [mkOrderItemInput "X" 2 lineNotes])) db = Ok (order, db') /\
        Order.subtotal order = 17.98%float /\
        Order.tax order = 1.798%float /\
        Order.deliveryFee order = 5.00%float /\
        Order.totalAmount order = 24.778%float)
  /\
  (lineTotal 0.1%float 3 = 0.30000000000000004%float /\
   lineTotal 8.99%float 3 = 26.97%float /\
   lineTotal 0.5%float (2 ^ 63) = 4611686018427387904%float /\
   lineTotal 2.5%float (-2) = (-5)%float).
Proof.
  split; [|split; [|repeat split; vm_compute; reflexivity]].
  - intros user data db order db'. unfold createOrder.
    destruct (findRestaurant (data_restaurantId data) db); [|discriminate].
    destruct (collectOrderItems user data db) as [orderItems|e] eqn:Ec; [|discriminate].
    intros H. injection H as <- <-. simpl.
    split; [apply sumTotalPrice_map|].
    split; [eapply collectOrderItems_lines; exact Ec|].
    repeat (split; [reflexivity|]).
    assert (Hin : In (Order.mk (nextId db) (nextId db) user (data_restaurantId data)
                        (data_deliveryAddress data) (data_notes data)
                        (sumTotalPrice orderItems)
                        (PrimFloat.mul (sumTotalPrice orderItems) TAX_RATE) DELIVERY_FEE
                        (PrimFloat.add
                           (PrimFloat.add (sumTotalPrice orderItems)
                              (PrimFloat.mul (sumTotalPrice orderItems) TAX_RATE))
                           DELIVERY_FEE)
                        OrderStatus.PENDING orderItems)
                     (orders db ++ [Order.mk (nextId db) (nextId db) user
                        (data_restaurantId data)
                        (data_deliveryAddress data) (data_notes data)
                        (sumTotalPrice orderItems)
                        (PrimFloat.mul (sumTotalPrice orderItems) TAX_RATE) DELIVERY_FEE
                        (PrimFloat.add
                           (PrimFloat.add (sumTotalPrice orderItems)
                              (PrimFloat.mul (sumTotalPrice orderItems) TAX_RATE))
                           DELIVERY_FEE)
                        OrderStatus.PENDING orderItems])).
    { apply in_or_app. right. left. reflexivity. }
    destruct (hasItems data); [exact Hin|].
    unfold clearCart. destruct (findCart user _); exact Hin.
  - intros user restaurantId address notes lineNotes db m Hr Hm Hp Ha Hrid.
    unfold createOrder, collectOrderItems; simpl.
    rewrite Hr, Hm, Ha, Hrid, String.eqb_refl. simpl.
    eexists _, _. split; [reflexivity|]. simpl.
    unfold sumTotalPrice, lineTotal; simpl. rewrite Hp.
    repeat split; vm_compute; reflexivity.
Qed.

(** ** Driver assignment *)

Lemma findOrder_setOrderStatus (orderId orderId' : nat) (s : OrderStatus.t) (db : DB) :
  findOrder orderId' (setOrderStatus orderId s db) =
  if Nat.eqb orderId' orderId
  then option_map (Order.with_status s) (findOrder orderId' db)
  else findOrder orderId' db.
Proof.
  unfold findOrder, setOrderStatus; simpl.
  induction (orders db) as [|o l IH]; simpl.
  - destruct (Nat.eqb orderId' orderId); reflexivity.
  - destruct (Nat.eqb (Order.id o) orderId) eqn:E1; simpl.
    + destruct (Nat.eqb (Order.id o) orderId') eqn:E2.
      * apply Nat.eqb_eq in E1, E2. subst.
        rewrite Nat.eqb_refl. reflexivity.
      * exact IH.
    + destruct (Nat.eqb (Order.id o) orderId') eqn:E2; [|exact IH].
      apply Nat.eqb_eq in E2. subst. rewrite E1. reflexivity.
Qed.

Lemma findDriver_updateDriverRow (driverId driverId' : string)
    (f : Driver.t -> Driver.t) (db : DB) :
  (forall d, Driver.id (f d) = Driver.id d) ->
  findDriver driverId' (updateDriverRow driverId f db) =
  if String.eqb driverId' driverId
  then option_map f (findDriver driverId' db)
  else findDriver driverId' db.
Proof.
  intros Hid. unfold findDriver, updateDriverRow; simpl.
  induction (drivers db) as [|d l IH]; simpl.
  - destruct (String.eqb driverId' driverId); reflexivity.
  - destruct (String.eqb (Driver.id d) driverId) eqn:E1; simpl.
    + rewrite Hid. destruct (String.eqb (Driver.id d) driverId') eqn:E2.
      * apply String.eqb_eq in E1, E2. subst.
        rewrite String.eqb_refl. reflexivity.
      * exact IH.
    + destruct (String.eqb (Driver.id d) driverId') eqn:E2; [|exact IH].
      apply String.eqb_eq in E2. subst. rewrite E1. reflexivity.
Qed.

Lemma assignable_dec (s : OrderStatus.t) :
  negb (OrderStatus.eqb s OrderStatus.PREPARING)
  && negb (OrderStatus.eqb s OrderStatus.CONFIRMED) = false <-> assignable s.
Proof.
  unfold assignable. destruct s; simpl; split; intros H;
    try discriminate; try reflexivity; auto;
    destruct H as [H|H]; discriminate H.
Qed.

(** C7. [assignDriver] succeeds exactly when the order exists in stage
    CONFIRMED or PREPARING, has no delivery, and the driver exists and is
    available. On success it appends a delivery in state ASSIGNED for that
    order and driver, moves a PREPARING order to ON_THE_WAY and leaves a
    CONFIRMED one as it is (no other column of the order changes), sets
    [isAvailable] of the driver to false (the driver row is otherwise as it
    was), and touches no other order or driver. It throws NotFound for a missing order;
    BadRequest for an order in another stage or one that has a delivery;
    NotFound for a missing driver; BadRequest for an unavailable driver. *)
Theorem assignDriver_spec (orderId : nat) (driverId : string)
    (estimatedTime : option Z) (db : DB) :
  (* success, and what it does *)
  ((exists order driver,
       findOrder orderId db = Some order /\ assignable (Order.status order) /\
       deliveryOfOrder orderId db = None /\
       findDriver driverId db = Some driver /\ Driver.isAvailable driver = true)
   <-> isOk (assignDriver orderId driverId estimatedTime db) = true)
  /\
  (forall delivery db',
      assignDriver orderId driverId estimatedTime db = Ok (delivery, db') ->
      exists order driver,
        findOrder orderId db = Some order /\
        findDriver driverId db = Some driver /\
        deliveries db' = deliveries db ++ [delivery] /\
        Delivery.status delivery = DeliveryStatus.ASSIGNED /\
        Delivery.orderId delivery = orderId /\
        Delivery.driverId delivery = driverId /\
        Delivery.estimatedTime delivery = estimatedTime /\
        findOrder orderId db' =
          Some (if OrderStatus.eqb (Order.status order) OrderStatus.PREPARING
                then Order.with_status OrderStatus.ON_THE_WAY order
                else order) /\
        (exists order',
            findOrder orderId db' = Some order' /\
            Order.status order' =
              (if OrderStatus.eqb (Order.status order) OrderStatus.PREPARING
               then OrderStatus.ON_THE_WAY else Order.status order) /\
            sameExceptStatus order order') /\
        (forall other, other <> orderId -> findOrder other db' = findOrder other db) /\
        findDriver driverId db' =
          Some (Driver.mk (Driver.id driver) (Driver.userId driver) false
                  (Driver.totalDeliveries driver)) /\
        (exists driver',
            findDriver driverId db' = Some driver' /\
            Driver.isAvailable driver' = false) /\
        (forall other, other <> driverId -> findDriver other db' = findDriver other db) /\
        Delivery.id delivery = nextId db /\
        Delivery.pickupTime delivery = None /\ Delivery.deliveryTime delivery = None /\
        carts db' = carts db /\ cartItems db' = cartItems db /\
        menuItems db' = menuItems db /\ restaurants db' = restaurants db)
  /\
  (* failures *)
  (findOrder orderId db = None ->
   exists m, assignDriver orderId driverId estimatedTime db = Throw (NotFoundError m))
  /\
  (forall order,
      findOrder orderId db = Some order ->
      (~ assignable (Order.status order) ->
       exists m, assignDriver orderId driverId estimatedTime db = Throw (BadRequestError m))
      /\
      (assignable (Order.status order) ->
       (deliveryOfOrder orderId db <> None ->
        assignDriver orderId driverId estimatedTime db =
        Throw (BadRequestError "Order already has a delivery assigned"))
       /\
       (deliveryOfOrder orderId db = None ->
        (findDriver driverId db = None ->
         exists m, assignDriver orderId driverId estimatedTime db = Throw (NotFoundError m))
        /\
        (forall driver,
            findDriver driverId db = Some driver ->
            Driver.isAvailable driver = false ->
            exists m,
              assignDriver orderId driverId estimatedTime db = Throw (BadRequestError m))))).
Proof.
  split; [split|split; [|split]].
  - intros (order & driver & Ho & Ha & Hd & Hdr & Hav).
    unfold assignDriver. apply assignable_dec in Ha.
    rewrite Ho, Ha, Hd, Hdr, Hav. reflexivity.
  - unfold assignDriver.
    destruct (findOrder orderId db) as [order|]; [|discriminate].
    destruct (negb _ && negb _) eqn:Es; [discriminate|].
    destruct (deliveryOfOrder orderId db); [discriminate|].
    destruct (findDriver driverId db) as [driver|]; [|discriminate].
    destruct (Driver.isAvailable driver) eqn:Eav; [|discriminate].
    intros _. exists order, driver. apply assignable_dec in Es. auto.
  - intros delivery db'. unfold assignDriver.
    destruct (findOrder orderId db) as [order|] eqn:Eo; [|discriminate].
    destruct (negb _ && negb _) eqn:Es; [discriminate|].
    destruct (deliveryOfOrder orderId db); [discriminate|].
    destruct (findDriver driverId db) as [driver|] eqn:Edr; [|discriminate].
    destruct (Driver.isAvailable driver) eqn:Eav; [|discriminate].
    simpl. intros H. injection H as <- <-.
    exists order, driver.
    set (db1 := bump (set_deliveries
                        (deliveries db ++
                         [Delivery.mk (nextId db) orderId driverId estimatedTime
                            DeliveryStatus.ASSIGNED None None]) db)).
    assert (HfO : forall other,
      findOrder other
        (updateDriverRow driverId (setAvailable false)
          (if OrderStatus.eqb (Order.status order) OrderStatus.PREPARING
           then setOrderStatus orderId OrderStatus.ON_THE_WAY db1 else db1)) =
      if OrderStatus.eqb (Order.status order) OrderStatus.PREPARING
      then (if Nat.eqb other orderId
            then option_map (Order.with_status OrderStatus.ON_THE_WAY) (findOrder other db)
            else findOrder other db)
      else findOrder other db).
    { intros other. destruct (OrderStatus.eqb (Order.status order) OrderStatus.PREPARING).
      - transitivity (findOrder other (setOrderStatus orderId OrderStatus.ON_THE_WAY db));
          [reflexivity|apply findOrder_setOrderStatus].
      - reflexivity. }
    assert (HfD : forall other,
      findDriver other
        (updateDriverRow driverId (setAvailable false)
          (if OrderStatus.eqb (Order.status order) OrderStatus.PREPARING
           then setOrderStatus orderId OrderStatus.ON_THE_WAY db1 else db1)) =
      if String.eqb other driverId
      then option_map (setAvailable false) (findDriver other db)
      else findDriver other db).
    { intros other.
      destruct (OrderStatus.eqb (Order.status order) OrderStatus.PREPARING);
        (transitivity (findDriver other (updateDriverRow driverId (setAvailable false) db));
         [reflexivity|apply findDriver_updateDriverRow; reflexivity]). }
    split; [reflexivity|]. split; [reflexivity|].
    split; [destruct (OrderStatus.eqb (Order.status order) OrderStatus.PREPARING);
            reflexivity|].
    do 4 (split; [reflexivity|]).
    split.
    { rewrite HfO, Nat.eqb_refl, Eo.
      destruct (OrderStatus.eqb (Order.status order) OrderStatus.PREPARING); reflexivity. }
    split.
    { rewrite HfO, Nat.eqb_refl, Eo.
      destruct (OrderStatus.eqb (Order.status order) OrderStatus.PREPARING); simpl;
        eexists; (split; [reflexivity|]); (split; [reflexivity|]); repeat split. }
    split.
    { intros other Hne. rewrite HfO.
      apply Nat.eqb_neq in Hne. rewrite Hne.
      destruct (OrderStatus.eqb (Order.status order) OrderStatus.PREPARING); reflexivity. }
    split.
    { rewrite HfD, String.eqb_refl, Edr. reflexivity. }
    split.
    { rewrite HfD, String.eqb_refl, Edr. simpl. eexists. split; reflexivity. }
    split.
    { intros other Hne. rewrite HfD.
      apply String.eqb_neq in Hne. rewrite Hne. reflexivity. }
    do 3 (split; [reflexivity|]).
    destruct (OrderStatus.eqb (Order.status order) OrderStatus.PREPARING);
      repeat split; reflexivity.
  - unfold assignDriver. intros ->. eauto.
  - unfold assignDriver. intros order ->. split.
    + intros Hn. destruct (negb _ && negb _) eqn:Es; [eauto|].
      apply assignable_dec in Es. contradiction.
    + intros Ha. apply assignable_dec in Ha. rewrite Ha. split.
      * destruct (deliveryOfOrder orderId db); [reflexivity|contradiction].
      * intros ->. split.
        -- intros ->. eauto.
        -- intros driver -> ->. simpl. eauto.
Qed.

(** ** The order table against the delivery path *)

(** C1. The delivery path writes DELIVERED on the parent order whatever its
    status. On the sample store an order that got its driver while CONFIRMED
    goes from CONFIRMED to DELIVERED when the delivery completes, which is no
    edge of the table and never passes ON_THE_WAY; and an order cancelled
    after the assignment goes from CANCELLED to DELIVERED. *)
Theorem delivery_completion_bypasses_transitions :
  statusHistory 1 confirmedThenDelivered sampleDb =
    [Some OrderStatus.PENDING; Some OrderStatus.CONFIRMED; Some OrderStatus.CONFIRMED;
     Some OrderStatus.CONFIRMED; Some OrderStatus.CONFIRMED; Some OrderStatus.DELIVERED]
  /\ ~ order_edge OrderStatus.CONFIRMED OrderStatus.DELIVERED
  /\ statusHistory 1 cancelledThenDelivered sampleDb =
    [Some OrderStatus.PENDING; Some OrderStatus.CONFIRMED; Some OrderStatus.CONFIRMED;
     Some OrderStatus.CANCELLED; Some OrderStatus.CANCELLED; Some OrderStatus.CANCELLED;
     Some OrderStatus.DELIVERED]
  /\ (forall s, ~ order_edge OrderStatus.CANCELLED s).
Proof.
  split; [vm_compute; reflexivity|].
  split; [intros H; inversion H|].
  split; [vm_compute; reflexivity|].
  intros s H; inversion H.
Qed.

(** C2. On the sample store, driver D1 holds an active delivery, reports
    itself available (which [updateDriverAvailability] accepts: only going
    offline is checked), and a second [assignDriver] naming D1 succeeds,
    leaving D1 with two deliveries in state ASSIGNED. *)
Theorem busy_driver_is_assigned_twice :
  let db := run busyDriverGoesOnline sampleDb in
  option_map Delivery.status (getActiveDelivery "D1" db) = Some DeliveryStatus.ASSIGNED
  /\ isOk (assignDriver 2 "D1" None db) = true
  /\ map Delivery.status (activeDeliveries "D1" (step db (OpAssignDriver 2 "D1" None))) =
     [DeliveryStatus.ASSIGNED; DeliveryStatus.ASSIGNED].
Proof. vm_compute. repeat split. Qed.

(** ** Cart rows *)

Section CartRows.

Variable p : CartItem.t -> bool.

Lemma cartKeys_filter (l : list CartItem.t) :
  List.NoDup (map cartKey l) -> List.NoDup (map cartKey (List.filter p l)).
Proof.
  induction l as [|ci l IH]; simpl; intros H; [constructor|].
  inversion H as [|k ks Hnotin Hnodup]; subst.
  destruct (p ci); simpl; [|auto].
  constructor; [|auto].
  intros Hin. apply Hnotin.
  apply in_map_iff in Hin. destruct Hin as (x & Hx & Hin).
  apply in_map_iff. exists x. split; [exact Hx|].
  apply filter_In in Hin. tauto.
Qed.

Lemma quantities_filter (l : list CartItem.t) :
  Forall (fun ci => 1 <= CartItem.quantity ci) l ->
  Forall (fun ci => 1 <= CartItem.quantity ci) (List.filter p l).
Proof.
  induction 1 as [|ci l Hci _ IH]; simpl; [constructor|].
  destruct (p ci); [constructor; assumption|assumption].
Qed.

End CartRows.

Lemma cartInvariant_filter (p : CartItem.t -> bool) (db : DB) :
  cartInvariant db -> cartInvariant (set_cartItems (List.filter p (cartItems db)) db).
Proof.
  intros [Hk Hq]. split; simpl; [apply cartKeys_filter|apply quantities_filter]; assumption.
Qed.

Lemma cartKeys_updateCartItemRow (itemId : nat) (q : option Z) (n : option string)
    (db : DB) :
  map cartKey (cartItems (updateCartItemRow itemId q n db)) = map cartKey (cartItems db).
Proof.
  unfold updateCartItemRow; simpl. rewrite map_map.
  apply map_ext. intros ci. destruct (Nat.eqb (CartItem.id ci) itemId); reflexivity.
Qed.

Lemma quantities_updateCartItemRow (itemId : nat) (q : option Z) (n : option string)
    (db : DB) :
  (forall v, q = Some v -> 1 <= v) ->
  Forall (fun ci => 1 <= CartItem.quantity ci) (cartItems db) ->
  Forall (fun ci => 1 <= CartItem.quantity ci)
         (cartItems (updateCartItemRow itemId q n db)).
Proof.
  intros Hq H. unfold updateCartItemRow; simpl.
  induction H as [|ci l Hci _ IH]; simpl; constructor; [|exact IH].
  destruct (Nat.eqb (CartItem.id ci) itemId); [|exact Hci].
  simpl. destruct q as [v|]; [apply Hq; reflexivity|exact Hci].
Qed.

Lemma findCartItemByMenu_None (cartId : nat) (menuItemId : string) (db : DB) :
  findCartItemByMenu cartId menuItemId db = None ->
  ~ In (cartId, menuItemId) (map cartKey (cartItems db)).
Proof.
  unfold findCartItemByMenu. intros Hnone Hin.
  apply in_map_iff in Hin. destruct Hin as (ci & Hkey & Hin).
  apply (find_none _ _ Hnone) in Hin.
  unfold cartKey in Hkey. injection Hkey as Hc Hm.
  rewrite Hc, Hm, Nat.eqb_refl, String.eqb_refl in Hin. discriminate Hin.
Qed.

Lemma cartItems_getOrCreateCart (user : string) (db : DB) :
  cartItems (snd (getOrCreateCart user db)) = cartItems db.
Proof. unfold getOrCreateCart. destruct (findCart user db); reflexivity. Qed.

Lemma cartItems_getCart (user : string) (db : DB) :
  cartItems (snd (getCart user db)) = cartItems db.
Proof.
  unfold getCart. pose proof (cartItems_getOrCreateCart user db) as H.
  destruct (getOrCreateCart user db) as [cart db1]. exact H.
Qed.

Lemma cartInvariant_ext (db db' : DB) :
  cartItems db' = cartItems db -> cartInvariant db -> cartInvariant db'.
Proof. unfold cartInvariant. intros ->. auto. Qed.

(** [getCart], which ends every cart method, only reads the rows: it is
    enough to establish the invariant on the store handed to it. *)
Ltac through_getCart :=
  match goal with
  | |- cartInvariant (after (Ok (getCart ?user ?d)) _) =>
      let H := fresh "Hstore" in
      let Hg := fresh "Hg" in
      assert (H : cartInvariant d);
      [|pose proof (cartItems_getCart user d) as Hg;
        destruct (getCart user d) as [? ?]; simpl in *;
        apply (cartInvariant_ext d); assumption]
  end.

Lemma cartInvariant_addToCart (user : string) (data : AddToCartData) (db : DB) :
  1 <= add_quantity data ->
  cartInvariant db -> cartInvariant (after (addToCart user data db) db).
Proof.
  intros Hq Hinv. unfold addToCart.
  destruct (findMenuItem (add_menuItemId data) db) as [m|]; [|exact Hinv].
  destruct (negb (MenuItem.isAvailable m)); [exact Hinv|].
  pose proof (cartItems_getOrCreateCart user db) as Hsame.
  destruct (getOrCreateCart user db) as [cart db1]. simpl in Hsame.
  assert (Hinv1 : cartInvariant db1) by (apply (cartInvariant_ext db); assumption).
  clear Hinv Hsame.
  through_getCart.
  destruct Hinv1 as [Hk Hqs].
  destruct (findCartItemByMenu (Cart.id cart) (add_menuItemId data) db1)
    as [existing|] eqn:Ef.
  - split.
    + rewrite cartKeys_updateCartItemRow. exact Hk.
    + apply quantities_updateCartItemRow; [|exact Hqs].
      intros v Hv. injection Hv as <-.
      unfold findCartItemByMenu in Ef. apply find_some in Ef. destruct Ef as [Hin _].
      rewrite List.Forall_forall in Hqs. specialize (Hqs _ Hin). lia.
  - split; simpl.
    + rewrite map_app. simpl. apply List.NoDup_app; [exact Hk| |].
      * constructor; [intros []|constructor].
      * intros k Hin [Heq|[]]. subst k.
        apply (findCartItemByMenu_None _ _ _ Ef). exact Hin.
    + apply List.Forall_app. split; [exact Hqs|]. constructor; [exact Hq|constructor].
Qed.

Lemma cartInvariant_updateCartItem (user : string) (itemId : nat)
    (data : UpdateCartItemData) (db : DB) :
  cartInvariant db -> cartInvariant (after (updateCartItem user itemId data db) db).
Proof.
  intros Hinv. unfold updateCartItem.
  destruct (findCart user db) as [cart|]; [|exact Hinv].
  destruct (findCartItemIn itemId (Cart.id cart) db); [|exact Hinv].
  through_getCart.
  destruct (upd_quantity data) as [q|] eqn:Eq.
  - destruct (q <=? 0) eqn:Ele.
    + apply cartInvariant_filter. exact Hinv.
    + destruct Hinv as [Hk Hqs]. split.
      * rewrite cartKeys_updateCartItemRow. exact Hk.
      * apply quantities_updateCartItemRow; [|exact Hqs].
        intros v Hv. injection Hv as <-. apply Z.leb_gt in Ele. lia.
  - destruct Hinv as [Hk Hqs]. split.
    + rewrite cartKeys_updateCartItemRow. exact Hk.
    + apply quantities_updateCartItemRow; [discriminate|exact Hqs].
Qed.

Lemma cartInvariant_removeFromCart (user : string) (itemId : nat) (db : DB) :
  cartInvariant db -> cartInvariant (after (removeFromCart user itemId db) db).
Proof.
  intros Hinv. unfold removeFromCart.
  destruct (findCart user db) as [cart|]; [|exact Hinv].
  destruct (findCartItemIn itemId (Cart.id cart) db); [|exact Hinv].
  pose proof (cartItems_getCart user (deleteCartItem itemId db)) as Hg.
  destruct (getCart user (deleteCartItem itemId db)) as [rows db3]. simpl in *.
  apply (cartInvariant_ext (deleteCartItem itemId db)); [exact Hg|].
  apply cartInvariant_filter. exact Hinv.
Qed.

Lemma cartInvariant_clearCart (user : string) (db : DB) :
  cartInvariant db -> cartInvariant (clearCart user db).
Proof.
  intros Hinv. unfold clearCart.
  destruct (findCart user db); [|exact Hinv].
  apply cartInvariant_filter. exact Hinv.
Qed.

Lemma cartInvariant_stepCart (op : CartOp) (db : DB) :
  validatedCartOp op -> cartInvariant db -> cartInvariant (stepCart db op).
Proof.
  destruct op; simpl; intros Hv Hinv.
  - apply cartInvariant_addToCart; assumption.
  - apply cartInvariant_updateCartItem; assumption.
  - apply cartInvariant_removeFromCart; assumption.
  - apply cartInvariant_clearCart; assumption.
Qed.

(** C8 as stated fails on [addToCart] itself: the service method stores the
    quantity it is given, so a call with quantity 0 persists a row with
    quantity 0. *)
Lemma addToCart_persists_quantity_zero :
  cartInvariant sampleDb /\
  cartItems (runCart [OpAddToCart "u1" (mkAddToCartData "X" 0 None)] sampleDb) =
    [CartItem.mk 2 1 "X" 0 None] /\
  ~ cartInvariant (runCart [OpAddToCart "u1" (mkAddToCartData "X" 0 None)] sampleDb).
Proof.
  split; [split; constructor|].
  split; [reflexivity|].
  intros [_ Hq]. vm_compute in Hq. inversion Hq as [|ci l H1 _]; subst.
  apply H1. reflexivity.
Qed.

(** C8 (amended). Starting from a store where every (cart, menu item) pair
    has at most one row and every row has quantity at least 1, any sequence of
    [addToCart], [updateCartItem], [removeFromCart] and [clearCart] calls in
    which every [addToCart] carries a quantity of at least 1 keeps both
    properties; and [updateCartItem] with a quantity of 0 or less on an
    existing line of the caller's cart succeeds and deletes that line. *)
Theorem cart_invariant_preserved :
  (forall ops db,
      cartInvariant db -> Forall validatedCartOp ops -> cartInvariant (runCart ops db))
  /\
  (forall user itemId q lineNotes db cart line,
      findCart user db = Some cart ->
      findCartItemIn itemId (Cart.id cart) db = Some line ->
      q <= 0 ->
      exists rows db',
        updateCartItem user itemId (mkUpdateCartItemData (Some q) lineNotes) db =
          Ok (rows, db') /\
        cartItems db' =
          List.filter (fun ci => negb (Nat.eqb (CartItem.id ci) itemId)) (cartItems db) /\
        ~ In itemId (map CartItem.id (cartItems db'))).
Proof.
  split.
  - intros ops. induction ops as [|op ops IH]; simpl; intros db Hinv Hv; [exact Hinv|].
    inversion Hv; subst. apply IH; [|assumption].
    apply cartInvariant_stepCart; assumption.
  - intros user itemId q lineNotes db cart line Hc Hl Hq.
    unfold updateCartItem. rewrite Hc, Hl. simpl.
    apply Z.leb_le in Hq. rewrite Hq.
    pose proof (cartItems_getCart user (deleteCartItem itemId db)) as Hg.
    destruct (getCart user (deleteCartItem itemId db)) as [rows db3]. simpl in Hg.
    exists rows, db3. split; [reflexivity|]. split; [exact Hg|].
    rewrite Hg. simpl. intros Hin.
    apply in_map_iff in Hin. destruct Hin as (ci & Hid & Hin).
    apply filter_In in Hin. destruct Hin as [_ Hne].
    rewrite Hid, Nat.eqb_refl in Hne. discriminate Hne.
Qed.

Lemma cart_invariant_preserved_witness :
  cartInvariant
    (runCart [OpAddToCart "u1" (mkAddToCartData "X" 2 None);
              OpAddToCart "u1" (mkAddToCartData "X" 1 (Some "no cheese"));
              OpUpdateCartItem "u1" 2 (mkUpdateCartItemData (Some 0) None)]
             sampleDb).
Proof.
  apply (proj1 cart_invariant_preserved).
  - split; constructor.
  - repeat constructor; simpl; lia.
Defined.

(** ** The background drain *)

Lemma processItem_spec (item : QueuedOrder) (w : World) :
  exists r w',
    processItem item w =
      (r, w', [EvSetProcessing item;
               EvCreateOrder (userId item) (dataOfQueued item) (success r);
               EvDelProcessing]) /\
    res_clientId r = clientId item /\
    success r = isOk (createOrder (userId item) (dataOfQueued item) (db w)) /\
    queue (redis w') = queue (redis w) /\
    processing (redis w') = None /\
    isProcessing w' = isProcessing w /\
    clientKeys (redis w') = clientKeys (redis w) /\
    (r, db w') =
      match createOrder (userId item) (dataOfQueued item) (db w) with
      | Ok (created, store') =>
          (mkQueueResult (clientId item) true (Some (Order.id created))
             (Some (Order.orderNumber created)) None, store')
      | Throw e =>
          (mkQueueResult (clientId item) false None None (Some (errorMessage e)), db w)
      end.
Proof.
  unfold processItem; simpl.
  destruct (createOrder (userId item) (dataOfQueued item) (db w)) as [[o db']|e]; simpl.
  - exists (successResult (clientId item) (Order.id o) (Order.orderNumber o)).
    eexists. split; [reflexivity|]. simpl. repeat split; reflexivity.
  - exists (failureResult (clientId item) e).
    eexists. split; [reflexivity|]. simpl. repeat split; reflexivity.
Qed.

Lemma drain_spec (q : list QueuedOrder) :
  forall fuel w results log,
    queue (redis w) = q ->
    (length q < fuel)%nat ->
    exists rs w',
      drain fuel w results log =
        Some (results ++ rs, w', log ++ expectedLog q rs ++ [EvLpop None]) /\
      length rs = length q /\
      map res_clientId rs = map clientId q /\
      queue (redis w') = [] /\
      isProcessing w' = isProcessing w /\
      (q = [] -> w' = w) /\
      (q <> [] -> processing (redis w') = None) /\
      clientKeys (redis w') = clientKeys (redis w) /\
      (rs, db w') = createOrderPerItem q (db w).
Proof.
  induction q as [|item q IH]; intros fuel w results log Hq Hfuel.
  - destruct fuel as [|fuel]; [simpl in Hfuel; lia|].
    exists [], w. simpl. unfold redis_lpop. rewrite Hq.
    rewrite app_nil_r. repeat split; auto. congruence.
  - destruct fuel as [|fuel]; [simpl in Hfuel; lia|].
    simpl. unfold redis_lpop. rewrite Hq.
    destruct (processItem_spec item
                (set_redis (mkRedis (clientKeys (redis w)) q (processing (redis w))) w))
      as (r & w1 & Hstep & Hcid & _ & Hqueue & Hmark & Hflag & Hkeys & Hcall).
    rewrite Hstep.
    destruct (IH fuel w1 (results ++ [r])
                (log ++ EvLpop (Some item)
                     :: [EvSetProcessing item;
                         EvCreateOrder (userId item) (dataOfQueued item) (success r);
                         EvDelProcessing]))
      as (rs & w' & Hdrain & Hlen & Hcids & Hempty & Hflag' & Hsame & Hmark'
          & Hkeys' & Hrest).
    { rewrite Hqueue. reflexivity. }
    { simpl in Hfuel. lia. }
    exists (r :: rs), w'. rewrite Hdrain.
    split.
    { rewrite <- !app_assoc. reflexivity. }
    simpl. split; [congruence|]. split; [congruence|].
    split; [exact Hempty|]. split; [rewrite Hflag'; exact Hflag|].
    split; [discriminate|].
    split.
    { intros _. destruct q as [|item' q'].
      + rewrite (Hsame eq_refl). exact Hmark.
      + apply Hmark'. discriminate. }
    split; [rewrite Hkeys'; exact Hkeys|].
    simpl in Hcall.
    destruct (createOrder (userId item) (dataOfQueued item) (db w)) as [[o store']|e];
      injection Hcall as -> Hdb; rewrite <- Hdb, <- Hrest; reflexivity.
Qed.

(** C9. Given fuel for one iteration more than there are queued items,
    [processQueue] returns. A call made while another drain holds the
    [isProcessing] flag is turned away: it pops nothing and calls nothing.
    A drain that is let in logs, for each item from the head on, one pop, the
    marker set to that item, one [createOrder] call on it and the marker
    cleared, whatever the outcome of the call, and ends with the pop that
    found the list empty; it yields one result per item in queue order and
    leaves the queue empty, the marker (if any item was processed) cleared
    and the flag released. The results and the store it leaves are those of
    calling [createOrder] once per item, head first, each call on the store
    the previous calls left: a result reports the order its call created or
    the error it threw; the dedup keys of the sync path are not touched. *)
Theorem processQueue_drains_fifo (fuel : nat) (w : World) :
  (length (queue (redis w)) < fuel)%nat ->
  (isProcessing w = true -> processQueue fuel w = Some ([], w, []))
  /\
  (isProcessing w = false ->
   exists results w',
     processQueue fuel w =
       Some (results, w', expectedLog (queue (redis w)) results ++ [EvLpop None]) /\
     length results = length (queue (redis w)) /\
     map res_clientId results = map clientId (queue (redis w)) /\
     queue (redis w') = [] /\
     isProcessing w' = false /\
     (queue (redis w) <> [] -> processing (redis w') = None) /\
     (results, db w') = createOrderPerItem (queue (redis w)) (db w) /\
     clientKeys (redis w') = clientKeys (redis w)).
Proof.
  intros Hfuel. unfold processQueue. split; intros Hflag; rewrite Hflag; [reflexivity|].
  destruct (drain_spec (queue (redis w)) fuel (set_isProcessing true w) [] [])
    as (rs & w' & Hdrain & Hlen & Hcids & Hempty & _ & _ & Hmark & Hkeys & Hcalls);
    [reflexivity|exact Hfuel|].
  rewrite Hdrain. simpl.
  exists rs, (set_isProcessing false w'). repeat split; assumption.
Qed.

(** ** Replay order of a sync batch *)

Lemma insertByCreatedAt_perm (x : SyncRequest) (l : list SyncRequest) :
  Permutation (x :: l) (insertByCreatedAt x l).
Proof.
  induction l as [|y l IH]; simpl; [reflexivity|].
  destruct (sync_createdAt x <=? sync_createdAt y); [reflexivity|].
  etransitivity; [apply perm_swap|]. apply perm_skip. exact IH.
Qed.

Lemma sortByCreatedAt_perm (l : list SyncRequest) :
  Permutation l (sortByCreatedAt l).
Proof.
  induction l as [|x l IH]; simpl; [reflexivity|].
  etransitivity; [apply perm_skip; exact IH|]. apply insertByCreatedAt_perm.
Qed.





(** ** What [createOrder] reads and writes *)

Lemma orderItemsOfInput_menu (restaurantId : string) (db db' : DB)
    (l : list OrderItemInput) :
  menuItems db' = menuItems db ->
  orderItemsOfInput restaurantId db' l = orderItemsOfInput restaurantId db l.
Proof.
  intros Hm. induction l as [|item rest IH]; simpl; [reflexivity|].
  unfold findMenuItem in *. rewrite Hm, IH. reflexivity.
Qed.

Lemma cartRowsWithMenu_same (cartId : nat) (db db' : DB) :
  menuItems db' = menuItems db -> cartItems db' = cartItems db ->
  cartRowsWithMenu cartId db' = cartRowsWithMenu cartId db.
Proof.
  intros Hm Hc. unfold cartRowsWithMenu, itemsOfCart, findMenuItem.
  rewrite Hm, Hc. reflexivity.
Qed.

Lemma createOrder_effect (user : string) (data : CreateOrderData) (db db' : DB)
    (order : Order.t) :
  createOrder user data db = Ok (order, db') ->
  restaurants db' = restaurants db /\
  menuItems db' = menuItems db /\
  carts db' = carts db /\
  orders db' = orders db ++ [order] /\
  cartItems db' = cartItems (if hasItems data then db else clearCart user db).
Proof.
  unfold createOrder.
  destruct (findRestaurant (data_restaurantId data) db); [|discriminate].
  destruct (collectOrderItems user data db) as [orderItems|e]; [|discriminate].
  intros H. injection H as <- <-.
  destruct (hasItems data); simpl.
  - repeat split; reflexivity.
  - unfold clearCart, findCart; simpl.
    destruct (find _ (carts db)); simpl; repeat split; reflexivity.
Qed.

Lemma collectOrderItems_persists (user : string) (data data' : CreateOrderData)
    (db db' : DB) :
  menuItems db' = menuItems db ->
  carts db' = carts db ->
  cartItems db' = cartItems (if hasItems data' then db else clearCart user db) ->
  isOk (collectOrderItems user data db) = false ->
  isOk (collectOrderItems user data db') = false.
Proof.
  intros Hm Hc Hci. unfold collectOrderItems.
  assert (Hcart :
    isOk match findCart user db with
         | Some cart =>
             match itemsOfCart (Cart.id cart) db with
             | [] => Throw (BadRequestError "Cart is empty")
             | _ :: _ =>
                 orderItemsOfCart (data_restaurantId data)
                   (cartRowsWithMenu (Cart.id cart) db)
             end
         | None => Throw (BadRequestError "Cart is empty")
         end = false ->
    isOk match findCart user db' with
         | Some cart =>
             match itemsOfCart (Cart.id cart) db' with
             | [] => Throw (BadRequestError "Cart is empty")
             | _ :: _ =>
                 orderItemsOfCart (data_restaurantId data)
                   (cartRowsWithMenu (Cart.id cart) db')
             end
         | None => Throw (BadRequestError "Cart is empty")
         end = false).
  { assert (Hf : findCart user db' = findCart user db)
      by (unfold findCart; rewrite Hc; reflexivity).
    rewrite Hf. destruct (findCart user db) as [cart|] eqn:Ec; [|reflexivity].
    destruct (hasItems data').
    - rewrite (cartRowsWithMenu_same _ db db' Hm Hci).
      unfold itemsOfCart. rewrite Hci. auto.
    - assert (Hempty : itemsOfCart (Cart.id cart) db' = []).
      { unfold itemsOfCart. rewrite Hci. unfold clearCart. rewrite Ec.
        apply itemsOfCart_deleteCartItemsOf. }
      rewrite Hempty. reflexivity. }
  destruct (data_items data) as [[|item rest]|]; try exact Hcart.
  rewrite (orderItemsOfInput_menu _ db db' _ Hm). auto.
Qed.

(** A request that [createOrder] rejects stays rejected after an order of
    the same customer has been created. *)
Lemma createOrder_failure_persists (user : string) (data data' : CreateOrderData)
    (db db' : DB) (order : Order.t) :
  createOrder user data' db = Ok (order, db') ->
  isOk (createOrder user data db) = false ->
  isOk (createOrder user data db') = false.
Proof.
  intros Hok. apply createOrder_effect in Hok.
  destruct Hok as (Hr & Hm & Hc & _ & Hci).
  unfold createOrder.
  assert (Hf : findRestaurant (data_restaurantId data) db' =
               findRestaurant (data_restaurantId data) db)
    by (unfold findRestaurant; rewrite Hr; reflexivity).
  rewrite Hf. destruct (findRestaurant (data_restaurantId data) db); [|reflexivity].
  pose proof (collectOrderItems_persists user data data' db db' Hm Hc Hci) as Hp.
  destruct (collectOrderItems user data db); [discriminate|].
  intros _. destruct (collectOrderItems user data db'); [|reflexivity].
  specialize (Hp eq_refl). discriminate Hp.
Qed.

Lemma isOk_createOrder (user : string) (data : CreateOrderData) (db : DB) :
  isOk (createOrder user data db) =
  match findRestaurant (data_restaurantId data) db with
  | Some _ => isOk (collectOrderItems user data db)
  | None => false
  end.
Proof.
  unfold createOrder.
  destruct (findRestaurant (data_restaurantId data) db); [|reflexivity].
  destruct (collectOrderItems user data db); reflexivity.
Qed.


(** ** Client keys *)

Lemma append_inj_r (p a b : string) : p +:+ a = p +:+ b -> a = b.
Proof.
  induction p as [|ch p IH]; simpl; intros H; [exact H|].
  injection H as H. auto.
Qed.

Lemma clientKey_inj (user c c' : string) :
  clientKey user c = clientKey user c' -> c = c'.
Proof.
  unfold clientKey. intros H.
  apply append_inj_r in H. apply append_inj_r in H. apply append_inj_r in H. exact H.
Qed.

Lemma redis_get_setex_other (k k' : string) (ttl now t : Z) (v : ClientMapping)
    (r : Redis) :
  k <> k' -> redis_get k' t (redis_setex k ttl v now r) = redis_get k' t r.
Proof.
  intros Hne. unfold redis_get, redis_setex; simpl.
  rewrite lookup_insert_ne by exact Hne. reflexivity.
Qed.

Lemma redis_get_setex_same (k : string) (ttl now t : Z) (v : ClientMapping) (r : Redis) :
  t < now + ttl -> redis_get k t (redis_setex k ttl v now r) = Some v.
Proof.
  intros Hlt. unfold redis_get, redis_setex; simpl.
  rewrite lookup_insert_eq. apply Z.ltb_lt in Hlt. rewrite Hlt. reflexivity.
Qed.

(** ** A sync batch of distinct, unseen requests *)

Lemma syncLoop_clientIds (user : string) (now : Z) (l : list SyncRequest) :
  forall w, map res_clientId (fst (syncLoop user now l w)) = map sync_clientId l.
Proof.
  induction l as [|o l IH]; intros w; simpl; [reflexivity|].
  destruct (syncOne user now o w) as [r w1] eqn:E1.
  specialize (IH w1). destruct (syncLoop user now l w1) as [rs w2]. simpl in *.
  f_equal; [|exact IH].
  unfold syncOne in E1.
  destruct (redis_get _ now (redis w)); [injection E1 as <- _; reflexivity|].
  destruct (createOrder user (dataOfSync o) (db w)) as [[c db']|e];
    injection E1 as <- _; reflexivity.
Qed.








(** ** Resubmitting a sync batch *)

Lemma syncOne_cases (user : string) (now : Z) (o : SyncRequest) (w : World) :
  (exists v,
      redis_get (keyOf user o) now (redis w) = Some v /\
      syncOne user now o w =
        (successResult (sync_clientId o) (map_orderId v) (map_orderNumber v), w))
  \/
  (redis_get (keyOf user o) now (redis w) = None /\
   exists created db',
     createOrder user (dataOfSync o) (db w) = Ok (created, db') /\
     syncOne user now o w =
       (successResult (sync_clientId o) (Order.id created) (Order.orderNumber created),
        set_redis
          (redis_setex (keyOf user o) CLIENT_KEY_TTL
             (mkClientMapping (Order.id created) (Order.orderNumber created))
             now (redis w))
          (set_db db' w)))
  \/
  (redis_get (keyOf user o) now (redis w) = None /\
   exists e,
     createOrder user (dataOfSync o) (db w) = Throw e /\
     syncOne user now o w = (failureResult (sync_clientId o) e, w)).
Proof.
  unfold syncOne, keyOf.
  destruct (redis_get _ now (redis w)) as [v|].
  - left. exists v. split; reflexivity.
  - destruct (createOrder user (dataOfSync o) (db w)) as [[created db']|e].
    + right. left. split; [reflexivity|]. exists created, db'. split; reflexivity.
    + right. right. split; [reflexivity|]. exists e. split; reflexivity.
Qed.

Lemma redis_get_same_entry (k : string) (t : Z) (r r' : Redis) :
  clientKeys r' !! k = clientKeys r !! k -> redis_get k t r' = redis_get k t r.
Proof. unfold redis_get. intros ->. reflexivity. Qed.

Lemma setex_keeps_live (k k' : string) (now : Z) (v : ClientMapping) (r : Redis) :
  redis_get k now r = None ->
  redis_get k' now r <> None ->
  clientKeys (redis_setex k CLIENT_KEY_TTL v now r) !! k' = clientKeys r !! k'.
Proof.
  intros Hk Hk'. unfold redis_setex; simpl.
  rewrite lookup_insert_ne; [reflexivity|]. intros ->. contradiction.
Qed.

Section Resubmission.

Variable user : string.
Variables now1 now2 : Z.
Hypothesis Hwindow : now2 < now1 + CLIENT_KEY_TTL.

Lemma first_submission (l : list SyncRequest) :
  forall w,
    Forall (durable user now1 now2 w) l ->
    (forall k,
        redis_get k now1 (redis w) <> None ->
        clientKeys (redis (snd (syncLoop user now1 l w))) !! k = clientKeys (redis w) !! k)
    /\
    (forall d,
        isOk (createOrder user d (db w)) = false ->
        isOk (createOrder user d (db (snd (syncLoop user now1 l w)))) = false)
    /\
    Forall2 (settled user now2 (snd (syncLoop user now1 l w))) l
            (fst (syncLoop user now1 l w)).
Proof using Hwindow.
  induction l as [|o l IH]; intros w Hdur.
  - simpl. split; [auto|]. split; [auto|constructor].
  - inversion Hdur as [|o' l' Ho Hdur']; subst. simpl.
    assert (Hpos : now1 < now1 + CLIENT_KEY_TTL) by (unfold CLIENT_KEY_TTL; lia).
    destruct (syncOne_cases user now1 o w)
      as [(v & Hget & Hone)|[(Hget & created & db' & Hc & Hone)|(Hget & e & Hc & Hone)]];
      rewrite Hone.
    + (* already mapped *)
      destruct (IH w Hdur') as (Hkeep & Hfail & Hset).
      destruct (syncLoop user now1 l w) as [rs w'] eqn:El. simpl in *.
      split; [exact Hkeep|]. split; [exact Hfail|].
      constructor; [|exact Hset].
      split; [reflexivity|]. simpl. exists v. split; [|reflexivity].
      rewrite (redis_get_same_entry _ _ (redis w) (redis w')).
      * apply Ho. exact Hget.
      * apply Hkeep. rewrite Hget. discriminate.
    + (* created and mapped *)
      set (mapping := mkClientMapping (Order.id created) (Order.orderNumber created)).
      set (w1 := set_redis (redis_setex (keyOf user o) CLIENT_KEY_TTL mapping now1 (redis w))
                           (set_db db' w)).
      assert (Hdur1 : Forall (durable user now1 now2 w1) l).
      { rewrite List.Forall_forall in *. intros o2 Hin v2. unfold w1; simpl.
        destruct (String.string_dec (keyOf user o) (keyOf user o2)) as [Heq|Hne].
        - rewrite <- Heq. rewrite !redis_get_setex_same by assumption. auto.
        - rewrite !redis_get_setex_other by exact Hne. apply Hdur'. exact Hin. }
      destruct (IH w1 Hdur1) as (Hkeep & Hfail & Hset).
      destruct (syncLoop user now1 l w1) as [rs w'] eqn:El. simpl in *.
      split; [|split].
      * intros k Hk. rewrite Hkeep.
        -- unfold w1; simpl. apply setex_keeps_live; assumption.
        -- unfold w1; simpl.
           rewrite (redis_get_same_entry k now1 (redis w)); [exact Hk|].
           apply setex_keeps_live; assumption.
      * intros d Hd. apply Hfail. unfold w1; simpl.
        apply (createOrder_failure_persists user d (dataOfSync o) (db w) db' created);
          assumption.
      * constructor; [|exact Hset].
        split; [reflexivity|]. simpl. exists mapping. split; [|reflexivity].
        rewrite (redis_get_same_entry _ _ (redis w1) (redis w')).
        -- unfold w1; simpl. apply redis_get_setex_same. exact Hwindow.
        -- apply Hkeep. unfold w1; simpl.
           rewrite redis_get_setex_same by exact Hpos. discriminate.
    + (* rejected *)
      destruct (IH w Hdur') as (Hkeep & Hfail & Hset).
      destruct (syncLoop user now1 l w) as [rs w'] eqn:El. simpl in *.
      split; [exact Hkeep|]. split; [exact Hfail|].
      constructor; [|exact Hset].
      split; [reflexivity|]. simpl. apply Hfail. rewrite Hc. reflexivity.
Qed.

Lemma second_submission (l : list SyncRequest) (w : World) :
  Forall (fun o =>
            redis_get (keyOf user o) now2 (redis w) <> None \/
            isOk (createOrder user (dataOfSync o) (db w)) = false) l ->
  snd (syncLoop user now2 l w) = w /\
  Forall2 (fun o r =>
             res_clientId r = sync_clientId o /\
             (forall v,
                 redis_get (keyOf user o) now2 (redis w) = Some v ->
                 r = successResult (sync_clientId o) (map_orderId v) (map_orderNumber v)) /\
             (redis_get (keyOf user o) now2 (redis w) = None ->
              success r = false /\ res_orderId r = None /\ res_orderNumber r = None))
          l (fst (syncLoop user now2 l w)).
Proof.
  induction 1 as [|o l Ho _ IH]; simpl.
  - split; [reflexivity|constructor].
  - destruct IH as [IHw IHr].
    destruct (syncOne_cases user now2 o w)
      as [(v & Hget & Hone)|[(Hget & created & db' & Hc & Hone)|(Hget & e & Hc & Hone)]].
    + rewrite Hone. destruct (syncLoop user now2 l w) as [rs w']. simpl in *.
      split; [exact IHw|]. constructor; [|exact IHr].
      split; [reflexivity|]. split.
      * intros v' Hv'. rewrite Hget in Hv'. injection Hv' as <-. reflexivity.
      * intros Hnone. rewrite Hget in Hnone. discriminate Hnone.
    + exfalso. destruct Ho as [Ho|Ho]; [contradiction|].
      rewrite Hc in Ho. discriminate Ho.
    + rewrite Hone. destruct (syncLoop user now2 l w) as [rs w']. simpl in *.
      split; [exact IHw|]. constructor; [|exact IHr].
      split; [reflexivity|]. split.
      * intros v' Hv'. rewrite Hget in Hv'. discriminate Hv'.
      * intros _. repeat split.
Qed.

End Resubmission.

(** A key that is live is live at every earlier instant. *)
Lemma live_earlier (k : string) (t1 t2 : Z) (r : Redis) (v : ClientMapping) :
  t1 <= t2 -> redis_get k t2 r = Some v -> redis_get k t1 r = Some v.
Proof.
  unfold redis_get. intros Hle.
  destruct (clientKeys r !! k) as [[v' e]|]; [|discriminate].
  destruct (Z.ltb_spec t2 e) as [Hlt|Hge]; [|discriminate].
  intros Hv. destruct (Z.ltb_spec t1 e); [exact Hv|lia].
Qed.

(** A request whose key is live when the replay starts is answered from
    that key. *)
Lemma live_key_answers (user : string) (now : Z) (l : list SyncRequest) :
  forall w,
    Forall2 (fun o r =>
               forall v,
                 redis_get (keyOf user o) now (redis w) = Some v ->
                 r = successResult (sync_clientId o) (map_orderId v) (map_orderNumber v))
            l (fst (syncLoop user now l w)).
Proof.
  induction l as [|o l IH]; intros w; simpl; [constructor|].
  destruct (syncOne_cases user now o w)
    as [(v & Hget & Hone)|[(Hget & created & db' & Hc & Hone)|(Hget & e & Hc & Hone)]];
    rewrite Hone.
  - specialize (IH w). destruct (syncLoop user now l w) as [rs w']. simpl in *.
    constructor; [|exact IH]. intros v' Hv'. rewrite Hget in Hv'.
    injection Hv' as <-. reflexivity.
  - set (w1 := set_redis _ _).
    specialize (IH w1). destruct (syncLoop user now l w1) as [rs w']. simpl in *.
    constructor; [intros v' Hv'; rewrite Hget in Hv'; discriminate Hv'|].
    eapply Forall2_impl; [exact IH|]. simpl. intros o' r Hr v' Hv'. apply Hr.
    unfold w1. simpl.
    rewrite (redis_get_same_entry _ _ (redis w)); [exact Hv'|].
    apply setex_keeps_live; [exact Hget|]. rewrite Hv'. discriminate.
  - specialize (IH w). destruct (syncLoop user now l w) as [rs w']. simpl in *.
    constructor; [|exact IH]. intros v' Hv'. rewrite Hget in Hv'. discriminate Hv'.
Qed.

(** A key that is live after a replay was live before it with the same
    value, or it was written for a request that the replay accepted. *)
Lemma live_keys_origin (user : string) (now t : Z) (c : string) (v : ClientMapping)
    (l : list SyncRequest) :
  forall w,
    redis_get (clientKey user c) t (redis (snd (syncLoop user now l w))) = Some v ->
    redis_get (clientKey user c) t (redis w) = Some v \/
    In (successResult c (map_orderId v) (map_orderNumber v))
       (fst (syncLoop user now l w)).
Proof.
  induction l as [|o l IH]; intros w; simpl; [auto|].
  destruct (syncOne_cases user now o w)
    as [(v' & Hget & Hone)|[(Hget & created & db' & Hc & Hone)|(Hget & e & Hc & Hone)]];
    rewrite Hone.
  - specialize (IH w). destruct (syncLoop user now l w) as [rs w']. simpl in *.
    intros H. destruct (IH H); auto.
  - set (w1 := set_redis _ _).
    specialize (IH w1). destruct (syncLoop user now l w1) as [rs w']. simpl in *.
    intros H. destruct (IH H) as [Hw1|Hin]; [|auto].
    unfold w1 in Hw1. simpl in Hw1.
    destruct (String.string_dec (keyOf user o) (clientKey user c)) as [Heq|Hne].
    + right. left. unfold keyOf in Heq. pose proof (clientKey_inj _ _ _ Heq) as Hcid.
      unfold keyOf in Hw1. rewrite Heq in Hw1.
      unfold redis_get, redis_setex in Hw1. simpl in Hw1.
      rewrite lookup_insert_eq in Hw1.
      destruct (t <? now + CLIENT_KEY_TTL); [|discriminate Hw1].
      injection Hw1 as <-. rewrite Hcid. reflexivity.
    + left. rewrite redis_get_setex_other in Hw1 by exact Hne. exact Hw1.
  - specialize (IH w). destruct (syncLoop user now l w) as [rs w']. simpl in *.
    intros H. destruct (IH H); auto.
Qed.

Lemma Forall2_both {A B : Type} (P Q : A -> B -> Prop) (l : list A) (bs : list B) :
  Forall2 P l bs -> Forall2 Q l bs -> Forall2 (fun a b => P a b /\ Q a b) l bs.
Proof.
  intros HP. induction HP; intros HQ; inversion HQ; subst; constructor; auto.
Qed.

(** The orders a replay adds are one per client id that had no live key and
    obtained a successful result. *)
Lemma creations_counted (user : string) (now : Z) (l : list SyncRequest) :
  forall w,
  exists created : list string,
    length (orders (db (snd (syncLoop user now l w)))) =
      (length (orders (db w)) + length created)%nat /\
    List.NoDup created /\
    forall c,
      In c created <->
      (redis_get (clientKey user c) now (redis w) = None /\
       exists r, In r (fst (syncLoop user now l w)) /\
                 res_clientId r = c /\ success r = true).
Proof.
  induction l as [|o l IH]; intros w.
  - exists []. simpl. split; [lia|]. split; [constructor|].
    intros c. split; [intros []|]. intros (_ & r & [] & _).
  - simpl.
    assert (Hpos : now < now + CLIENT_KEY_TTL) by (unfold CLIENT_KEY_TTL; lia).
    destruct (syncOne_cases user now o w)
      as [(v & Hget & Hone)|[(Hget & order & db' & Hc & Hone)|(Hget & e & Hc & Hone)]];
      rewrite Hone; unfold keyOf in Hget.
    + destruct (IH w) as (created & Hlen & Hnd & Hin).
      destruct (syncLoop user now l w) as [rs w'] eqn:El. cbn [fst snd] in *.
      exists created. split; [exact Hlen|]. split; [exact Hnd|].
      intros c. rewrite Hin. split.
      * intros (Hnone & r & Hr & Hrc & Hrs). split; [exact Hnone|].
        exists r. split; [right; exact Hr|]. split; assumption.
      * intros (Hnone & r & [<-|Hr] & Hrc & Hrs).
        -- simpl in Hrc. subst c. congruence.
        -- split; [exact Hnone|]. exists r. split; [exact Hr|]. split; assumption.
    + set (w1 := set_redis _ (set_db db' w)).
      destruct (IH w1) as (created & Hlen & Hnd & Hin).
      destruct (syncLoop user now l w1) as [rs w'] eqn:El. cbn [fst snd] in *.
      apply createOrder_effect in Hc. destruct Hc as (_ & _ & _ & Ho & _).
      assert (Hother : forall c, c <> sync_clientId o ->
                  redis_get (clientKey user c) now (redis w1) =
                  redis_get (clientKey user c) now (redis w)).
      { intros c Hne. unfold w1; simpl. apply redis_get_setex_other.
        intros Heq. apply clientKey_inj in Heq. congruence. }
      assert (Hmine : redis_get (clientKey user (sync_clientId o)) now (redis w1) <> None).
      { unfold w1, keyOf; simpl. rewrite redis_get_setex_same by exact Hpos. discriminate. }
      exists (sync_clientId o :: created).
      assert (Hdb : db w1 = db') by reflexivity.
      split; [rewrite Hlen, Hdb, Ho, length_app; simpl; lia|].
      split.
      { constructor; [|exact Hnd]. intros Habs. apply Hin in Habs.
        destruct Habs as [Habs _]. contradiction. }
      intros c. simpl. rewrite Hin. split.
      * intros [<-|(Hnone & r & Hr & Hrc & Hrs)].
        -- split; [exact Hget|]. eexists. split; [left; reflexivity|]. split; reflexivity.
        -- destruct (String.string_dec c (sync_clientId o)) as [->|Hne];
             [contradiction|].
           rewrite (Hother c Hne) in Hnone. split; [exact Hnone|].
           exists r. split; [right; exact Hr|]. split; assumption.
      * intros (Hnone & r & Hr & Hrc & Hrs).
        destruct (String.string_dec c (sync_clientId o)) as [->|Hne]; [left; reflexivity|].
        right. rewrite (Hother c Hne). split; [exact Hnone|].
        destruct Hr as [<-|Hr]; [simpl in Hrc; congruence|].
        exists r. split; [exact Hr|]. split; assumption.
    + destruct (IH w) as (created & Hlen & Hnd & Hin).
      destruct (syncLoop user now l w) as [rs w'] eqn:El. cbn [fst snd] in *.
      exists created. split; [exact Hlen|]. split; [exact Hnd|].
      intros c. rewrite Hin. split.
      * intros (Hnone & r & Hr & Hrc & Hrs). split; [exact Hnone|].
        exists r. split; [right; exact Hr|]. split; assumption.
      * intros (Hnone & r & [<-|Hr] & Hrc & Hrs).
        -- simpl in Hrs. discriminate Hrs.
        -- split; [exact Hnone|]. exists r. split; [exact Hr|]. split; assumption.
Qed.

Lemma Forall2_join {A B C : Type} (P : A -> B -> Prop) (Q : A -> C -> Prop)
    (R : B -> C -> Prop) (l : list A) (bs : list B) (cs : list C) :
  (forall a b c, P a b -> Q a c -> R b c) ->
  Forall2 P l bs -> Forall2 Q l cs -> Forall2 R bs cs.
Proof.
  intros HR HP. revert cs.
  induction HP as [|a b l bs Hab _ IH]; intros cs HQ; inversion HQ; subst;
    constructor; eauto.
Qed.

Lemma Forall2_left {A B : Type} (P : A -> B -> Prop) (Q : A -> Prop)
    (l : list A) (bs : list B) :
  (forall a b, P a b -> Q a) -> Forall2 P l bs -> Forall Q l.
Proof. intros HQ. induction 1; constructor; eauto. Qed.

(** C3 as stated fails for a request that is rejected: it gets no order id
    in either response and no order exists for its client id. When a
    client id is used by a rejected request and then by an accepted one,
    the second response gives the rejected request the order id it did not
    have in the first. And it fails when a mapping that is live at the first
    submission expires before the second, 10 seconds later: the first
    response names the order of the mapping, the second a newly created
    one, and two orders exist for the client id. *)
Lemma rejected_request_gets_no_order :
  (let first := syncOrders "u1" [reqBad] 10 sampleWorld in
   let second := syncOrders "u1" [reqBad] 20 (snd first) in
   map res_orderId (fst first) = [None] /\
   map res_orderId (fst second) = [None] /\
   orders (db (snd second)) = [])
  /\
  (let reqRejected :=
     mkSyncRequest "c-a" "R9" "12 Main Street" None [mkOrderItemInput "X" 1 None] 1000 in
   let first := syncOrders "u1" [reqRejected; reqA] 10 sampleWorld in
   let second := syncOrders "u1" [reqRejected; reqA] 20 (snd first) in
   map res_orderId (fst first) = [None; Some 1%nat] /\
   map res_orderId (fst second) = [Some 1%nat; Some 1%nat])
  /\
  (let first := syncOrders "u1" [reqA] 10 expiringWorld in
   let second := syncOrders "u1" [reqA] 20 (snd first) in
   map Order.id (orders (db expiringWorld)) = [1%nat] /\
   map res_orderId (fst first) = [Some 1%nat] /\
   map res_orderId (fst second) = [Some 2%nat] /\
   map Order.id (orders (db (snd second))) = [1%nat; 2%nat]).
Proof. vm_compute. repeat split. Qed.

(** C3 (amended). Let a batch be submitted at [now1] and again, unchanged,
    at an instant [now2] before [now1 + 86400], and let no mapping of a
    client id of the batch that is live at [now1] expire before [now2].
    The second submission changes neither the store nor Redis (it creates
    no order). Position by position in replay order it answers with the
    same client id; for every request that succeeded the first time, with
    the very same result (same [orderId] and [orderNumber]); and for a
    request that was rejected the first time, with a rejection again or,
    when a request of the first submission with the same client id was
    accepted, with that request's result. The orders created by the two
    submissions together are one per client id that had no live mapping at
    [now1] and obtained a successful result, and none for any other client
    id; so for a batch none of whose client ids had a live mapping they
    number exactly the client ids that obtained a successful result. *)
Theorem syncOrders_resubmission_idempotent (user : string) (batch : list SyncRequest)
    (now1 now2 : Z) (w : World) :
  Forall (durable user now1 now2 w) batch ->
  now2 < now1 + 86400 ->
  let first := syncOrders user batch now1 w in
  let second := syncOrders user batch now2 (snd first) in
  snd second = snd first /\
  Forall2 (answersAgain (fst first) now1 now2) (fst first) (fst second) /\
  (exists created : list string,
      length (orders (db (snd second))) =
        (length (orders (db w)) + length created)%nat /\
      List.NoDup created /\
      forall c,
        In c created <->
        (redis_get (clientKey user c) now1 (redis w) = None /\
         exists r, In r (fst first) /\ res_clientId r = c /\ success r = true)) /\
  (Forall (unseen user now1 w) batch ->
   length (orders (db (snd second))) =
     (length (orders (db w)) + length (succeededClients (fst first)))%nat).
Proof.
  intros Hdurable Hwindow. cbv zeta. unfold syncOrders.
  set (sorted := sortByCreatedAt batch).
  assert (Hmem : forall o, In o sorted -> In o batch).
  { intros o Hin. apply Permutation_in with (l := sorted);
      [symmetry; apply sortByCreatedAt_perm|exact Hin]. }
  destruct (first_submission user now1 now2 Hwindow sorted w) as (_ & _ & Hset).
  { rewrite List.Forall_forall in *. intros o Hin. apply Hdurable. apply Hmem. exact Hin. }
  pose proof (live_key_answers user now1 sorted w) as Hlive.
  pose proof (fun c v => live_keys_origin user now1 now2 c v sorted w) as Horigin.
  destruct (creations_counted user now1 sorted w) as (created & Hlen & Hnd & Hin).
  set (first := syncLoop user now1 sorted w) in *.
  destruct (second_submission user now2 sorted (snd first)) as [Hsame Hrep].
  { apply (Forall2_left (settled user now2 (snd first)) _ sorted (fst first));
      [|exact Hset].
    intros o r [_ H]. destruct (success r).
    - left. destruct H as (v & Hv & _). rewrite Hv. discriminate.
    - right. exact H. }
  split; [exact Hsame|]. split; [|split].
  - eapply Forall2_join; [|exact (Forall2_both _ _ _ _ Hset Hlive)|exact Hrep].
    intros o r1 r2 [[Hc1 H1] Hl1] (Hc2 & H2 & H3).
    split; [congruence|]. split.
    + intros Hs. rewrite Hs in H1. destruct H1 as (v & Hv & ->). apply H2. exact Hv.
    + intros Hs Hle.
      destruct (redis_get (keyOf user o) now2 (redis (snd first))) as [v|] eqn:Ek.
      * right. specialize (H2 v eq_refl).
        destruct (Horigin (sync_clientId o) v Ek) as [Hold|Hnew].
        -- exfalso. apply (live_earlier _ now1 now2 _ _ Hle) in Hold.
           rewrite (Hl1 v Hold) in Hs. discriminate Hs.
        -- exists (successResult (sync_clientId o) (map_orderId v) (map_orderNumber v)).
           split; [exact Hnew|]. split; [simpl; congruence|]. split; [reflexivity|].
           exact H2.
      * left. apply H3. reflexivity.
  - rewrite Hsame. exists created. auto.
  - intros Hunseen. rewrite Hsame, Hlen. f_equal.
    assert (Hsorted : Forall (unseen user now1 w) sorted).
    { rewrite List.Forall_forall in *. intros o Ho. apply Hunseen. apply Hmem. exact Ho. }
    apply Permutation_length.
    apply Permutation.NoDup_Permutation; [exact Hnd|apply List.NoDup_nodup|].
    intros c. unfold succeededClients. rewrite List.nodup_In, Hin, in_map_iff. split.
    + intros (_ & r & Hr & Hrc & Hrs). exists r. split; [exact Hrc|].
      apply filter_In. auto.
    + intros (r & Hrc & Hr). apply filter_In in Hr. destruct Hr as [Hr Hrs].
      split; [|exists r; auto].
      assert (Hc : In c (map sync_clientId sorted)).
      { rewrite <- (syncLoop_clientIds user now1 sorted w). fold first.
        rewrite <- Hrc. apply in_map. exact Hr. }
      apply in_map_iff in Hc. destruct Hc as (o & <- & Ho).
      rewrite List.Forall_forall in Hsorted. apply (Hsorted o Ho).
Qed.

(** ** Order statuses under the order service and driver assignment *)

Lemma findOrder_append (orderId : nat) (db : DB) (o new : Order.t) :
  findOrder orderId db = Some o ->
  find (fun x => Nat.eqb (Order.id x) orderId) (orders db ++ [new]) = Some o.
Proof.
  unfold findOrder. induction (orders db) as [|x l IH]; simpl; [discriminate|].
  destruct (Nat.eqb (Order.id x) orderId); auto.
Qed.

Lemma findOrder_createOrder (user : string) (data : CreateOrderData) (db db' : DB)
    (created : Order.t) (orderId : nat) (o : Order.t) :
  createOrder user data db = Ok (created, db') ->
  findOrder orderId db = Some o -> findOrder orderId db' = Some o.
Proof.
  intros Hc Ho. apply createOrder_effect in Hc. destruct Hc as (_ & _ & _ & Hor & _).
  unfold findOrder. rewrite Hor. apply findOrder_append. exact Ho.
Qed.

Lemma updateOrderStatus_step (target : nat) (s : OrderStatus.t) (db db' : DB)
    (updated : Order.t) (orderId : nat) (o o' : Order.t) :
  updateOrderStatus target s db = Ok (updated, db') ->
  findOrder orderId db = Some o -> findOrder orderId db' = Some o' ->
  Order.status o' = Order.status o \/ order_edge (Order.status o) (Order.status o').
Proof.
  unfold updateOrderStatus.
  destruct (findOrder target db) as [order|] eqn:Et; [|discriminate].
  destruct (OrderStatus.includes _ s) eqn:Ei; [|discriminate].
  simpl. intros H Ho Ho'. injection H as _ <-.
  rewrite findOrder_setOrderStatus in Ho'.
  destruct (Nat.eqb orderId target) eqn:E.
  - apply Nat.eqb_eq in E. subst target. rewrite Ho in Ho', Et.
    injection Ho' as <-. injection Et as <-. right. simpl.
    apply includes_transitions_edge. exact Ei.
  - left. congruence.
Qed.

Lemma assignDriver_step (target : nat) (driverId : string) (t : option Z)
    (db db' : DB) (delivery : Delivery.t) (orderId : nat) (o o' : Order.t) :
  assignDriver target driverId t db = Ok (delivery, db') ->
  findOrder orderId db = Some o -> findOrder orderId db' = Some o' ->
  Order.status o' = Order.status o \/ order_edge (Order.status o) (Order.status o').
Proof.
  unfold assignDriver.
  destruct (findOrder target db) as [order|] eqn:Et; [|discriminate].
  destruct (negb _ && negb _); [discriminate|].
  destruct (deliveryOfOrder target db); [discriminate|].
  destruct (findDriver driverId db) as [driver|]; [|discriminate].
  destruct (negb (Driver.isAvailable driver)); [discriminate|].
  intros H Ho Ho'. injection H as _ <-.
  destruct (OrderStatus.eqb (Order.status order) OrderStatus.PREPARING) eqn:Ep.
  - assert (Hf : findOrder orderId (setOrderStatus target OrderStatus.ON_THE_WAY db) = Some o')
      by exact Ho'.
    rewrite findOrder_setOrderStatus in Hf.
    destruct (Nat.eqb orderId target) eqn:E.
    + apply Nat.eqb_eq in E. subst target. rewrite Ho in Hf, Et.
      injection Hf as <-. injection Et as <-. right. simpl.
      destruct (Order.status o); try discriminate Ep. constructor.
    + left. congruence.
  - left. assert (Hf : findOrder orderId db = Some o') by exact Ho'. congruence.
Qed.

Lemma updateDeliveryStatus_step (deliveryId : nat) (s : DeliveryStatus.t) (now : Z)
    (db db' : DB) (delivery : Delivery.t) (orderId : nat) (o o' : Order.t) :
  updateDeliveryStatus deliveryId s now db = Ok (delivery, db') ->
  findOrder orderId db = Some o -> findOrder orderId db' = Some o' ->
  Order.status o' = Order.status o \/ Order.status o' = OrderStatus.DELIVERED.
Proof.
  unfold updateDeliveryStatus.
  destruct (findDelivery deliveryId db) as [d|]; [|discriminate].
  destruct (negb _); [discriminate|].
  intros H Ho Ho'. injection H as _ <-.
  destruct (DeliveryStatus.eqb s DeliveryStatus.DELIVERED).
  - assert (Hf : findOrder orderId
                   (setOrderStatus (Delivery.orderId d) OrderStatus.DELIVERED db) = Some o')
      by exact Ho'.
    rewrite findOrder_setOrderStatus in Hf.
    destruct (Nat.eqb orderId (Delivery.orderId d)).
    + rewrite Ho in Hf. injection Hf as <-. right. reflexivity.
    + left. congruence.
  - left. assert (Hf : findOrder orderId db = Some o') by exact Ho'. congruence.
Qed.

(** X1. Every call of [createOrder], [updateOrderStatus], [cancelOrder],
    [assignDriver] and [updateDriverAvailability] leaves the status of every
    order as it was or moves it along one edge of the transition table; a
    call of [updateDeliveryStatus] leaves it as it was or sets it to
    DELIVERED. *)
Theorem order_status_steps (op : Op) (db : DB) (orderId : nat) (o o' : Order.t) :
  findOrder orderId db = Some o ->
  findOrder orderId (step db op) = Some o' ->
  match op with
  | OpUpdateDeliveryStatus _ _ _ =>
      Order.status o' = Order.status o \/ Order.status o' = OrderStatus.DELIVERED
  | _ =>
      Order.status o' = Order.status o \/ order_edge (Order.status o) (Order.status o')
  end.
Proof.
  intros Ho.
  destruct op as [user data|target s|target user|target driverId t
                 |deliveryId s now|driverId available]; simpl.
  - destruct (createOrder user data db) as [[created db']|e] eqn:E; simpl; intros Ho'.
    + left. rewrite (findOrder_createOrder _ _ _ _ _ _ _ E Ho) in Ho'. congruence.
    + left. congruence.
  - destruct (updateOrderStatus target s db) as [[updated db']|e] eqn:E;
      simpl; intros Ho'.
    + eapply updateOrderStatus_step; eassumption.
    + left. congruence.
  - unfold cancelOrder.
    destruct (findOrder target db) as [order|]; simpl; [|left; congruence].
    destruct (negb (String.eqb (Order.userId order) user)); simpl; [left; congruence|].
    destruct (negb _); simpl; [left; congruence|].
    destruct (updateOrderStatus target OrderStatus.CANCELLED db)
      as [[updated db']|e] eqn:E; simpl; intros Ho'.
    + eapply updateOrderStatus_step; eassumption.
    + left. congruence.
  - destruct (assignDriver target driverId t db) as [[d db']|e] eqn:E;
      simpl; intros Ho'.
    + eapply assignDriver_step; eassumption.
    + left. congruence.
  - destruct (updateDeliveryStatus deliveryId s now db) as [[d db']|e] eqn:E;
      simpl; intros Ho'.
    + eapply updateDeliveryStatus_step; eassumption.
    + left. congruence.
  - unfold updateDriverAvailability.
    destruct (findDriver driverId db) as [driver|]; simpl; [|left; congruence].
    destruct (if negb available then getActiveDelivery driverId db else None);
      simpl; intros Ho'; left;
      (assert (Hf : findOrder orderId db = Some o') by exact Ho'); congruence.
Qed.

Lemma order_status_steps_witness :
  Order.status (Order.with_status OrderStatus.CONFIRMED pendingOrder) =
    Order.status pendingOrder
  \/ order_edge (Order.status pendingOrder)
       (Order.status (Order.with_status OrderStatus.CONFIRMED pendingOrder)).
Proof.
  exact (order_status_steps (OpUpdateOrderStatus 1 OrderStatus.CONFIRMED) orderedDb 1
           pendingOrder (Order.with_status OrderStatus.CONFIRMED pendingOrder)
           ltac:(vm_compute; reflexivity) ltac:(vm_compute; reflexivity)).
Defined.

(** ** One active delivery per driver *)

Lemma delivery_by_id_unique (l : list Delivery.t) (x y : Delivery.t) :
  List.NoDup (map Delivery.id l) ->
  In x l -> In y l -> Delivery.id x = Delivery.id y -> x = y.
Proof.
  induction l as [|a l IH]; simpl; intros Hnd Hx Hy Hid; [contradiction|].
  inversion Hnd as [|i ids Hnotin Hnd']; subst.
  destruct Hx as [<-|Hx], Hy as [<-|Hy]; auto.
  - exfalso. apply Hnotin. rewrite Hid. apply in_map. exact Hy.
  - exfalso. apply Hnotin. rewrite <- Hid. apply in_map. exact Hx.
Qed.

Lemma filter_map_length {A : Type} (f : A -> A) (p q : A -> bool) (l : list A) :
  (forall x, In x l -> p (f x) = q x) ->
  length (List.filter p (map f l)) = length (List.filter q l).
Proof.
  induction l as [|a l IH]; simpl; intros H; [reflexivity|].
  rewrite (H a) by (left; reflexivity).
  destruct (q a); simpl; rewrite IH; auto.
Qed.

Lemma filter_length_le {A : Type} (p q : A -> bool) (l : list A) :
  (forall x, In x l -> q x = true -> p x = true) ->
  (length (List.filter q l) <= length (List.filter p l))%nat.
Proof.
  induction l as [|a l IH]; simpl; intros H; [lia|].
  assert (IH' := IH (fun x Hx => H x (or_intror Hx))).
  destruct (q a) eqn:Eq.
  - rewrite (H a (or_introl eq_refl) Eq). simpl. lia.
  - destruct (p a); simpl; lia.
Qed.

Lemma filter_nil_iff {A : Type} (p : A -> bool) (l : list A) :
  List.filter p l = [] <-> forall x, In x l -> p x = false.
Proof.
  induction l as [|a l IH]; simpl.
  - split; [intros _ x []|reflexivity].
  - destruct (p a) eqn:E.
    + split; [discriminate|]. intros H. specialize (H a (or_introl eq_refl)). congruence.
    + rewrite IH. split.
      * intros H x [<-|Hx]; auto.
      * intros H x Hx. apply H. right. exact Hx.
Qed.

Lemma filter_at_most_one {A : Type} (p : A -> bool) (l : list A) (x y : A) :
  (length (List.filter p l) <= 1)%nat ->
  In x l -> p x = true -> In y l -> p y = true -> x = y.
Proof.
  intros Hlen Hx Hpx Hy Hpy.
  assert (Hfx : In x (List.filter p l)) by (apply filter_In; auto).
  assert (Hfy : In y (List.filter p l)) by (apply filter_In; auto).
  destruct (List.filter p l) as [|a [|b rest]]; simpl in *;
    [contradiction| |lia].
  destruct Hfx as [<-|[]], Hfy as [<-|[]]. reflexivity.
Qed.

Lemma driverInvariant_same_deliveries (db db' : DB) :
  deliveries db' = deliveries db ->
  drivers db' = drivers db ->
  (nextId db <= nextId db')%nat ->
  driverInvariant db -> driverInvariant db'.
Proof.
  intros Hd Hdr Hn (Hnd & Hlt & Hone & Hbusy).
  unfold driverInvariant, activeDeliveries in *. rewrite Hd, Hdr.
  split; [exact Hnd|]. split; [|split; assumption].
  intros d Hin. specialize (Hlt d Hin). lia.
Qed.

Lemma driverInvariant_createOrder (user : string) (data : CreateOrderData) (db : DB) :
  driverInvariant db -> driverInvariant (after (createOrder user data db) db).
Proof.
  intros Hinv. unfold createOrder.
  destruct (findRestaurant (data_restaurantId data) db); [|exact Hinv].
  destruct (collectOrderItems user data db); [|exact Hinv].
  simpl. apply (driverInvariant_same_deliveries db); [| | |exact Hinv].
  - destruct (hasItems data); [reflexivity|].
    unfold clearCart, findCart; simpl. destruct (find _ (carts db)); reflexivity.
  - destruct (hasItems data); [reflexivity|].
    unfold clearCart, findCart; simpl. destruct (find _ (carts db)); reflexivity.
  - destruct (hasItems data); [simpl; lia|].
    unfold clearCart, findCart; simpl. destruct (find _ (carts db)); simpl; lia.
Qed.

Lemma driverInvariant_updateOrderStatus (orderId : nat) (s : OrderStatus.t) (db : DB) :
  driverInvariant db -> driverInvariant (after (updateOrderStatus orderId s db) db).
Proof.
  intros Hinv. unfold updateOrderStatus.
  destruct (findOrder orderId db); [|exact Hinv].
  destruct (negb _); [exact Hinv|]. simpl.
  apply (driverInvariant_same_deliveries db); auto.
Qed.

Lemma driverInvariant_cancelOrder (orderId : nat) (user : string) (db : DB) :
  driverInvariant db -> driverInvariant (after (cancelOrder orderId user db) db).
Proof.
  intros Hinv. unfold cancelOrder.
  destruct (findOrder orderId db) as [order|]; [|exact Hinv].
  destruct (negb (String.eqb (Order.userId order) user)); [exact Hinv|].
  destruct (negb _); [exact Hinv|].
  apply driverInvariant_updateOrderStatus. exact Hinv.
Qed.

Lemma driverInvariant_assigned (db db' : DB) (new : Delivery.t) (driverId : string)
    (driver : Driver.t) :
  driverInvariant db ->
  findDriver driverId db = Some driver ->
  Driver.isAvailable driver = true ->
  Delivery.id new = nextId db ->
  Delivery.driverId new = driverId ->
  deliveries db' = deliveries db ++ [new] ->
  drivers db' =
    map (fun d => if String.eqb (Driver.id d) driverId then setAvailable false d else d)
        (drivers db) ->
  nextId db' = S (nextId db) ->
  driverInvariant db'.
Proof.
  intros (Hnd & Hlt & Hone & Hbusy) Hfind Hav Hid Hdrv Hdel Hdrs Hnext.
  unfold findDriver in Hfind. apply find_some in Hfind.
  destruct Hfind as [Hin Heq]. apply String.eqb_eq in Heq.
  assert (Hfree : activeDeliveries driverId db = []).
  { destruct (activeDeliveries driverId db) eqn:E; [reflexivity|].
    rewrite <- Heq in E. assert (Hb := Hbusy driver Hin). rewrite E in Hb.
    specialize (Hb ltac:(discriminate)). congruence. }
  unfold driverInvariant, activeDeliveries in *. rewrite Hdel, Hdrs, Hnext.
  split; [|split; [|split]].
  - rewrite map_app. simpl. apply List.NoDup_app; [exact Hnd| |].
    + constructor; [intros []|constructor].
    + intros i Hi [<-|[]]. apply in_map_iff in Hi. destruct Hi as (d & Hd & Hdin).
      specialize (Hlt d Hdin). lia.
  - intros d Hd. apply in_app_or in Hd. destruct Hd as [Hd|[<-|[]]].
    + specialize (Hlt d Hd). lia.
    + lia.
  - intros did. rewrite List.filter_app, length_app. simpl.
    destruct (isActiveFor did new) eqn:Ea; simpl; [|specialize (Hone did); lia].
    unfold isActiveFor in Ea. apply andb_true_iff in Ea. destruct Ea as [Ea _].
    apply String.eqb_eq in Ea. rewrite Hdrv in Ea. subst did. rewrite Hfree. simpl. lia.
  - intros driver' Hin' Hact. apply in_map_iff in Hin'.
    destruct Hin' as (d & Hd & Hdin).
    destruct (String.eqb (Driver.id d) driverId) eqn:Ed; subst driver'; [reflexivity|].
    apply (Hbusy d Hdin). intros Hnil. apply Hact.
    rewrite List.filter_app, Hnil. simpl.
    unfold isActiveFor. rewrite Hdrv, String.eqb_sym, Ed. reflexivity.
Qed.

Lemma driverInvariant_assignDriver (orderId : nat) (driverId : string) (t : option Z)
    (db : DB) :
  driverInvariant db -> driverInvariant (after (assignDriver orderId driverId t db) db).
Proof.
  intros Hinv. unfold assignDriver.
  destruct (findOrder orderId db) as [order|]; [|exact Hinv].
  destruct (negb _ && negb _); [exact Hinv|].
  destruct (deliveryOfOrder orderId db); [exact Hinv|].
  destruct (findDriver driverId db) as [driver|] eqn:Edr; [|exact Hinv].
  destruct (Driver.isAvailable driver) eqn:Eav; [|exact Hinv].
  simpl.
  eapply (driverInvariant_assigned db _
            (Delivery.mk (nextId db) orderId driverId t DeliveryStatus.ASSIGNED None None));
    try eassumption; try reflexivity;
    destruct (OrderStatus.eqb (Order.status order) OrderStatus.PREPARING); reflexivity.
Qed.

(** What a status update does to the activity of a delivery row. *)
Lemma isActiveFor_updated (db : DB) (deliveryId : nat) (s : DeliveryStatus.t) (now : Z)
    (dl x : Delivery.t) (driverId : string) :
  List.NoDup (map Delivery.id (deliveries db)) ->
  findDelivery deliveryId db = Some dl ->
  DeliveryStatus.includes (DELIVERY_STATUS_TRANSITIONS (Delivery.status dl)) s = true ->
  In x (deliveries db) ->
  isActiveFor driverId
    (if Nat.eqb (Delivery.id x) deliveryId then applyDeliveryUpdate s now x else x) =
  isActiveFor driverId x
  && negb (DeliveryStatus.eqb s DeliveryStatus.DELIVERED
           && Nat.eqb (Delivery.id x) deliveryId).
Proof.
  intros Hnd Hfind Hallowed Hx.
  unfold findDelivery in Hfind. apply find_some in Hfind. destruct Hfind as [Hdl Hid].
  destruct (Nat.eqb (Delivery.id x) deliveryId) eqn:E.
  - apply Nat.eqb_eq in E, Hid.
    assert (x = dl) by (apply (delivery_by_id_unique (deliveries db)); congruence).
    subst x. unfold isActiveFor, applyDeliveryUpdate; simpl.
    destruct (Delivery.status dl), s; try discriminate Hallowed; simpl;
      rewrite ?andb_true_r, ?andb_false_r; reflexivity.
  - rewrite andb_false_r, andb_true_r. reflexivity.
Qed.

Lemma driverInvariant_updateDeliveryStatus (deliveryId : nat) (s : DeliveryStatus.t)
    (now : Z) (db : DB) :
  driverInvariant db ->
  driverInvariant (after (updateDeliveryStatus deliveryId s now db) db).
Proof.
  intros Hinv. unfold updateDeliveryStatus.
  destruct (findDelivery deliveryId db) as [dl|] eqn:Ef; [|exact Hinv].
  destruct (DeliveryStatus.includes _ s) eqn:Ei; [|exact Hinv].
  simpl.
  set (upd := fun d : Delivery.t =>
                if Nat.eqb (Delivery.id d) deliveryId
                then applyDeliveryUpdate s now d else d).
  set (db2 := if DeliveryStatus.eqb s DeliveryStatus.DELIVERED then _ else _).
  assert (Hdel : deliveries db2 = map upd (deliveries db))
    by (unfold db2; destruct (DeliveryStatus.eqb s DeliveryStatus.DELIVERED); reflexivity).
  assert (Hnext : nextId db2 = nextId db)
    by (unfold db2; destruct (DeliveryStatus.eqb s DeliveryStatus.DELIVERED); reflexivity).
  assert (Hdrs : drivers db2 =
                 if DeliveryStatus.eqb s DeliveryStatus.DELIVERED
                 then map (fun d => if String.eqb (Driver.id d) (Delivery.driverId dl)
                                    then completeDelivery d else d) (drivers db)
                 else drivers db)
    by (unfold db2; destruct (DeliveryStatus.eqb s DeliveryStatus.DELIVERED); reflexivity).
  clearbody db2.
  destruct Hinv as (Hnd & Hlt & Hone & Hbusy).
  assert (Hact := fun x driverId =>
            isActiveFor_updated db deliveryId s now dl x driverId Hnd Ef Ei).
  assert (Hids : map Delivery.id (map upd (deliveries db)) = map Delivery.id (deliveries db)).
  { rewrite map_map. apply map_ext. intros d. unfold upd.
    destruct (Nat.eqb (Delivery.id d) deliveryId); reflexivity. }
  (* the deliveries of a driver that are still active afterwards *)
  assert (Hstill : forall driverId,
             activeDeliveries driverId db2 <> [] ->
             exists x, In x (deliveries db) /\ isActiveFor driverId x = true /\
                       (DeliveryStatus.eqb s DeliveryStatus.DELIVERED
                        && Nat.eqb (Delivery.id x) deliveryId) = false).
  { intros driverId Hne. unfold activeDeliveries in Hne. rewrite Hdel in Hne.
    destruct (List.filter (isActiveFor driverId) (map upd (deliveries db)))
      as [|y ys] eqn:Efl; [contradiction|].
    assert (Hy : In y (List.filter (isActiveFor driverId) (map upd (deliveries db))))
      by (rewrite Efl; left; reflexivity).
    apply filter_In in Hy. destruct Hy as [Hy Hya].
    apply in_map_iff in Hy. destruct Hy as (x & <- & Hx).
    unfold upd in Hya. rewrite (Hact x driverId Hx) in Hya.
    apply andb_true_iff in Hya. destruct Hya as [Ha Hb].
    exists x. split; [exact Hx|]. split; [exact Ha|].
    apply negb_true_iff in Hb. exact Hb. }
  unfold driverInvariant. rewrite Hnext.
  split; [rewrite Hdel, Hids; exact Hnd|].
  split.
  { intros d Hd. rewrite Hdel in Hd. apply in_map_iff in Hd.
    destruct Hd as (x & <- & Hx). specialize (Hlt x Hx). unfold upd.
    destruct (Nat.eqb (Delivery.id x) deliveryId); exact Hlt. }
  split.
  { intros driverId. unfold activeDeliveries. rewrite Hdel.
    rewrite (filter_map_length upd (isActiveFor driverId)
               (fun x => isActiveFor driverId x
                         && negb (DeliveryStatus.eqb s DeliveryStatus.DELIVERED
                                  && Nat.eqb (Delivery.id x) deliveryId)))
      by (intros x Hx; apply Hact; exact Hx).
    etransitivity; [|apply (Hone driverId)].
    apply filter_length_le. intros x _ H. apply andb_true_iff in H. tauto. }
  intros driver' Hin' Hne.
  destruct (Hstill _ Hne) as (x & Hx & Hxa & Hxd).
  assert (Hbefore : activeDeliveries (Driver.id driver') db <> []).
  { unfold activeDeliveries. intros Hnil.
    rewrite filter_nil_iff in Hnil. specialize (Hnil x Hx). congruence. }
  rewrite Hdrs in Hin'.
  destruct (DeliveryStatus.eqb s DeliveryStatus.DELIVERED) eqn:Es;
    [|apply Hbusy; assumption].
  apply in_map_iff in Hin'. destruct Hin' as (d & Hd & Hdin).
  destruct (String.eqb (Driver.id d) (Delivery.driverId dl)) eqn:Ed.
  - (* the driver of the completed delivery: no other active delivery *)
    exfalso. subst driver'. simpl in *. apply String.eqb_eq in Ed.
    pose proof Ef as Ef'. unfold findDelivery in Ef'. apply find_some in Ef'.
    destruct Ef' as [Hdl Hdlid].
    assert (Hdla : isActiveFor (Driver.id d) dl = true).
    { unfold isActiveFor. rewrite Ed, String.eqb_refl.
      destruct (Delivery.status dl), s; try discriminate Ei; try discriminate Es;
        reflexivity. }
    assert (x = dl)
      by (apply (filter_at_most_one (isActiveFor (Driver.id d)) (deliveries db));
          auto; apply Hone).
    subst x. rewrite Hdlid in Hxd. discriminate Hxd.
  - subst driver'. apply Hbusy; assumption.
Qed.

Lemma driverInvariant_updateDriverAvailability (driverId : string) (b : bool) (db : DB) :
  quietOp db (OpUpdateDriverAvailability driverId b) ->
  driverInvariant db ->
  driverInvariant (after (updateDriverAvailability driverId b db) db).
Proof.
  intros Hquiet Hinv. unfold updateDriverAvailability.
  destruct (findDriver driverId db) as [driver|]; [|exact Hinv].
  destruct (if negb b then getActiveDelivery driverId db else None); [exact Hinv|].
  simpl. destruct Hinv as (Hnd & Hlt & Hone & Hbusy).
  split; [exact Hnd|]. split; [exact Hlt|]. split; [exact Hone|].
  intros driver' Hin' Hne. simpl in Hin'.
  apply in_map_iff in Hin'. destruct Hin' as (d & Hd & Hdin).
  destruct (String.eqb (Driver.id d) driverId) eqn:Ed; subst driver'.
  - simpl in *. apply String.eqb_eq in Ed. rewrite Ed in Hne.
    destruct b; [|reflexivity]. simpl in Hquiet. contradiction.
  - apply Hbusy; assumption.
Qed.

Lemma driverInvariant_step (op : Op) (db : DB) :
  quietOp db op -> driverInvariant db -> driverInvariant (step db op).
Proof.
  destruct op as [user data|target s|target user|target driverId t
                 |deliveryId s now|driverId b]; simpl; intros Hq Hinv.
  - apply driverInvariant_createOrder. exact Hinv.
  - apply driverInvariant_updateOrderStatus. exact Hinv.
  - apply driverInvariant_cancelOrder. exact Hinv.
  - apply driverInvariant_assignDriver. exact Hinv.
  - apply driverInvariant_updateDeliveryStatus. exact Hinv.
  - apply driverInvariant_updateDriverAvailability; assumption.
Qed.

(** X2. From a store where delivery ids are distinct, every driver has at
    most one active delivery and every driver with an active delivery is
    unavailable, these properties survive any sequence of service calls in
    which no driver is reported available while holding an active delivery;
    and in such a store, [assignDriver] naming a driver that has an active
    delivery fails. *)
Theorem one_active_delivery_while_quiet :
  (forall ops db,
      driverInvariant db -> quietRun ops db -> driverInvariant (run ops db))
  /\
  (forall db orderId driverId t,
      driverInvariant db ->
      activeDeliveries driverId db <> [] ->
      isOk (assignDriver orderId driverId t db) = false).
Proof.
  split.
  - intros ops. induction ops as [|op ops IH]; simpl; intros db Hinv Hq; [exact Hinv|].
    destruct Hq as [Hq Hrest]. apply IH; [|exact Hrest].
    apply driverInvariant_step; assumption.
  - intros db orderId driverId t (_ & _ & _ & Hbusy) Hact. unfold assignDriver.
    destruct (findOrder orderId db); [|reflexivity].
    destruct (negb _ && negb _); [reflexivity|].
    destruct (deliveryOfOrder orderId db); [reflexivity|].
    destruct (findDriver driverId db) as [driver|] eqn:Edr; [|reflexivity].
    unfold findDriver in Edr. apply find_some in Edr. destruct Edr as [Hin Heq].
    apply String.eqb_eq in Heq. rewrite <- Heq in Hact.
    rewrite (Hbusy driver Hin Hact). reflexivity.
Qed.

Lemma one_active_delivery_while_quiet_witness :
  driverInvariant (run confirmedThenDelivered sampleDb).
Proof.
  apply (proj1 one_active_delivery_while_quiet).
  - split; [constructor|]. split; [intros d []|]. split; [intros d; simpl; lia|].
    intros driver _ Hact. exfalso. apply Hact. reflexivity.
  - simpl. tauto.
Defined.

(** ** The delivery lifecycle *)

Lemma includes_delivery_edge (s s' : DeliveryStatus.t) :
  DeliveryStatus.includes (DELIVERY_STATUS_TRANSITIONS s) s' = true <->
  delivery_edge s s'.
Proof.
  split.
  - destruct s, s'; simpl; intros H; try discriminate H; constructor.
  - destruct 1; reflexivity.
Qed.

Lemma find_app_last {A : Type} (p : A -> bool) (l : list A) (x : A) :
  find p (l ++ [x]) =
  match find p l with
  | Some y => Some y
  | None => if p x then Some x else None
  end.
Proof.
  induction l as [|a l IH]; simpl; [reflexivity|].
  destruct (p a); [reflexivity|exact IH].
Qed.

(** [update({ where: { id } })] as seen by a later [findUnique]. *)
Lemma find_delivery_updated (deliveryId k : nat) (f : Delivery.t -> Delivery.t)
    (l : list Delivery.t) :
  (forall d, Delivery.id (f d) = Delivery.id d) ->
  find (fun d => Nat.eqb (Delivery.id d) k)
       (map (fun d => if Nat.eqb (Delivery.id d) deliveryId then f d else d) l) =
  if Nat.eqb k deliveryId
  then option_map f (find (fun d => Nat.eqb (Delivery.id d) k) l)
  else find (fun d => Nat.eqb (Delivery.id d) k) l.
Proof.
  intros Hid. induction l as [|a l IH]; simpl.
  - destruct (Nat.eqb k deliveryId); reflexivity.
  - destruct (Nat.eqb (Delivery.id a) deliveryId) eqn:Ea.
    + rewrite Hid. destruct (Nat.eqb (Delivery.id a) k) eqn:Ek.
      * apply Nat.eqb_eq in Ea, Ek. subst. rewrite Nat.eqb_refl. reflexivity.
      * exact IH.
    + destruct (Nat.eqb (Delivery.id a) k) eqn:Ek; [|exact IH].
      apply Nat.eqb_eq in Ek. subst k. rewrite Ea. reflexivity.
Qed.

(** The tables a successful [createOrder] leaves alone. *)
Lemma createOrder_frame (user : string) (data : CreateOrderData) (db db' : DB)
    (order : Order.t) :
  createOrder user data db = Ok (order, db') ->
  deliveries db' = deliveries db /\ drivers db' = drivers db /\
  nextId db' = S (nextId db).
Proof.
  unfold createOrder.
  destruct (findRestaurant (data_restaurantId data) db); [|discriminate].
  destruct (collectOrderItems user data db); [|discriminate].
  intros H. injection H as _ <-.
  destruct (hasItems data); [auto|].
  unfold clearCart, findCart; simpl. destruct (find _ (carts db)); auto.
Qed.

Lemma updateOrderStatus_frame (orderId : nat) (s : OrderStatus.t) (db db' : DB)
    (order : Order.t) :
  updateOrderStatus orderId s db = Ok (order, db') ->
  deliveries db' = deliveries db /\ drivers db' = drivers db /\
  nextId db' = nextId db.
Proof.
  unfold updateOrderStatus.
  destruct (findOrder orderId db); [|discriminate].
  destruct (negb _); [discriminate|].
  intros H. injection H as _ <-. auto.
Qed.

Lemma cancelOrder_frame (orderId : nat) (user : string) (db db' : DB)
    (order : Order.t) :
  cancelOrder orderId user db = Ok (order, db') ->
  deliveries db' = deliveries db /\ drivers db' = drivers db /\
  nextId db' = nextId db.
Proof.
  unfold cancelOrder.
  destruct (findOrder orderId db) as [o|]; [|discriminate].
  destruct (negb (String.eqb (Order.userId o) user)); [discriminate|].
  destruct (negb _); [discriminate|].
  apply updateOrderStatus_frame.
Qed.

(** What [assignDriver] writes. *)
Lemma assignDriver_effect (orderId : nat) (driverId : string) (t : option Z)
    (db db' : DB) (delivery : Delivery.t) :
  assignDriver orderId driverId t db = Ok (delivery, db') ->
  exists order driver,
    findOrder orderId db = Some order /\
    assignable (Order.status order) /\
    findDriver driverId db = Some driver /\
    Driver.isAvailable driver = true /\
    delivery =
      Delivery.mk (nextId db) orderId driverId t DeliveryStatus.ASSIGNED None None /\
    deliveries db' = deliveries db ++ [delivery] /\
    orders db' =
      (if OrderStatus.eqb (Order.status order) OrderStatus.PREPARING
       then orders (setOrderStatus orderId OrderStatus.ON_THE_WAY db)
       else orders db) /\
    drivers db' = drivers (updateDriverRow driverId (setAvailable false) db) /\
    nextId db' = S (nextId db).
Proof.
  unfold assignDriver.
  destruct (findOrder orderId db) as [order|]; [|discriminate].
  destruct (negb _ && negb _) eqn:Est; [discriminate|].
  destruct (deliveryOfOrder orderId db); [discriminate|].
  destruct (findDriver driverId db) as [driver|]; [|discriminate].
  destruct (Driver.isAvailable driver) eqn:Eav; [|discriminate].
  simpl. intros H. injection H as <- <-.
  exists order, driver. apply assignable_dec in Est.
  destruct (OrderStatus.eqb (Order.status order) OrderStatus.PREPARING);
    repeat split; auto.
Qed.

(** What a successful [updateDeliveryStatus] writes. *)
Lemma updateDeliveryStatus_effect (deliveryId : nat) (s : DeliveryStatus.t) (now : Z)
    (db : DB) (d : Delivery.t) :
  findDelivery deliveryId db = Some d ->
  delivery_edge (Delivery.status d) s ->
  exists db',
    updateDeliveryStatus deliveryId s now db = Ok (applyDeliveryUpdate s now d, db') /\
    deliveries db' =
      map (fun x => if Nat.eqb (Delivery.id x) deliveryId
                    then applyDeliveryUpdate s now x else x) (deliveries db) /\
    nextId db' = nextId db /\
    restaurants db' = restaurants db /\ menuItems db' = menuItems db /\
    carts db' = carts db /\ cartItems db' = cartItems db /\
    (s <> DeliveryStatus.DELIVERED ->
     orders db' = orders db /\ drivers db' = drivers db) /\
    (s = DeliveryStatus.DELIVERED ->
     orders db' =
       orders (setOrderStatus (Delivery.orderId d) OrderStatus.DELIVERED db) /\
     drivers db' =
       drivers (updateDriverRow (Delivery.driverId d) completeDelivery db)).
Proof.
  intros Hfind Hedge. apply includes_delivery_edge in Hedge.
  unfold updateDeliveryStatus. rewrite Hfind, Hedge. simpl.
  eexists. split; [reflexivity|].
  destruct s; simpl; repeat split; auto; try discriminate; try congruence.
Qed.

(** What a call does to the delivery a [findUnique] by id sees. *)
Lemma findDelivery_step (deliveryId : nat) (op : Op) (db : DB) :
  findDelivery deliveryId (step db op) = findDelivery deliveryId db
  \/
  (exists d s now,
      findDelivery deliveryId db = Some d /\
      delivery_edge (Delivery.status d) s /\
      findDelivery deliveryId (step db op) = Some (applyDeliveryUpdate s now d))
  \/
  (findDelivery deliveryId db = None /\
   exists orderId driverId t,
     findDelivery deliveryId (step db op) =
     Some (Delivery.mk deliveryId orderId driverId t DeliveryStatus.ASSIGNED None None)).
Proof.
  destruct op as [user data|target s|target user|target driverId t
                 |target s now|driverId b]; simpl.
  - left. destruct (createOrder user data db) as [[o db']|] eqn:E; [|reflexivity].
    apply createOrder_frame in E. destruct E as (Hd & _). simpl.
    unfold findDelivery. rewrite Hd. reflexivity.
  - left. destruct (updateOrderStatus target s db) as [[o db']|] eqn:E; [|reflexivity].
    apply updateOrderStatus_frame in E. destruct E as (Hd & _). simpl.
    unfold findDelivery. rewrite Hd. reflexivity.
  - left. destruct (cancelOrder target user db) as [[o db']|] eqn:E; [|reflexivity].
    apply cancelOrder_frame in E. destruct E as (Hd & _). simpl.
    unfold findDelivery. rewrite Hd. reflexivity.
  - destruct (assignDriver target driverId t db) as [[dl db']|] eqn:E;
      [|left; reflexivity].
    apply assignDriver_effect in E.
    destruct E as (order & driver & _ & _ & _ & _ & Hdl & Hd & _). simpl.
    unfold findDelivery. rewrite Hd, find_app_last.
    destruct (find _ (deliveries db)) as [y|] eqn:Ef; [left; reflexivity|].
    destruct (Nat.eqb (Delivery.id dl) deliveryId) eqn:Eid; [|left; reflexivity].
    right. right. split; [reflexivity|]. apply Nat.eqb_eq in Eid.
    exists target, driverId, t. subst dl. simpl in Eid. subst deliveryId. reflexivity.
  - destruct (findDelivery target db) as [dl|] eqn:Ef.
    + destruct (DeliveryStatus.includes
                  (DELIVERY_STATUS_TRANSITIONS (Delivery.status dl)) s) eqn:Ei.
      * apply includes_delivery_edge in Ei.
        destruct (updateDeliveryStatus_effect target s now db dl Ef Ei)
          as (db' & -> & Hd & _). simpl.
        assert (Hf : findDelivery deliveryId db' =
                     if Nat.eqb deliveryId target
                     then option_map (applyDeliveryUpdate s now)
                            (findDelivery deliveryId db)
                     else findDelivery deliveryId db).
        { unfold findDelivery. rewrite Hd. apply find_delivery_updated. reflexivity. }
        destruct (Nat.eqb deliveryId target) eqn:Eid; [|left; exact Hf].
        apply Nat.eqb_eq in Eid. subst target. right. left.
        exists dl, s, now. rewrite Hf, Ef. auto.
      * left. unfold updateDeliveryStatus. rewrite Ef, Ei. reflexivity.
    + left. unfold updateDeliveryStatus. rewrite Ef. reflexivity.
  - left. unfold updateDriverAvailability.
    destruct (findDriver driverId db); [|reflexivity].
    destruct (if negb b then getActiveDelivery driverId db else None); reflexivity.
Qed.

Lemma sameAssignment_refl (d : Delivery.t) : sameAssignment d d.
Proof. repeat split. Qed.

Lemma sameAssignment_trans (a b c : Delivery.t) :
  sameAssignment a b -> sameAssignment b c -> sameAssignment a c.
Proof. unfold sameAssignment. intuition congruence. Qed.

Lemma delivery_edge_stage (s s' : DeliveryStatus.t) :
  delivery_edge s s' -> stage s' = S (stage s).
Proof. destruct 1; reflexivity. Qed.

(** One call on a delivery that exists. *)
Lemma delivery_step (deliveryId : nat) (op : Op) (db : DB) (d : Delivery.t) :
  findDelivery deliveryId db = Some d ->
  exists d',
    findDelivery deliveryId (step db op) = Some d' /\
    sameAssignment d d' /\
    (d' = d \/ delivery_edge (Delivery.status d) (Delivery.status d')).
Proof.
  intros Hd.
  destruct (findDelivery_step deliveryId op db)
    as [H|[(d0 & s & now & H0 & Hedge & H)|(H0 & _)]].
  - exists d. rewrite H. auto using sameAssignment_refl.
  - rewrite Hd in H0. injection H0 as <-.
    exists (applyDeliveryUpdate s now d). split; [exact H|].
    split; [repeat split|]. right. exact Hedge.
  - congruence.
Qed.

(** X3. The status of a delivery only moves forward, one stage at a time:
    each call of the order and delivery services leaves a delivery row as it
    is or moves it along one edge of ASSIGNED, PICKED_UP, IN_TRANSIT,
    DELIVERED; the row keeps its order, driver and estimate; over any
    sequence of calls the stage never decreases, and a DELIVERED row never
    changes again. *)
Theorem delivery_lifecycle_is_linear (db : DB) (deliveryId : nat) (d : Delivery.t) :
  findDelivery deliveryId db = Some d ->
  (forall op, exists d',
      findDelivery deliveryId (step db op) = Some d' /\
      sameAssignment d d' /\
      (d' = d \/ delivery_edge (Delivery.status d) (Delivery.status d')))
  /\
  (forall ops, exists d',
      findDelivery deliveryId (run ops db) = Some d' /\
      sameAssignment d d' /\
      (stage (Delivery.status d) <= stage (Delivery.status d'))%nat /\
      (Delivery.status d = DeliveryStatus.DELIVERED -> d' = d)).
Proof.
  intros Hd. split; [intros op; apply delivery_step; exact Hd|].
  intros ops. revert db d Hd.
  induction ops as [|op ops IH]; intros db d Hd; simpl.
  - exists d. split; [exact Hd|]. split; [apply sameAssignment_refl|]. split; auto.
  - destruct (delivery_step deliveryId op db d Hd) as (d1 & H1 & Hsame1 & Hst).
    destruct (IH (step db op) d1 H1) as (d' & H' & Hsame' & Hle & Hfinal).
    exists d'. split; [exact H'|].
    split; [eapply sameAssignment_trans; eassumption|].
    destruct Hst as [->|Hedge]; [auto|].
    split; [apply delivery_edge_stage in Hedge; lia|].
    intros Hdel. rewrite Hdel in Hedge. inversion Hedge.
Qed.

Lemma timestamped_step (deliveryId : nat) (op : Op) (db : DB) (d' : Delivery.t) :
  (forall d, findDelivery deliveryId db = Some d -> timestamped d) ->
  findDelivery deliveryId (step db op) = Some d' -> timestamped d'.
Proof.
  intros Hinv H'.
  destruct (findDelivery_step deliveryId op db)
    as [H|[(d0 & s & now & H0 & Hedge & H)|(H0 & o & dr & t & H)]].
  - apply Hinv. congruence.
  - rewrite H in H'. injection H' as <-. specialize (Hinv d0 H0).
    destruct Hinv as [Hp Hdl]. unfold timestamped, applyDeliveryUpdate.
    inversion Hedge as [E1 E2|E1 E2|E1 E2]; subst s; simpl;
      rewrite <- E1 in Hp, Hdl; split; split; intros Hx; try discriminate;
      try congruence.
    + apply Hdl. discriminate.
    + exfalso. apply Hp in Hx. discriminate.
    + apply Hdl. discriminate.
    + exfalso. apply Hp in Hx. discriminate.
  - rewrite H in H'. injection H' as <-. split; simpl; split; auto; discriminate.
Qed.

(** X4. Timestamps follow the status: if every delivery of the store has a
    pickup time exactly when it is past ASSIGNED and a delivery time exactly
    when it is DELIVERED, the same holds after any sequence of calls of
    the order and delivery services. *)
Theorem delivery_timestamps_follow_status (ops : list Op) (db : DB) :
  (forall deliveryId d, findDelivery deliveryId db = Some d -> timestamped d) ->
  forall deliveryId d, findDelivery deliveryId (run ops db) = Some d -> timestamped d.
Proof.
  revert db. induction ops as [|op ops IH]; intros db Hinv; simpl; [exact Hinv|].
  apply IH. intros deliveryId d. apply timestamped_step. apply Hinv.
Qed.

(** ** A delivery from assignment to completion *)

Lemma findDelivery_updated (deliveryId other : nat) (s : DeliveryStatus.t) (now : Z)
    (db db' : DB) :
  deliveries db' =
    map (fun x => if Nat.eqb (Delivery.id x) deliveryId
                  then applyDeliveryUpdate s now x else x) (deliveries db) ->
  findDelivery other db' =
  if Nat.eqb other deliveryId
  then option_map (applyDeliveryUpdate s now) (findDelivery other db)
  else findDelivery other db.
Proof.
  intros Hd. unfold findDelivery. rewrite Hd. apply find_delivery_updated. reflexivity.
Qed.

Lemma findOrder_same_orders (orderId : nat) (db db' : DB) :
  orders db' = orders db -> findOrder orderId db' = findOrder orderId db.
Proof. intros H. unfold findOrder. rewrite H. reflexivity. Qed.

Lemma findDriver_same_drivers (driverId : string) (db db' : DB) :
  drivers db' = drivers db -> findDriver driverId db' = findDriver driverId db.
Proof. intros H. unfold findDriver. rewrite H. reflexivity. Qed.

(** X5. [updateDeliveryStatus] case by case: an unknown id is a NotFound
    error; any status but the direct successor of the current one is a
    BadRequest error naming both; the direct successor is written to the row
    together with a pickup time (PICKED_UP) or a delivery time (DELIVERED),
    no other delivery changes, and only the step to DELIVERED touches the
    order (its status becomes DELIVERED, its other columns stay) and the
    driver ([isAvailable] becomes true and [totalDeliveries] grows by one,
    id and user stay). *)
Theorem updateDeliveryStatus_spec (deliveryId : nat) (newStatus : DeliveryStatus.t)
    (now : Z) (db : DB) :
  (findDelivery deliveryId db = None ->
   updateDeliveryStatus deliveryId newStatus now db =
   Throw (NotFoundError "Delivery not found"))
  /\
  (forall d,
      findDelivery deliveryId db = Some d ->
      ~ delivery_edge (Delivery.status d) newStatus ->
      updateDeliveryStatus deliveryId newStatus now db =
      Throw (BadRequestError
               ("Cannot transition from " +:+ DeliveryStatus.name (Delivery.status d)
                +:+ " to " +:+ DeliveryStatus.name newStatus)))
  /\
  (forall d,
      findDelivery deliveryId db = Some d ->
      delivery_edge (Delivery.status d) newStatus ->
      exists updated db',
        updateDeliveryStatus deliveryId newStatus now db = Ok (updated, db') /\
        findDelivery deliveryId db' = Some updated /\
        sameAssignment d updated /\
        Delivery.status updated = newStatus /\
        Delivery.pickupTime updated =
          (if DeliveryStatus.eqb newStatus DeliveryStatus.PICKED_UP
           then Some now else Delivery.pickupTime d) /\
        Delivery.deliveryTime updated =
          (if DeliveryStatus.eqb newStatus DeliveryStatus.DELIVERED
           then Some now else Delivery.deliveryTime d) /\
        (forall other,
            other <> deliveryId -> findDelivery other db' = findDelivery other db) /\
        (newStatus <> DeliveryStatus.DELIVERED ->
         orders db' = orders db /\ drivers db' = drivers db) /\
        (newStatus = DeliveryStatus.DELIVERED ->
         (forall o,
             findOrder (Delivery.orderId d) db = Some o ->
             exists o',
               findOrder (Delivery.orderId d) db' = Some o' /\
               Order.status o' = OrderStatus.DELIVERED /\
               sameExceptStatus o o') /\
         (findOrder (Delivery.orderId d) db = None ->
          findOrder (Delivery.orderId d) db' = None) /\
         (forall other,
             other <> Delivery.orderId d -> findOrder other db' = findOrder other db) /\
         (forall driver,
             findDriver (Delivery.driverId d) db = Some driver ->
             findDriver (Delivery.driverId d) db' =
             Some (Driver.mk (Driver.id driver) (Driver.userId driver) true
                     (Driver.totalDeliveries driver + 1))) /\
         (findDriver (Delivery.driverId d) db = None ->
          findDriver (Delivery.driverId d) db' = None) /\
         (forall other,
             other <> Delivery.driverId d ->
             findDriver other db' = findDriver other db)) /\
        restaurants db' = restaurants db /\ menuItems db' = menuItems db /\
        carts db' = carts db /\ cartItems db' = cartItems db).
Proof.
  split; [|split].
  - intros Hnone. unfold updateDeliveryStatus. rewrite Hnone. reflexivity.
  - intros d Hd Hno. unfold updateDeliveryStatus. rewrite Hd.
    destruct (DeliveryStatus.includes _ newStatus) eqn:Ei; [|reflexivity].
    apply includes_delivery_edge in Ei. contradiction.
  - intros d Hd Hedge.
    destruct (updateDeliveryStatus_effect deliveryId newStatus now db d Hd Hedge)
      as (db' & Hcall & Hdel & _ & Hr & Hm & Hc & Hci & Hother & Hdone).
    exists (applyDeliveryUpdate newStatus now d), db'.
    split; [exact Hcall|].
    split.
    { rewrite (findDelivery_updated _ _ _ _ _ _ Hdel), Nat.eqb_refl, Hd. reflexivity. }
    split; [repeat split|]. split; [reflexivity|].
    split; [reflexivity|].
    split; [destruct newStatus; reflexivity|].
    split.
    { intros other Hne. rewrite (findDelivery_updated _ _ _ _ _ _ Hdel).
      apply Nat.eqb_neq in Hne. rewrite Hne. reflexivity. }
    split; [exact Hother|].
    split; [|auto].
    intros Hs. destruct (Hdone Hs) as [Ho Hdr].
    assert (HfO : forall other,
               findOrder other db' =
               if Nat.eqb other (Delivery.orderId d)
               then option_map (Order.with_status OrderStatus.DELIVERED)
                      (findOrder other db)
               else findOrder other db).
    { intros other. unfold findOrder at 1. rewrite Ho.
      exact (findOrder_setOrderStatus (Delivery.orderId d) other
               OrderStatus.DELIVERED db). }
    assert (HfD : forall other,
               findDriver other db' =
               if String.eqb other (Delivery.driverId d)
               then option_map completeDelivery (findDriver other db)
               else findDriver other db).
    { intros other. unfold findDriver at 1. rewrite Hdr.
      exact (findDriver_updateDriverRow (Delivery.driverId d) other completeDelivery
               db ltac:(reflexivity)). }
    split.
    { intros o Hfo. rewrite HfO, Nat.eqb_refl, Hfo. simpl.
      eexists. split; [reflexivity|]. split; [reflexivity|]. repeat split. }
    split; [intros Hfo; rewrite HfO, Nat.eqb_refl, Hfo; reflexivity|].
    split.
    { intros other Hne. rewrite HfO. apply Nat.eqb_neq in Hne. rewrite Hne.
      reflexivity. }
    split; [intros driver Hfd; rewrite HfD, String.eqb_refl, Hfd; reflexivity|].
    split; [intros Hfd; rewrite HfD, String.eqb_refl, Hfd; reflexivity|].
    intros other Hne. rewrite HfD. apply String.eqb_neq in Hne. rewrite Hne.
    reflexivity.
Qed.

Lemma find_fresh_delivery (db : DB) :
  (forall d, In d (deliveries db) -> (Delivery.id d < nextId db)%nat) ->
  findDelivery (nextId db) db = None.
Proof.
  intros Hlt. unfold findDelivery.
  destruct (find _ (deliveries db)) as [d|] eqn:E; [|reflexivity].
  apply find_some in E. destruct E as [Hin Hid]. apply Nat.eqb_eq in Hid.
  specialize (Hlt d Hin). lia.
Qed.

(** An available driver holds no active delivery. *)
Lemma idle_when_available (db : DB) (driverId : string) (driver : Driver.t) :
  driverInvariant db ->
  findDriver driverId db = Some driver ->
  Driver.isAvailable driver = true ->
  activeDeliveries driverId db = [].
Proof.
  intros (_ & _ & _ & Hbusy) Hfind Hav.
  unfold findDriver in Hfind. apply find_some in Hfind. destruct Hfind as [Hin Heq].
  apply String.eqb_eq in Heq. subst driverId.
  destruct (activeDeliveries (Driver.id driver) db) eqn:E; [reflexivity|].
  rewrite (Hbusy driver Hin) in Hav; [discriminate|]. rewrite E. discriminate.
Qed.

(** One status report on a delivery that may take it. *)
Lemma report_step (deliveryId : nat) (s : DeliveryStatus.t) (now : Z) (db : DB)
    (d : Delivery.t) :
  findDelivery deliveryId db = Some d ->
  delivery_edge (Delivery.status d) s ->
  findDelivery deliveryId (step db (OpUpdateDeliveryStatus deliveryId s now)) =
    Some (applyDeliveryUpdate s now d) /\
  (s <> DeliveryStatus.DELIVERED ->
   orders (step db (OpUpdateDeliveryStatus deliveryId s now)) = orders db /\
   drivers (step db (OpUpdateDeliveryStatus deliveryId s now)) = drivers db) /\
  (s = DeliveryStatus.DELIVERED ->
   orders (step db (OpUpdateDeliveryStatus deliveryId s now)) =
     orders (setOrderStatus (Delivery.orderId d) OrderStatus.DELIVERED db) /\
   drivers (step db (OpUpdateDeliveryStatus deliveryId s now)) =
     drivers (updateDriverRow (Delivery.driverId d) completeDelivery db)).
Proof.
  intros Hd Hedge.
  destruct (updateDeliveryStatus_effect deliveryId s now db d Hd Hedge)
    as (db' & Hcall & Hdel & _ & _ & _ & _ & _ & Hother & Hdone).
  simpl. rewrite Hcall. simpl. split; [|split; assumption].
  rewrite (findDelivery_updated _ _ _ _ _ _ Hdel), Nat.eqb_refl, Hd. reflexivity.
Qed.

(** X6. A delivery that is assigned and reported PICKED_UP, IN_TRANSIT and
    DELIVERED in turn ends DELIVERED with the pickup and delivery instants
    of the first and last report; its order ends DELIVERED; the driver is
    unavailable after the assignment, with exactly this delivery active and
    the delivery count as it was, and at the end has [isAvailable] true, a
    [totalDeliveries] one higher than before and no active delivery. *)
Theorem delivery_round_releases_driver (db db1 : DB) (orderId : nat)
    (driverId : string) (t : option Z) (delivery : Delivery.t) (t1 t2 t3 : Z) :
  driverInvariant db ->
  assignDriver orderId driverId t db = Ok (delivery, db1) ->
  let db4 := run (deliveryReports (Delivery.id delivery) t1 t2 t3) db1 in
  findDelivery (Delivery.id delivery) db4 =
    Some (Delivery.mk (Delivery.id delivery) orderId driverId t
            DeliveryStatus.DELIVERED (Some t1) (Some t3)) /\
  option_map Order.status (findOrder orderId db4) = Some OrderStatus.DELIVERED /\
  (exists driver,
      findDriver driverId db = Some driver /\
      findDriver driverId db1 =
        Some (Driver.mk (Driver.id driver) (Driver.userId driver) false
                (Driver.totalDeliveries driver)) /\
      findDriver driverId db4 =
        Some (Driver.mk (Driver.id driver) (Driver.userId driver) true
                (Driver.totalDeliveries driver + 1))) /\
  activeDeliveries driverId db1 = [delivery] /\
  activeDeliveries driverId db4 = [].
Proof.
  intros Hinv Hassign db4.
  pose proof (driverInvariant_assignDriver orderId driverId t db Hinv) as Hinv1.
  rewrite Hassign in Hinv1. simpl in Hinv1.
  destruct (assignDriver_effect _ _ _ _ _ _ Hassign)
    as (order & driver & Ho & _ & Hdr & Hav & Hdl & Hdels & Hords & Hdrs & _).
  assert (Hidle : activeDeliveries driverId db = [])
    by (eapply idle_when_available; eassumption).
  (* the new delivery, as a later lookup sees it *)
  assert (Hf1 : findDelivery (Delivery.id delivery) db1 = Some delivery).
  { unfold findDelivery. rewrite Hdels, find_app_last.
    replace (Delivery.id delivery) with (nextId db) by (subst delivery; reflexivity).
    pose proof (find_fresh_delivery db (proj1 (proj2 Hinv))) as Hfresh.
    unfold findDelivery in Hfresh. rewrite Hfresh.
    subst delivery. simpl. rewrite Nat.eqb_refl. reflexivity. }
  set (id := Delivery.id delivery) in *.
  set (db2 := step db1 (OpUpdateDeliveryStatus id DeliveryStatus.PICKED_UP t1)).
  set (db3 := step db2 (OpUpdateDeliveryStatus id DeliveryStatus.IN_TRANSIT t2)).
  assert (Hdb4 : db4 = step db3 (OpUpdateDeliveryStatus id DeliveryStatus.DELIVERED t3))
    by reflexivity.
  assert (Hst : Delivery.status delivery = DeliveryStatus.ASSIGNED)
    by (subst delivery; reflexivity).
  destruct (report_step id DeliveryStatus.PICKED_UP t1 db1 delivery Hf1)
    as (Hf2 & Hsame2 & _); [rewrite Hst; constructor|].
  fold db2 in Hf2, Hsame2.
  destruct (Hsame2 ltac:(discriminate)) as [Ho2 Hd2].
  destruct (report_step id DeliveryStatus.IN_TRANSIT t2 db2 _ Hf2)
    as (Hf3 & Hsame3 & _); [constructor|].
  fold db3 in Hf3, Hsame3.
  destruct (Hsame3 ltac:(discriminate)) as [Ho3 Hd3].
  destruct (report_step id DeliveryStatus.DELIVERED t3 db3 _ Hf3)
    as (Hf4 & _ & Hdone); [constructor|].
  rewrite <- Hdb4 in Hf4, Hdone.
  destruct (Hdone eq_refl) as [Ho4 Hd4]. clear Hsame2 Hsame3 Hdone.
  assert (Hoid : Delivery.orderId delivery = orderId) by (subst delivery; reflexivity).
  assert (Hdid : Delivery.driverId delivery = driverId) by (subst delivery; reflexivity).
  simpl in Ho4, Hd4. rewrite Hoid in Ho4. rewrite Hdid in Hd4.
  (* the driver row after the assignment and after the last report *)
  assert (Hdr1 : findDriver driverId db1 = Some (setAvailable false driver)).
  { unfold findDriver. rewrite Hdrs.
    change (findDriver driverId (updateDriverRow driverId (setAvailable false) db) =
            Some (setAvailable false driver)).
    rewrite findDriver_updateDriverRow by reflexivity.
    rewrite String.eqb_refl, Hdr. reflexivity. }
  assert (Hdr4 : findDriver driverId db4 = Some (completeDelivery driver)).
  { unfold findDriver. rewrite Hd4.
    change (findDriver driverId (updateDriverRow driverId completeDelivery db3) =
            Some (completeDelivery driver)).
    rewrite findDriver_updateDriverRow by reflexivity.
    rewrite String.eqb_refl.
    rewrite (findDriver_same_drivers driverId db2 db3 Hd3).
    rewrite (findDriver_same_drivers driverId db1 db2 Hd2).
    rewrite Hdr1. reflexivity. }
  split.
  { rewrite Hf4. subst delivery. reflexivity. }
  split.
  { unfold findOrder. rewrite Ho4.
    change (option_map Order.status
              (findOrder orderId (setOrderStatus orderId OrderStatus.DELIVERED db3)) =
            Some OrderStatus.DELIVERED).
    rewrite findOrder_setOrderStatus, Nat.eqb_refl.
    rewrite (findOrder_same_orders orderId db2 db3 Ho3).
    rewrite (findOrder_same_orders orderId db1 db2 Ho2).
    assert (Ho1 : exists o1, findOrder orderId db1 = Some o1).
    { unfold findOrder. rewrite Hords.
      destruct (OrderStatus.eqb (Order.status order) OrderStatus.PREPARING).
      - change (exists o1,
                   findOrder orderId
                     (setOrderStatus orderId OrderStatus.ON_THE_WAY db) = Some o1).
        rewrite findOrder_setOrderStatus, Nat.eqb_refl, Ho. simpl. eauto.
      - exists order. exact Ho. }
    destruct Ho1 as [o1 ->]. reflexivity. }
  split; [exists driver; auto|].
  split.
  { unfold activeDeliveries in *. rewrite Hdels, List.filter_app, Hidle.
    subst delivery. simpl. unfold isActiveFor. simpl.
    rewrite String.eqb_refl. reflexivity. }
  assert (Hinv4 : driverInvariant db4).
  { rewrite Hdb4. repeat (apply driverInvariant_step; [exact I|]). exact Hinv1. }
  eapply idle_when_available; [exact Hinv4|exact Hdr4|reflexivity].
Qed.

(** ** Cancelling and reading orders *)

Lemma cancelled_is_final (orderId : nat) (s : OrderStatus.t) (db : DB) (o : Order.t) :
  findOrder orderId db = Some o ->
  Order.status o = OrderStatus.CANCELLED ->
  isOk (updateOrderStatus orderId s db) = false.
Proof.
  intros Ho Hst. unfold updateOrderStatus. rewrite Ho, Hst. reflexivity.
Qed.

(** X7. [cancelOrder] case by case: an order that does not exist and an
    order of another customer give the same NotFound error; the customer's
    own order past CONFIRMED gives a BadRequest error; a PENDING or
    CONFIRMED one becomes CANCELLED, nothing else in the store changes, and
    afterwards every further status update or cancellation of it fails. *)
Theorem cancelOrder_spec (orderId : nat) (user : string) (db : DB) :
  (findOrder orderId db = None ->
   cancelOrder orderId user db = Throw (NotFoundError "Order not found"))
  /\
  (forall o,
      findOrder orderId db = Some o ->
      (Order.userId o <> user ->
       cancelOrder orderId user db = Throw (NotFoundError "Order not found"))
      /\
      (Order.userId o = user ->
       Order.status o <> OrderStatus.PENDING ->
       Order.status o <> OrderStatus.CONFIRMED ->
       cancelOrder orderId user db =
       Throw (BadRequestError "Order cannot be cancelled at this stage"))
      /\
      (Order.userId o = user ->
       Order.status o = OrderStatus.PENDING \/ Order.status o = OrderStatus.CONFIRMED ->
       exists db',
         cancelOrder orderId user db =
           Ok (Order.with_status OrderStatus.CANCELLED o, db') /\
         findOrder orderId db' = Some (Order.with_status OrderStatus.CANCELLED o) /\
         (forall other, other <> orderId -> findOrder other db' = findOrder other db) /\
         sameExceptOrders db db' /\
         (forall s, isOk (updateOrderStatus orderId s db') = false) /\
         isOk (cancelOrder orderId user db') = false)).
Proof.
  split.
  - intros Hnone. unfold cancelOrder. rewrite Hnone. reflexivity.
  - intros o Ho. split; [|split].
    + intros Hne. unfold cancelOrder. rewrite Ho.
      apply String.eqb_neq in Hne. rewrite Hne. reflexivity.
    + intros Hu Hp Hc. unfold cancelOrder. rewrite Ho.
      apply String.eqb_eq in Hu. rewrite Hu. simpl.
      destruct (Order.status o); try reflexivity; congruence.
    + intros Hu Hst. unfold cancelOrder. rewrite Ho.
      pose proof Hu as Hu'. apply String.eqb_eq in Hu'. rewrite Hu'. cbn [negb].
      assert (Hcheck : negb (OrderStatus.includes
                               [OrderStatus.PENDING; OrderStatus.CONFIRMED]
                               (Order.status o)) = false)
        by (destruct Hst as [-> | ->]; reflexivity).
      rewrite Hcheck.
      assert (Hedge : OrderStatus.includes (STATUS_TRANSITIONS (Order.status o))
                        OrderStatus.CANCELLED = true)
        by (destruct Hst as [-> | ->]; reflexivity).
      unfold updateOrderStatus at 1. rewrite Ho, Hedge. simpl.
      eexists. split; [reflexivity|].
      assert (Hafter : findOrder orderId (setOrderStatus orderId OrderStatus.CANCELLED db)
                       = Some (Order.with_status OrderStatus.CANCELLED o))
        by (rewrite findOrder_setOrderStatus, Nat.eqb_refl, Ho; reflexivity).
      split; [exact Hafter|].
      split.
      { intros other Hne. rewrite findOrder_setOrderStatus.
        apply Nat.eqb_neq in Hne. rewrite Hne. reflexivity. }
      split; [repeat split|].
      split.
      { intros s. eapply cancelled_is_final; [exact Hafter|reflexivity]. }
      unfold cancelOrder. rewrite Hafter. simpl. rewrite Hu'. reflexivity.
Qed.

(** X8. Reading an order through the controller: a customer (with a
    non-empty user id) gets an order exactly when it exists and is their
    own, and somebody else's order is answered like a missing one; every
    other role gets any existing order; and on the service method an empty
    user id switches the ownership check off. The answer carries the order
    row and the delivery of that order. *)
Theorem getOrderById_ownership (orderId : nat) (db : DB) :
  (forall user,
      user <> "" ->
      (forall o,
          findOrder orderId db = Some o ->
          Order.userId o = user ->
          controller_getOrderById CUSTOMER user orderId db =
          Ok (o, deliveryOfOrder (Order.id o) db))
      /\
      ((findOrder orderId db = None \/
        exists o, findOrder orderId db = Some o /\ Order.userId o <> user) ->
       controller_getOrderById CUSTOMER user orderId db =
       Throw (NotFoundError "Order not found")))
  /\
  (forall role user o,
      role <> CUSTOMER ->
      findOrder orderId db = Some o ->
      controller_getOrderById role user orderId db =
      Ok (o, deliveryOfOrder (Order.id o) db))
  /\
  (forall o,
      findOrder orderId db = Some o ->
      getOrderById orderId (Some "") db = Ok (o, deliveryOfOrder (Order.id o) db)).
Proof.
  split; [|split].
  - intros user Hne. apply String.eqb_neq in Hne. split.
    + intros o Ho Hu. unfold controller_getOrderById, getOrderById. rewrite Ho.
      simpl. rewrite Hu, String.eqb_refl, andb_false_r. reflexivity.
    + intros [Hnone|(o & Ho & Hu)]; unfold controller_getOrderById, getOrderById.
      * rewrite Hnone. reflexivity.
      * rewrite Ho. simpl. apply String.eqb_neq in Hu. rewrite Hne, Hu. reflexivity.
  - intros role user o Hrole Ho. unfold controller_getOrderById, getOrderById.
    rewrite Ho. destruct role; [contradiction| | |]; reflexivity.
  - intros o Ho. unfold getOrderById. rewrite Ho. reflexivity.
Qed.

(** ** What an order can contain *)

Lemma orderItemsOfInput_orderable (restaurantId : string) (db : DB)
    (l : list OrderItemInput) :
  (isOk (orderItemsOfInput restaurantId db l) = true <->
   Forall (fun i => orderable db restaurantId (in_menuItemId i)) l)
  /\
  (forall orderItems,
      orderItemsOfInput restaurantId db l = Ok orderItems ->
      map lineContent orderItems = map inputContent l).
Proof.
  induction l as [|item rest [IHok IHmap]]; simpl.
  - split; [split; auto|]. intros ois H. injection H as <-. reflexivity.
  - destruct (findMenuItem (in_menuItemId item) db) as [m|] eqn:Em.
    + destruct (MenuItem.isAvailable m) eqn:Eav; simpl.
      * destruct (String.eqb (MenuItem.restaurantId m) restaurantId) eqn:Er; simpl.
        -- destruct (orderItemsOfInput restaurantId db rest) as [ois|e]; simpl.
           ++ split.
              ** split; [intros _|reflexivity]. constructor; [|apply IHok; reflexivity].
                 exists m. apply String.eqb_eq in Er. auto.
              ** intros ois' H. injection H as <-. simpl.
                 rewrite (IHmap ois eq_refl). reflexivity.
           ++ split; [|discriminate].
              split; [discriminate|]. intros H. inversion H; subst.
              apply IHok. assumption.
        -- split; [|discriminate]. split; [discriminate|].
           intros H. inversion H as [|? ? (m' & Hm' & _ & Hr') _]; subst.
           rewrite Em in Hm'. injection Hm' as <-.
           apply String.eqb_neq in Er. contradiction.
      * split; [|discriminate]. split; [discriminate|].
        intros H. inversion H as [|? ? (m' & Hm' & Hav' & _) _]; subst.
        rewrite Em in Hm'. injection Hm' as <-. congruence.
    + split; [|discriminate]. split; [discriminate|].
      intros H. inversion H as [|? ? (m' & Hm' & _) _]; subst. congruence.
Qed.

Lemma orderItemsOfCart_rows (restaurantId : string)
    (rows : list (CartItem.t * MenuItem.t)) (orderItems : list OrderItem.t) :
  orderItemsOfCart restaurantId rows = Ok orderItems ->
  Forall (fun row => MenuItem.isAvailable (snd row) = true /\
                     MenuItem.restaurantId (snd row) = restaurantId) rows /\
  map OrderItem.menuItemId orderItems =
  map (fun row => CartItem.menuItemId (fst row)) rows.
Proof.
  revert orderItems. induction rows as [|[ci m] rows IH]; simpl; intros ois.
  - intros H. injection H as <-. auto.
  - destruct (String.eqb (MenuItem.restaurantId m) restaurantId) eqn:Er;
      [|discriminate]. simpl.
    destruct (MenuItem.isAvailable m) eqn:Eav; [|discriminate]. simpl.
    destruct (orderItemsOfCart restaurantId rows) as [ois'|e]; [|discriminate].
    intros H. injection H as <-. destruct (IH ois' eq_refl) as [Hall Hmap].
    apply String.eqb_eq in Er. split; [constructor; auto|].
    simpl. rewrite Hmap. reflexivity.
Qed.

Lemma orderItemsOfCart_orderable (restaurantId : string) (db : DB)
    (rows : list (CartItem.t * MenuItem.t)) (orderItems : list OrderItem.t) :
  Forall (fun row => findMenuItem (CartItem.menuItemId (fst row)) db = Some (snd row))
         rows ->
  orderItemsOfCart restaurantId rows = Ok orderItems ->
  Forall (fun i => orderable db restaurantId (OrderItem.menuItemId i)) orderItems.
Proof.
  intros Hjoin Hok. destruct (orderItemsOfCart_rows _ _ _ Hok) as [Hrows Hmap].
  apply List.Forall_forall. intros i Hi.
  assert (Hin : In (OrderItem.menuItemId i) (map OrderItem.menuItemId orderItems))
    by (apply in_map; exact Hi).
  rewrite Hmap in Hin. apply in_map_iff in Hin. destruct Hin as (row & Hrow & Hin).
  rewrite List.Forall_forall in Hjoin, Hrows.
  specialize (Hjoin row Hin). destruct (Hrows row Hin) as [Hav Hr].
  exists (snd row). rewrite <- Hrow. auto.
Qed.

Lemma collectOrderItems_orderable (user : string) (data : CreateOrderData) (db : DB)
    (orderItems : list OrderItem.t) :
  collectOrderItems user data db = Ok orderItems ->
  Forall (fun i => orderable db (data_restaurantId data) (OrderItem.menuItemId i))
         orderItems.
Proof.
  unfold collectOrderItems.
  assert (Hinput : forall l,
             orderItemsOfInput (data_restaurantId data) db l = Ok orderItems ->
             Forall (fun i => orderable db (data_restaurantId data)
                                (OrderItem.menuItemId i)) orderItems).
  { intros l Hok.
    destruct (orderItemsOfInput_orderable (data_restaurantId data) db l) as [Hiff Hmap].
    assert (Hall : Forall (fun i => orderable db (data_restaurantId data)
                                      (in_menuItemId i)) l)
      by (apply Hiff; rewrite Hok; reflexivity).
    specialize (Hmap _ Hok).
    apply List.Forall_forall. intros i Hi.
    assert (Hin : In (lineContent i) (map inputContent l))
      by (rewrite <- Hmap; apply in_map; exact Hi).
    apply in_map_iff in Hin. destruct Hin as (x & Hx & Hin).
    rewrite List.Forall_forall in Hall. specialize (Hall x Hin).
    unfold lineContent, inputContent in Hx. injection Hx as Hid _ _.
    rewrite <- Hid. exact Hall. }
  assert (Hcart : (match findCart user db with
                   | None => Throw (BadRequestError "Cart is empty")
                   | Some cart =>
                       match itemsOfCart (Cart.id cart) db with
                       | [] => Throw (BadRequestError "Cart is empty")
                       | _ :: _ =>
                           orderItemsOfCart (data_restaurantId data)
                             (cartRowsWithMenu (Cart.id cart) db)
                       end
                   end) = Ok orderItems ->
                  Forall (fun i => orderable db (data_restaurantId data)
                                     (OrderItem.menuItemId i)) orderItems).
  { destruct (findCart user db) as [cart|]; [|discriminate].
    destruct (itemsOfCart (Cart.id cart) db) eqn:E; [discriminate|].
    apply orderItemsOfCart_orderable. apply cartRowsWithMenu_joined. }
  destruct (data_items data) as [[|item rest]|]; [exact Hcart|apply Hinput|exact Hcart].
Qed.

(** X9. Every order [createOrder] stores is PENDING, belongs to the caller
    and to the requested restaurant, which exists, and each of its lines
    names a menu item that exists, is available and belongs to that
    restaurant, whether the lines come from the request or from the cart;
    the order is appended to the orders and no delivery or driver changes. *)
Theorem createOrder_lines_are_orderable (user : string) (data : CreateOrderData)
    (db db' : DB) (order : Order.t) :
  createOrder user data db = Ok (order, db') ->
  findRestaurant (data_restaurantId data) db <> None /\
  Forall (fun i => orderable db (data_restaurantId data) (OrderItem.menuItemId i))
         (Order.items order) /\
  Order.status order = OrderStatus.PENDING /\
  Order.userId order = user /\
  Order.restaurantId order = data_restaurantId data /\
  Order.deliveryAddress order = data_deliveryAddress data /\
  Order.notes order = data_notes data /\
  Order.id order = nextId db /\
  orders db' = orders db ++ [order] /\
  deliveries db' = deliveries db /\ drivers db' = drivers db /\
  menuItems db' = menuItems db.
Proof.
  intros Hok.
  destruct (createOrder_frame _ _ _ _ _ Hok) as (Hd & Hdr & _).
  destruct (createOrder_effect _ _ _ _ _ Hok) as (_ & Hm & _ & Ho & _).
  unfold createOrder in Hok.
  destruct (findRestaurant (data_restaurantId data) db) eqn:Er; [|discriminate].
  destruct (collectOrderItems user data db) as [ois|] eqn:Ec; [|discriminate].
  injection Hok as <- _. simpl.
  split; [discriminate|].
  split; [eapply collectOrderItems_orderable; exact Ec|].
  repeat split; auto.
Qed.

(** X10. With a non-empty item list in the request, [createOrder] succeeds
    exactly when the restaurant exists and every listed menu item exists, is
    available and belongs to it; the order then carries the request's lines
    (menu item, quantity, notes) in the request's order, and the carts are
    left as they were. *)
Theorem createOrder_explicit_items (user restaurantId address : string)
    (notes : option string) (item : OrderItemInput) (rest : list OrderItemInput)
    (db : DB) :
  let data := mkCreateOrderData restaurantId address notes (Some (item :: rest)) in
  (isOk (createOrder user data db) = true <->
   findRestaurant restaurantId db <> None /\
   Forall (fun i => orderable db restaurantId (in_menuItemId i)) (item :: rest))
  /\
  (forall order db',
      createOrder user data db = Ok (order, db') ->
      map lineContent (Order.items order) = map inputContent (item :: rest) /\
      carts db' = carts db /\ cartItems db' = cartItems db).
Proof.
  intros data.
  destruct (orderItemsOfInput_orderable restaurantId db (item :: rest)) as [Hiff Hmap].
  split.
  - rewrite isOk_createOrder. unfold data; cbn [data_restaurantId].
    unfold collectOrderItems; cbn [data_items data_restaurantId].
    destruct (findRestaurant restaurantId db).
    + rewrite Hiff. split; [intros H; split; [discriminate|exact H]|tauto].
    + split; [discriminate|]. intros [H _]. contradiction.
  - intros order db' Hok.
    destruct (createOrder_effect _ _ _ _ _ Hok) as (_ & _ & Hc & _ & Hci).
    split; [|split; [exact Hc|exact Hci]].
    unfold createOrder in Hok. cbn [data data_restaurantId] in Hok.
    destruct (findRestaurant restaurantId db); [|discriminate].
    unfold collectOrderItems in Hok. cbn [data data_items data_restaurantId] in Hok.
    destruct (orderItemsOfInput restaurantId db (item :: rest)) as [ois|] eqn:E;
      [|discriminate].
    injection Hok as <- _. cbn [Order.items]. apply Hmap. reflexivity.
Qed.

(** ** Carts *)

Lemma getOrCreateCart_cart (user : string) (db : DB) :
  findCart user (snd (getOrCreateCart user db)) = Some (fst (getOrCreateCart user db)) /\
  (forall c, findCart user db = Some c -> fst (getOrCreateCart user db) = c) /\
  cartItems (snd (getOrCreateCart user db)) = cartItems db /\
  menuItems (snd (getOrCreateCart user db)) = menuItems db.
Proof.
  unfold getOrCreateCart. destruct (findCart user db) as [cart|] eqn:E; simpl.
  - repeat split; auto. intros c H. congruence.
  - repeat split; try discriminate.
    unfold findCart in *. simpl. rewrite find_app_last, E. simpl.
    rewrite String.eqb_refl. reflexivity.
Qed.

Lemma getOrCreateCart_again (user : string) (db : DB) (cart : Cart.t) :
  findCart user db = Some cart -> getOrCreateCart user db = (cart, db).
Proof. intros H. unfold getOrCreateCart. rewrite H. reflexivity. Qed.


(** A rewrite of rows that keeps their cart and menu item keeps every
    (cart, menu item) pair present. *)
Lemma find_by_key_kept (p : CartItem.t -> bool) (g : CartItem.t -> CartItem.t)
    (l : list CartItem.t) :
  (forall ci, p (g ci) = p ci) ->
  find p l <> None -> find p (map g l) <> None.
Proof.
  intros Hp. induction l as [|a l IH]; simpl; [auto|].
  rewrite Hp. destruct (p a); [discriminate|exact IH].
Qed.

(** What a successful [addToCart] writes. *)
Lemma addToCart_effect (user : string) (data : AddToCartData) (db db' : DB)
    (rows : list CartItem.t) :
  addToCart user data db = Ok (rows, db') ->
  let cart := fst (getOrCreateCart user db) in
  (exists m, findMenuItem (add_menuItemId data) db = Some m /\
             MenuItem.isAvailable m = true) /\
  findCart user db' = Some cart /\
  menuItems db' = menuItems db /\
  rows = itemsOfCart (Cart.id cart) db' /\
  match findCartItemByMenu (Cart.id cart) (add_menuItemId data) db with
  | Some existingItem =>
      cartItems db' =
      map (fun ci =>
             if Nat.eqb (CartItem.id ci) (CartItem.id existingItem) then
               CartItem.mk (CartItem.id ci) (CartItem.cartId ci) (CartItem.menuItemId ci)
                 (CartItem.quantity existingItem + add_quantity data)
                 (match orElse (add_notes data) (CartItem.notes existingItem) with
                  | Some n => Some n
                  | None => CartItem.notes ci
                  end)
             else ci)
          (cartItems db)
  | None =>
      exists rowId,
        cartItems db' =
        cartItems db ++
        [CartItem.mk rowId (Cart.id cart) (add_menuItemId data) (add_quantity data)
           (add_notes data)]
  end.
Proof.
  unfold addToCart.
  destruct (findMenuItem (add_menuItemId data) db) as [m|] eqn:Em; [|discriminate].
  destruct (MenuItem.isAvailable m) eqn:Eav; [|discriminate]. simpl.
  destruct (getOrCreateCart_cart user db) as (Hfound & _ & Hitems & Hmenu).
  destruct (getOrCreateCart user db) as [cart db1] eqn:Eg. simpl in *.
  assert (Hkey : findCartItemByMenu (Cart.id cart) (add_menuItemId data) db1 =
                 findCartItemByMenu (Cart.id cart) (add_menuItemId data) db)
    by (unfold findCartItemByMenu; rewrite Hitems; reflexivity).
  rewrite Hkey.
  set (db2 := match findCartItemByMenu (Cart.id cart) (add_menuItemId data) db with
              | Some _ => _ | None => _ end).
  assert (Hcart2 : findCart user db2 = Some cart)
    by (unfold db2;
        destruct (findCartItemByMenu (Cart.id cart) (add_menuItemId data) db);
        exact Hfound).
  assert (Hmenu2 : menuItems db2 = menuItems db)
    by (unfold db2;
        destruct (findCartItemByMenu (Cart.id cart) (add_menuItemId data) db);
        exact Hmenu).
  unfold getCart. rewrite (getOrCreateCart_again user db2 cart Hcart2).
  intros H. injection H as <- <-.
  split; [eauto|]. split; [exact Hcart2|]. split; [exact Hmenu2|].
  split; [reflexivity|].
  unfold db2.
  destruct (findCartItemByMenu (Cart.id cart) (add_menuItemId data) db)
    as [existingItem|]; simpl.
  - rewrite Hitems. reflexivity.
  - exists (nextId db1). rewrite Hitems. reflexivity.
Qed.


Lemma cartItem_by_id_unique (l : list CartItem.t) (x y : CartItem.t) :
  List.NoDup (map CartItem.id l) ->
  In x l -> In y l -> CartItem.id x = CartItem.id y -> x = y.
Proof.
  induction l as [|a l IH]; simpl; intros Hnd Hx Hy Hid; [contradiction|].
  inversion Hnd as [|i ids Hnotin Hnd']; subst.
  destruct Hx as [<-|Hx], Hy as [<-|Hy]; auto.
  - exfalso. apply Hnotin. rewrite Hid. apply in_map. exact Hy.
  - exfalso. apply Hnotin. rewrite <- Hid. apply in_map. exact Hx.
Qed.

Lemma filter_map_same {A : Type} (p : A -> bool) (f : A -> A) (l : list A) :
  (forall x, In x l -> p (f x) = p x /\ (p x = true -> f x = x)) ->
  List.filter p (map f l) = List.filter p l.
Proof.
  induction l as [|a l IH]; simpl; intros H; [reflexivity|].
  destruct (H a (or_introl eq_refl)) as [Hp Hf]. rewrite Hp.
  rewrite IH by (intros x Hx; apply H; right; exact Hx).
  destruct (p a); [rewrite Hf by reflexivity|]; reflexivity.
Qed.

Lemma filter_filter_same {A : Type} (p q : A -> bool) (l : list A) :
  (forall x, In x l -> p x = true -> q x = true) ->
  List.filter p (List.filter q l) = List.filter p l.
Proof.
  induction l as [|a l IH]; simpl; intros H; [reflexivity|].
  rewrite <- IH by (intros x Hx; apply H; right; exact Hx).
  destruct (q a) eqn:Eq; simpl; [reflexivity|].
  destruct (p a) eqn:Ep; [|reflexivity].
  rewrite (H a (or_introl eq_refl) Ep) in Eq. discriminate.
Qed.

(** Rewriting the row of one id, which lies in cart [cartId], leaves the
    rows of the other carts alone. *)
Lemma rowsOfOthers_updated (cartId : nat) (row : CartItem.t)
    (f : CartItem.t -> CartItem.t) (l : list CartItem.t) :
  List.NoDup (map CartItem.id l) ->
  In row l -> CartItem.cartId row = cartId ->
  (forall ci, CartItem.cartId (f ci) = CartItem.cartId ci) ->
  List.filter (fun ci => negb (Nat.eqb (CartItem.cartId ci) cartId))
    (map (fun ci => if Nat.eqb (CartItem.id ci) (CartItem.id row) then f ci else ci) l) =
  List.filter (fun ci => negb (Nat.eqb (CartItem.cartId ci) cartId)) l.
Proof.
  intros Hnd Hrow Hc Hf. apply filter_map_same. intros x Hx.
  destruct (Nat.eqb (CartItem.id x) (CartItem.id row)) eqn:E; [|auto].
  apply Nat.eqb_eq in E.
  assert (x = row) by (eapply cartItem_by_id_unique; eassumption). subst x.
  rewrite Hf, Hc, Nat.eqb_refl. simpl. split; [reflexivity|discriminate].
Qed.

(** Deleting the row of one id, which lies in cart [cartId], leaves the
    rows of the other carts alone. *)
Lemma rowsOfOthers_deleted (cartId : nat) (row : CartItem.t) (l : list CartItem.t) :
  List.NoDup (map CartItem.id l) ->
  In row l -> CartItem.cartId row = cartId ->
  List.filter (fun ci => negb (Nat.eqb (CartItem.cartId ci) cartId))
    (List.filter (fun ci => negb (Nat.eqb (CartItem.id ci) (CartItem.id row))) l) =
  List.filter (fun ci => negb (Nat.eqb (CartItem.cartId ci) cartId)) l.
Proof.
  intros Hnd Hrow Hc. apply filter_filter_same. intros x Hx Hother.
  destruct (Nat.eqb (CartItem.id x) (CartItem.id row)) eqn:E; [|reflexivity].
  apply Nat.eqb_eq in E.
  assert (x = row) by (eapply cartItem_by_id_unique; eassumption). subst x.
  rewrite Hc, Nat.eqb_refl in Hother. discriminate.
Qed.

Lemma findCartItemIn_row (itemId cartId : nat) (db : DB) (row : CartItem.t) :
  findCartItemIn itemId cartId db = Some row ->
  In row (cartItems db) /\ CartItem.id row = itemId /\ CartItem.cartId row = cartId.
Proof.
  unfold findCartItemIn. intros H. apply find_some in H. destruct H as [Hin Hp].
  apply andb_true_iff in Hp. destruct Hp as [Hi Hc].
  apply Nat.eqb_eq in Hi, Hc. auto.
Qed.

Lemma findCartItemByMenu_row (cartId : nat) (menuItemId : string) (db : DB)
    (row : CartItem.t) :
  findCartItemByMenu cartId menuItemId db = Some row ->
  In row (cartItems db) /\ CartItem.cartId row = cartId /\
  CartItem.menuItemId row = menuItemId.
Proof.
  unfold findCartItemByMenu. intros H. apply find_some in H. destruct H as [Hin Hp].
  apply andb_true_iff in Hp. destruct Hp as [Hc Hm].
  apply Nat.eqb_eq in Hc. apply String.eqb_eq in Hm. auto.
Qed.

Lemma rowsOfOthers_getCart (cartId : nat) (user : string) (db : DB) :
  rowsOfOthers cartId (snd (getCart user db)) = rowsOfOthers cartId db.
Proof. unfold rowsOfOthers. rewrite cartItems_getCart. reflexivity. Qed.

(** X12. A cart call touches the caller's cart only: when row ids are
    distinct, every call of [addToCart], [updateCartItem], [removeFromCart]
    and [clearCart] leaves the rows of all other carts exactly as they
    were, none added, none removed, none changed. *)
Theorem cart_calls_keep_other_carts (op : CartOp) (db : DB) :
  List.NoDup (map CartItem.id (cartItems db)) ->
  let cart := fst (getOrCreateCart (cartOpUser op) db) in
  rowsOfOthers (Cart.id cart) (stepCart db op) = rowsOfOthers (Cart.id cart) db.
Proof.
  intros Hnd.
  destruct op as [user data|user itemId data|user itemId|user]; simpl.
  - destruct (addToCart user data db) as [[rows db']|e] eqn:E; [|reflexivity].
    simpl. destruct (addToCart_effect _ _ _ _ _ E) as (_ & _ & _ & _ & Hw).
    cbv zeta in Hw. unfold rowsOfOthers.
    destruct (findCartItemByMenu _ (add_menuItemId data) db) as [existing|] eqn:Ek.
    + rewrite Hw. destruct (findCartItemByMenu_row _ _ _ _ Ek) as (Hin & Hc & _).
      apply (rowsOfOthers_updated _ existing
               (fun ci =>
                  CartItem.mk (CartItem.id ci) (CartItem.cartId ci)
                    (CartItem.menuItemId ci)
                    (CartItem.quantity existing + add_quantity data)
                    (match orElse (add_notes data) (CartItem.notes existing) with
                     | Some n => Some n
                     | None => CartItem.notes ci
                     end))); auto.
    + destruct Hw as [rowId ->]. rewrite List.filter_app. simpl.
      rewrite Nat.eqb_refl. simpl. apply app_nil_r.
  - unfold updateCartItem.
    destruct (findCart user db) as [cart|] eqn:Ec; [|reflexivity].
    rewrite (getOrCreateCart_again _ _ _ Ec). simpl.
    destruct (findCartItemIn itemId (Cart.id cart) db) as [row|] eqn:Er; [|reflexivity].
    destruct (findCartItemIn_row _ _ _ _ Er) as (Hin & Hid & Hc). subst itemId.
    simpl.
    assert (Hdel : rowsOfOthers (Cart.id cart) (deleteCartItem (CartItem.id row) db) =
                   rowsOfOthers (Cart.id cart) db)
      by (apply rowsOfOthers_deleted; assumption).
    assert (Hupd : rowsOfOthers (Cart.id cart)
                     (updateCartItemRow (CartItem.id row) (upd_quantity data)
                        (upd_notes data) db) =
                   rowsOfOthers (Cart.id cart) db).
    { unfold rowsOfOthers, updateCartItemRow. simpl.
      apply (rowsOfOthers_updated _ row
               (fun ci =>
                  CartItem.mk (CartItem.id ci) (CartItem.cartId ci)
                    (CartItem.menuItemId ci)
                    (match upd_quantity data with
                     | Some q => q
                     | None => CartItem.quantity ci
                     end)
                    (match upd_notes data with
                     | Some n => Some n
                     | None => CartItem.notes ci
                     end))); auto. }
    set (db1 := match upd_quantity data with Some _ => _ | None => _ end).
    assert (H1 : rowsOfOthers (Cart.id cart) db1 = rowsOfOthers (Cart.id cart) db).
    { unfold db1. destruct (upd_quantity data) as [q|]; [|exact Hupd].
      destruct (q <=? 0); [exact Hdel|exact Hupd]. }
    rewrite <- H1, <- (rowsOfOthers_getCart (Cart.id cart) user db1).
    destruct (getCart user db1); reflexivity.
  - unfold removeFromCart.
    destruct (findCart user db) as [cart|] eqn:Ec; [|reflexivity].
    rewrite (getOrCreateCart_again _ _ _ Ec). simpl.
    destruct (findCartItemIn itemId (Cart.id cart) db) as [row|] eqn:Er; [|reflexivity].
    destruct (findCartItemIn_row _ _ _ _ Er) as (Hin & Hid & Hc). subst itemId.
    simpl.
    assert (Hdel : rowsOfOthers (Cart.id cart) (deleteCartItem (CartItem.id row) db) =
                   rowsOfOthers (Cart.id cart) db)
      by (apply rowsOfOthers_deleted; assumption).
    rewrite <- Hdel,
      <- (rowsOfOthers_getCart (Cart.id cart) user (deleteCartItem (CartItem.id row) db)).
    destruct (getCart user (deleteCartItem (CartItem.id row) db)); reflexivity.
  - unfold clearCart.
    destruct (findCart user db) as [cart|] eqn:Ec; [|reflexivity].
    rewrite (getOrCreateCart_again _ _ _ Ec). simpl.
    unfold rowsOfOthers, deleteCartItemsOf. simpl.
    apply filter_filter_same. auto.
Qed.

(** ** Carts that mix restaurants *)

Lemma orderItemsOfCart_error (restaurantId : string)
    (rows : list (CartItem.t * MenuItem.t)) (e : AppError) :
  orderItemsOfCart restaurantId rows = Throw e -> isBadRequest e = true.
Proof.
  induction rows as [|[ci m] rows IH]; simpl; [discriminate|].
  destruct (negb (String.eqb (MenuItem.restaurantId m) restaurantId)).
  - intros H. injection H as <-. reflexivity.
  - destruct (negb (MenuItem.isAvailable m)).
    + intros H. injection H as <-. reflexivity.
    + destruct (orderItemsOfCart restaurantId rows) as [ois|e']; [discriminate|].
      intros H. injection H as <-. apply IH. reflexivity.
Qed.

Lemma cartRowsWithMenu_In (cartId : nat) (db : DB) (ci : CartItem.t) (m : MenuItem.t) :
  In ci (itemsOfCart cartId db) ->
  findMenuItem (CartItem.menuItemId ci) db = Some m ->
  In (ci, m) (cartRowsWithMenu cartId db).
Proof.
  intros Hin Hm. unfold cartRowsWithMenu. apply in_flat_map.
  exists ci. split; [exact Hin|]. rewrite Hm. left. reflexivity.
Qed.

Lemma mixed_rows_rejected (user : string) (db : DB) (cart : Cart.t)
    (ci1 ci2 : CartItem.t) (m1 m2 : MenuItem.t) (data : CreateOrderData) :
  findCart user db = Some cart ->
  In ci1 (itemsOfCart (Cart.id cart) db) ->
  In ci2 (itemsOfCart (Cart.id cart) db) ->
  findMenuItem (CartItem.menuItemId ci1) db = Some m1 ->
  findMenuItem (CartItem.menuItemId ci2) db = Some m2 ->
  MenuItem.restaurantId m1 <> MenuItem.restaurantId m2 ->
  hasItems data = false ->
  exists e,
    createOrder user data db = Throw e /\
    (findRestaurant (data_restaurantId data) db <> None -> isBadRequest e = true).
Proof.
  intros Hc H1 H2 Hm1 Hm2 Hne Hempty. unfold createOrder.
  destruct (findRestaurant (data_restaurantId data) db);
    [|eexists; split; [reflexivity|intros H; contradiction]].
  assert (Hcollect : collectOrderItems user data db =
                     orderItemsOfCart (data_restaurantId data)
                       (cartRowsWithMenu (Cart.id cart) db)).
  { unfold collectOrderItems, hasItems in *. rewrite Hc.
    destruct (itemsOfCart (Cart.id cart) db) eqn:E; [contradiction|].
    destruct (data_items data) as [[|? ?]|]; try reflexivity. discriminate. }
  rewrite Hcollect.
  destruct (orderItemsOfCart _ _) as [ois|e] eqn:E.
  - exfalso. destruct (orderItemsOfCart_rows _ _ _ E) as [Hall _].
    rewrite List.Forall_forall in Hall.
    destruct (Hall _ (cartRowsWithMenu_In _ _ _ _ H1 Hm1)) as [_ Hr1].
    destruct (Hall _ (cartRowsWithMenu_In _ _ _ _ H2 Hm2)) as [_ Hr2].
    simpl in *. congruence.
  - exists e. split; [reflexivity|]. intros _. eapply orderItemsOfCart_error. exact E.
Qed.

Lemma addToCart_row_present (user : string) (data : AddToCartData) (db db' : DB)
    (rows : list CartItem.t) :
  addToCart user data db = Ok (rows, db') ->
  findCartItemByMenu (Cart.id (fst (getOrCreateCart user db))) (add_menuItemId data) db'
  <> None.
Proof.
  intros Hok. destruct (addToCart_effect _ _ _ _ _ Hok) as (_ & _ & _ & _ & Hw).
  cbv zeta in Hw. set (cart := fst (getOrCreateCart user db)) in *.
  destruct (findCartItemByMenu (Cart.id cart) (add_menuItemId data) db)
    as [existingItem|] eqn:Ek.
  - unfold findCartItemByMenu in Ek |- *. rewrite Hw.
    apply find_by_key_kept; [|rewrite Ek; discriminate].
    intros ci. destruct (Nat.eqb (CartItem.id ci) (CartItem.id existingItem));
      reflexivity.
  - destruct Hw as [rowId Hw]. unfold findCartItemByMenu in Ek |- *.
    rewrite Hw, find_app_last, Ek. simpl.
    rewrite Nat.eqb_refl, String.eqb_refl. discriminate.
Qed.

Lemma addToCart_keeps_rows (user : string) (data : AddToCartData) (db db' : DB)
    (rows : list CartItem.t) (cartId : nat) (menuItemId : string) :
  addToCart user data db = Ok (rows, db') ->
  findCartItemByMenu cartId menuItemId db <> None ->
  findCartItemByMenu cartId menuItemId db' <> None.
Proof.
  intros Hok Hhas. destruct (addToCart_effect _ _ _ _ _ Hok) as (_ & _ & _ & _ & Hw).
  cbv zeta in Hw.
  destruct (findCartItemByMenu _ (add_menuItemId data) db) as [existingItem|].
  - unfold findCartItemByMenu in Hhas |- *. rewrite Hw.
    apply find_by_key_kept; [|exact Hhas].
    intros ci. destruct (Nat.eqb (CartItem.id ci) (CartItem.id existingItem));
      reflexivity.
  - destruct Hw as [rowId Hw]. unfold findCartItemByMenu in Hhas |- *.
    rewrite Hw, find_app_last.
    destruct (find _ (cartItems db)); [discriminate|contradiction].
Qed.

Lemma row_in_cart (cartId : nat) (menuItemId : string) (db : DB) :
  findCartItemByMenu cartId menuItemId db <> None ->
  exists ci, In ci (itemsOfCart cartId db) /\ CartItem.menuItemId ci = menuItemId.
Proof.
  destruct (findCartItemByMenu cartId menuItemId db) as [ci|] eqn:E; [|contradiction].
  intros _. destruct (findCartItemByMenu_row _ _ _ _ E) as (Hin & Hc & Hm).
  exists ci. split; [|exact Hm]. unfold itemsOfCart. apply filter_In.
  split; [exact Hin|]. apply Nat.eqb_eq. exact Hc.
Qed.

(** X13. A cart that holds items of two different restaurants cannot be
    ordered: [createOrder] without request items fails for every restaurant
    id (with a BadRequest error when the restaurant exists). [addToCart]
    does build such carts: it never compares restaurants, so after two
    successful calls for items of different restaurants the cart is
    mixed, and ordering from it fails whatever restaurant is named. *)
Theorem mixed_cart_cannot_be_ordered :
  (forall user db cart ci1 ci2 m1 m2 data,
      findCart user db = Some cart ->
      In ci1 (itemsOfCart (Cart.id cart) db) ->
      In ci2 (itemsOfCart (Cart.id cart) db) ->
      findMenuItem (CartItem.menuItemId ci1) db = Some m1 ->
      findMenuItem (CartItem.menuItemId ci2) db = Some m2 ->
      MenuItem.restaurantId m1 <> MenuItem.restaurantId m2 ->
      hasItems data = false ->
      exists e,
        createOrder user data db = Throw e /\
        (findRestaurant (data_restaurantId data) db <> None -> isBadRequest e = true))
  /\
  (forall user d1 d2 db rows1 db1 rows2 db2 m1 m2 data,
      addToCart user d1 db = Ok (rows1, db1) ->
      addToCart user d2 db1 = Ok (rows2, db2) ->
      findMenuItem (add_menuItemId d1) db = Some m1 ->
      findMenuItem (add_menuItemId d2) db = Some m2 ->
      MenuItem.restaurantId m1 <> MenuItem.restaurantId m2 ->
      hasItems data = false ->
      isOk (createOrder user data db2) = false).
Proof.
  split; [intros user db cart ci1 ci2 m1 m2 data; apply mixed_rows_rejected|].
  intros user d1 d2 db rows1 db1 rows2 db2 m1 m2 data Ha1 Ha2 Hm1 Hm2 Hne Hempty.
  destruct (addToCart_effect _ _ _ _ _ Ha1) as (_ & Hc1 & Hmenu1 & _).
  destruct (addToCart_effect _ _ _ _ _ Ha2) as (_ & Hc2 & Hmenu2 & _).
  cbv zeta in Hc1, Hc2.
  pose proof (addToCart_row_present _ _ _ _ _ Ha1) as Hrow1.
  pose proof (addToCart_row_present _ _ _ _ _ Ha2) as Hrow2.
  set (cart := fst (getOrCreateCart user db)) in *.
  assert (Hsame : fst (getOrCreateCart user db1) = cart)
    by (rewrite (getOrCreateCart_again _ _ _ Hc1); reflexivity).
  rewrite Hsame in Hc2, Hrow2.
  pose proof (addToCart_keeps_rows _ _ _ _ _ _ _ Ha2 Hrow1) as Hrow1'.
  destruct (row_in_cart _ _ _ Hrow1') as (ci1 & Hin1 & Hk1).
  destruct (row_in_cart _ _ _ Hrow2) as (ci2 & Hin2 & Hk2).
  assert (Hfm : forall k, findMenuItem k db2 = findMenuItem k db)
    by (intros k; unfold findMenuItem; rewrite Hmenu2, Hmenu1; reflexivity).
  destruct (mixed_rows_rejected user db2 cart ci1 ci2 m1 m2 data Hc2 Hin1 Hin2)
    as (e & -> & _); auto.
  - rewrite Hk1, Hfm. exact Hm1.
  - rewrite Hk2, Hfm. exact Hm2.
Qed.

(** ** Addressing a cart line *)

Lemma find_map_preserved {A : Type} (p : A -> bool) (g : A -> A) (l : list A) :
  (forall x, p (g x) = p x) -> find p (map g l) = option_map g (find p l).
Proof.
  intros Hp. induction l as [|a l IH]; simpl; [reflexivity|].
  rewrite Hp. destruct (p a); [reflexivity|exact IH].
Qed.

Lemma find_filter_none {A : Type} (p q : A -> bool) (l : list A) :
  (forall x, p x = true -> q x = false) -> find p (List.filter q l) = None.
Proof.
  intros H. induction l as [|a l IH]; simpl; [reflexivity|].
  destruct (q a) eqn:Eq; [|exact IH]. simpl.
  destruct (p a) eqn:Ep; [|exact IH]. rewrite (H a Ep) in Eq. discriminate.
Qed.

(** X23. A cart line is addressed through the caller's own cart: without
    a cart, [updateCartItem] and [removeFromCart] answer NotFound ("Cart not
    found"); with a line id that is not in the caller's cart, be it a line
    of another cart, they answer NotFound ("Cart item not found") and write
    nothing. On a line of the caller's cart, an update without a quantity or
    with a positive one keeps the line, its menu item and the number of rows,
    and stores the given quantity and notes (a field left out keeps its
    value); a removal leaves no row of that id. *)
Theorem cart_lines_are_addressed_within_own_cart (user : string) (itemId : nat)
    (db : DB) :
  (findCart user db = None ->
   (forall data,
       updateCartItem user itemId data db = Throw (NotFoundError "Cart not found")) /\
   removeFromCart user itemId db = Throw (NotFoundError "Cart not found"))
  /\
  (forall cart,
      findCart user db = Some cart ->
      (findCartItemIn itemId (Cart.id cart) db = None ->
       (forall data,
           updateCartItem user itemId data db =
           Throw (NotFoundError "Cart item not found")) /\
       removeFromCart user itemId db = Throw (NotFoundError "Cart item not found"))
      /\
      (forall row,
          findCartItemIn itemId (Cart.id cart) db = Some row ->
          (forall data,
              (forall q, upd_quantity data = Some q -> 0 < q) ->
              exists db',
                updateCartItem user itemId data db =
                  Ok (itemsOfCart (Cart.id cart) db', db') /\
                findCartItemIn itemId (Cart.id cart) db' =
                  Some (CartItem.mk itemId (Cart.id cart) (CartItem.menuItemId row)
                          (match upd_quantity data with
                           | Some q => q
                           | None => CartItem.quantity row
                           end)
                          (match upd_notes data with
                           | Some n => Some n
                           | None => CartItem.notes row
                           end)) /\
                length (cartItems db') = length (cartItems db))
          /\
          (exists db',
              removeFromCart user itemId db = Ok (itemsOfCart (Cart.id cart) db', db') /\
              findCartItemIn itemId (Cart.id cart) db' = None /\
              ~ In itemId (map CartItem.id (cartItems db'))))).
Proof.
  split.
  - intros Hnone. unfold updateCartItem, removeFromCart. rewrite Hnone. auto.
  - intros cart Hc. split.
    + intros Hnone. unfold updateCartItem, removeFromCart. rewrite Hc, Hnone. auto.
    + intros row Hrow. destruct (findCartItemIn_row _ _ _ _ Hrow) as (_ & Hid & Hcid).
      split.
      * intros data Hq. unfold updateCartItem. rewrite Hc, Hrow.
        set (db1 := updateCartItemRow itemId (upd_quantity data) (upd_notes data) db).
        assert (Hdb1 : (match upd_quantity data with
                        | Some q =>
                            if q <=? 0 then deleteCartItem itemId db else db1
                        | None => db1
                        end) = db1).
        { destruct (upd_quantity data) as [q|]; [|reflexivity].
          specialize (Hq q eq_refl). destruct (Z.leb_spec q 0); [lia|reflexivity]. }
        rewrite Hdb1. unfold getCart.
        rewrite (getOrCreateCart_again user db1 cart) by exact Hc.
        exists db1. split; [reflexivity|]. split.
        { unfold findCartItemIn, db1, updateCartItemRow. simpl.
          rewrite find_map_preserved.
          - unfold findCartItemIn in Hrow. rewrite Hrow. simpl.
            rewrite Hid, Nat.eqb_refl, Hcid. reflexivity.
          - intros x. destruct (Nat.eqb (CartItem.id x) itemId) eqn:Ex; simpl;
              rewrite Ex; reflexivity. }
        unfold db1, updateCartItemRow. simpl. apply length_map.
      * unfold removeFromCart. rewrite Hc, Hrow. unfold getCart.
        rewrite (getOrCreateCart_again user (deleteCartItem itemId db) cart)
          by exact Hc.
        exists (deleteCartItem itemId db). split; [reflexivity|]. split.
        { unfold findCartItemIn, deleteCartItem. simpl. apply find_filter_none.
          intros x Hx. apply andb_true_iff in Hx. destruct Hx as [Hx _].
          rewrite Hx. reflexivity. }
        unfold deleteCartItem. simpl. intros Hin. apply in_map_iff in Hin.
        destruct Hin as (x & Hx & Hin). apply filter_In in Hin.
        destruct Hin as [_ Hne]. rewrite Hx, Nat.eqb_refl in Hne. discriminate.
Qed.

(** ** The queue: from enqueueing to orders *)

Lemma enqueueOrders_effect (user : string) (orders' : list QueuedOrder) (w : World) :
  queue (redis (enqueueOrders user orders' w)) =
    queue (redis w) ++ map (withUserId user) orders' /\
  clientKeys (redis (enqueueOrders user orders' w)) = clientKeys (redis w) /\
  processing (redis (enqueueOrders user orders' w)) = processing (redis w) /\
  db (enqueueOrders user orders' w) = db w /\
  isProcessing (enqueueOrders user orders' w) = isProcessing w.
Proof.
  unfold enqueueOrders. revert w.
  induction orders' as [|o rest IH]; intros w; simpl.
  - rewrite app_nil_r. auto.
  - destruct (IH (set_redis (redis_rpush (withUserId user o) (redis w)) w))
      as (Hq & Hk & Hp & Hdb & Hflag).
    rewrite Hq, Hk, Hp, Hdb, Hflag. simpl. rewrite <- app_assoc. auto.
Qed.

Lemma createOrder_explicit_lines (user : string) (data : CreateOrderData) (db db' : DB)
    (o : Order.t) (l : list OrderItemInput) :
  createOrder user data db = Ok (o, db') ->
  data_items data = Some l -> l <> [] ->
  map lineContent (Order.items o) = map inputContent l.
Proof.
  unfold createOrder, collectOrderItems.
  destruct (findRestaurant (data_restaurantId data) db); [|discriminate].
  intros Hok Hitems Hne. rewrite Hitems in Hok.
  destruct l as [|item rest]; [contradiction|].
  destruct (orderItemsOfInput (data_restaurantId data) db (item :: rest))
    as [ois|] eqn:E; [|discriminate].
  injection Hok as <- _. cbn [Order.items].
  apply (proj2 (orderItemsOfInput_orderable (data_restaurantId data) db (item :: rest))).
  exact E.
Qed.

(** One iteration of the drain: either an order is appended for the item,
    or the store stays as it was. *)
Lemma processItem_outcome (item : QueuedOrder) (w : World) :
  exists r w' events,
    processItem item w = (r, w', events) /\
    queue (redis w') = queue (redis w) /\
    isProcessing w' = isProcessing w /\
    res_clientId r = clientId item /\
    ((exists o,
         success r = true /\
         orders (db w') = orders (db w) ++ [o] /\
         res_orderId r = Some (Order.id o) /\
         res_orderNumber r = Some (Order.orderNumber o) /\
         Order.userId o = userId item /\
         Order.restaurantId o = restaurantId item /\
         Order.status o = OrderStatus.PENDING /\
         (items item <> [] ->
          map lineContent (Order.items o) = map inputContent (items item)))
     \/
     (success r = false /\ db w' = db w /\ res_orderId r = None /\ error r <> None)).
Proof.
  unfold processItem; simpl.
  destruct (createOrder (userId item) (dataOfQueued item) (db w)) as [[o db']|e] eqn:E;
    simpl.
  - eexists _, _, _. split; [reflexivity|]. simpl.
    split; [reflexivity|]. split; [reflexivity|]. split; [reflexivity|].
    left. exists o.
    destruct (createOrder_effect _ _ _ _ _ E) as (_ & _ & _ & Ho & _).
    pose proof (createOrder_explicit_lines _ _ _ _ _ (items item) E eq_refl) as Hlines.
    unfold createOrder in E.
    destruct (findRestaurant _ (db w)); [|discriminate].
    destruct (collectOrderItems _ _ (db w)); [|discriminate].
    injection E as <- _. simpl. repeat split; auto.
  - eexists _, _, _. split; [reflexivity|]. simpl.
    split; [reflexivity|]. split; [reflexivity|]. split; [reflexivity|].
    right. repeat split; auto; discriminate.
Qed.

Lemma drain_creates (q : list QueuedOrder) :
  forall fuel w results log,
    queue (redis w) = q ->
    (length q < fuel)%nat ->
    exists rs w' log' created,
      drain fuel w results log = Some (results ++ rs, w', log') /\
      orders (db w') = orders (db w) ++ created /\
      processed q rs created /\
      queue (redis w') = [].
Proof.
  induction q as [|item q IH]; intros fuel w results log Hq Hfuel.
  - destruct fuel as [|fuel]; [simpl in Hfuel; lia|].
    exists [], w, (log ++ [EvLpop None]), []. simpl. unfold redis_lpop. rewrite Hq.
    rewrite !app_nil_r. repeat split; auto. constructor.
  - destruct fuel as [|fuel]; [simpl in Hfuel; lia|].
    simpl. unfold redis_lpop. rewrite Hq.
    destruct (processItem_outcome item
                (set_redis (mkRedis (clientKeys (redis w)) q (processing (redis w))) w))
      as (r & w1 & events & Hstep & Hqueue & _ & Hcid & Hout).
    rewrite Hstep.
    destruct (IH fuel w1 (results ++ [r]) (log ++ EvLpop (Some item) :: events))
      as (rs & w' & log' & created & Hdrain & Hords & Hproc & Hempty).
    { rewrite Hqueue. reflexivity. }
    { simpl in Hfuel. lia. }
    rewrite Hdrain, <- app_assoc. simpl.
    destruct Hout as [(o & Hs & Ho & Hid & Hnum & Hu & Hr & Hst & Hl)
                     |(Hs & Hsame & Hid & Herr)].
    + exists (r :: rs), w', log', (o :: created).
      split; [reflexivity|]. split.
      { rewrite Hords, Ho. simpl. rewrite <- app_assoc. reflexivity. }
      split; [|exact Hempty]. apply processed_created; assumption.
    + exists (r :: rs), w', log', created.
      split; [reflexivity|]. split; [rewrite Hords, Hsame; reflexivity|].
      split; [|exact Hempty]. apply processed_rejected; assumption.
Qed.

Lemma processed_counts (q : list QueuedOrder) (rs : list QueueResult)
    (created : list Order.t) :
  processed q rs created ->
  length rs = length q /\
  map res_clientId rs = map clientId q /\
  length created = countOf success rs /\
  Forall (fun o => In (Order.userId o) (map userId q)) created.
Proof.
  unfold countOf.
  induction 1 as [|item q r rs o created Hc Hs _ _ Hu _ _ _ _ (IH1 & IH2 & IH3 & IH4)
                  |item q r rs created Hc Hs _ _ _ (IH1 & IH2 & IH3 & IH4)]; simpl.
  - auto.
  - rewrite Hs. simpl. repeat split; try congruence.
    constructor; [left; symmetry; exact Hu|].
    eapply List.Forall_impl; [|exact IH4]. simpl. auto.
  - rewrite Hs. repeat split; try congruence.
    eapply List.Forall_impl; [|exact IH4]. simpl. auto.
Qed.

(** X14. A drain creates exactly one order per success result and none
    for a failure: the orders table grows by the orders named in the success
    results, in queue order, each belonging to the user and restaurant of
    its queue item and carrying its lines; nothing in the queue path
    deduplicates, so two queued items with the same client id each get an
    order of their own. *)
Theorem processQueue_creates_one_order_per_success (fuel : nat) (w : World) :
  isProcessing w = false ->
  (length (queue (redis w)) < fuel)%nat ->
  exists results w' log created,
    processQueue fuel w = Some (results, w', log) /\
    orders (db w') = orders (db w) ++ created /\
    processed (queue (redis w)) results created /\
    length created = countOf success results.
Proof.
  intros Hflag Hfuel. unfold processQueue. rewrite Hflag.
  destruct (drain_creates (queue (redis w)) fuel (set_isProcessing true w) [] [])
    as (rs & w' & log' & created & Hdrain & Hords & Hproc & _);
    [reflexivity|exact Hfuel|].
  rewrite Hdrain. simpl.
  exists rs, (set_isProcessing false w'), log', created.
  split; [reflexivity|]. split; [exact Hords|]. split; [exact Hproc|].
  apply (processed_counts _ _ _ Hproc).
Qed.

(** X15. Orders enqueued by a user are created for that user: after
    [enqueueOrders user orders] on an empty queue, the queue holds one item
    per order and the store is untouched; the next drain answers the
    orders one by one in the order given, every order it creates belongs to
    [user], whatever [userId] the enqueued records carried, and the queue is
    empty afterwards. *)
Theorem enqueued_orders_belong_to_caller (user : string) (orders' : list QueuedOrder)
    (fuel : nat) (w : World) :
  isProcessing w = false ->
  queue (redis w) = [] ->
  (length orders' < fuel)%nat ->
  getQueueLength (enqueueOrders user orders' w) = length orders' /\
  db (enqueueOrders user orders' w) = db w /\
  exists results w' log created,
    processQueue fuel (enqueueOrders user orders' w) = Some (results, w', log) /\
    map res_clientId results = map clientId orders' /\
    orders (db w') = orders (db w) ++ created /\
    length created = countOf success results /\
    Forall (fun o => Order.userId o = user) created /\
    getQueueLength w' = 0%nat.
Proof.
  intros Hflag Hq Hfuel.
  destruct (enqueueOrders_effect user orders' w) as (Hqueue & _ & _ & Hdb & Hflag').
  rewrite Hq in Hqueue. simpl in Hqueue.
  split; [unfold getQueueLength; rewrite Hqueue, length_map; reflexivity|].
  split; [exact Hdb|].
  unfold processQueue. rewrite Hflag', Hflag.
  destruct (drain_creates (queue (redis (enqueueOrders user orders' w))) fuel
              (set_isProcessing true (enqueueOrders user orders' w)) [] [])
    as (rs & w' & log' & created & Hdrain & Hords & Hproc & Hempty);
    [reflexivity|rewrite Hqueue, length_map; exact Hfuel|].
  rewrite Hdrain. simpl.
  exists rs, (set_isProcessing false w'), log', created.
  split; [reflexivity|].
  rewrite Hqueue in Hproc.
  destruct (processed_counts _ _ _ Hproc) as (_ & Hcids & Hcount & Husers).
  split.
  { rewrite Hcids, map_map. reflexivity. }
  split; [simpl in *; rewrite Hords, Hdb; reflexivity|].
  split; [exact Hcount|].
  split.
  { eapply List.Forall_impl; [|exact Husers]. simpl. intros o Hin.
    rewrite map_map in Hin. simpl in Hin. apply in_map_iff in Hin.
    destruct Hin as (x & Hx & _). congruence. }
  unfold getQueueLength. simpl. rewrite Hempty. reflexivity.
Qed.

(** X24. Clearing the queue drops the pending work and nothing else: after
    [clearQueue] the queue is empty and the processing marker is gone, the
    store and every dedup mapping of the sync path are as before, and the
    next drain finds nothing, creates no order and returns no result, so no
    order is ever created for the items that were queued. *)
Theorem clearQueue_drops_pending_work (fuel : nat) (w : World) :
  isProcessing w = false ->
  (0 < fuel)%nat ->
  getQueueLength (clearQueue w) = 0%nat /\
  processing (redis (clearQueue w)) = None /\
  db (clearQueue w) = db w /\
  (forall key t, redis_get key t (redis (clearQueue w)) = redis_get key t (redis w)) /\
  processQueue fuel (clearQueue w) = Some ([], clearQueue w, [EvLpop None]).
Proof.
  intros Hflag Hfuel. repeat split.
  unfold processQueue. simpl. rewrite Hflag.
  destruct fuel as [|fuel]; [lia|]. simpl.
  destruct w as [store r flag]. simpl in *. subst flag. reflexivity.
Qed.

(** ** The sync response and the client keys *)

Lemma filter_partition_length {A : Type} (p : A -> bool) (l : list A) :
  (length (List.filter (fun x => p x) l) +
   length (List.filter (fun x => negb (p x)) l))%nat = length l.
Proof.
  induction l as [|a l IH]; simpl; [reflexivity|].
  destruct (p a); simpl; lia.
Qed.

(** X16. The counts of a sync response add up: [total] is the number of
    requests submitted and also the number of results, every result counts
    as successful or as failed and never as both, and the results answer
    the submitted client ids, each as often as it was submitted. The
    response to a queue drain adds up in the same way. *)
Theorem sync_summary_adds_up :
  (forall user orders' now w,
      let s := fst (controller_syncOrders user orders' now w) in
      total s = length orders' /\
      length (results s) = total s /\
      (successful s + failedCount s)%nat = total s /\
      Permutation (map res_clientId (results s)) (map sync_clientId orders') /\
      results s = fst (syncOrders user orders' now w) /\
      snd (controller_syncOrders user orders' now w) =
        snd (syncOrders user orders' now w))
  /\
  (forall fuel w s w',
      controller_processQueue fuel w = Some (s, w') ->
      length (results s) = total s /\
      (successful s + failedCount s)%nat = total s).
Proof.
  split.
  - intros user orders' now w. unfold controller_syncOrders.
    pose proof (syncLoop_clientIds user now (sortByCreatedAt orders') w) as Hids.
    unfold syncOrders in *.
    destruct (syncLoop user now (sortByCreatedAt orders') w) as [rs w'] eqn:E.
    simpl in *.
    assert (Hperm : Permutation (map res_clientId rs) (map sync_clientId orders')).
    { rewrite Hids. apply Permutation_map. apply Permutation_sym.
      apply sortByCreatedAt_perm. }
    assert (Hlen : length rs = length orders').
    { apply Permutation_length in Hperm. rewrite !length_map in Hperm. exact Hperm. }
    repeat split; auto.
    rewrite <- Hlen. apply filter_partition_length.
  - intros fuel w s w'. unfold controller_processQueue.
    destruct (processQueue fuel w) as [[[rs w1] log]|]; [|discriminate].
    intros H. injection H as <- _. simpl.
    split; [reflexivity|]. apply filter_partition_length.
Qed.

(** The separator decides where the user id ends. *)
Lemma separator_inj (u1 u2 c1 c2 : string) :
  colonFree u1 = true -> colonFree u2 = true ->
  u1 +:+ ":" +:+ c1 = u2 +:+ ":" +:+ c2 -> u1 = u2.
Proof.
  revert u2. induction u1 as [|a u1 IH]; intros [|b u2]; simpl; intros H1 H2 Heq.
  - reflexivity.
  - injection Heq as Hb _. subst b. discriminate H2.
  - injection Heq as Ha _. subst a. discriminate H1.
  - injection Heq as -> Heq.
    apply andb_true_iff in H1, H2. destruct H1 as [_ H1], H2 as [_ H2].
    f_equal. apply IH; assumption.
Qed.

Lemma clientKey_user_inj (u1 u2 c1 c2 : string) :
  colonFree u1 = true -> colonFree u2 = true ->
  clientKey u1 c1 = clientKey u2 c2 -> u1 = u2.
Proof.
  intros H1 H2 Heq. unfold clientKey in Heq. apply append_inj_r in Heq.
  eapply separator_inj; eassumption.
Qed.

(** A sync writes no key but the client keys of its user. *)
Lemma syncLoop_other_keys (user : string) (now : Z) (k : string)
    (l : list SyncRequest) :
  (forall c, k <> clientKey user c) ->
  forall w,
    clientKeys (redis (snd (syncLoop user now l w))) !! k = clientKeys (redis w) !! k.
Proof.
  intros Hk. induction l as [|o l IH]; intros w; simpl; [reflexivity|].
  assert (Hone : clientKeys (redis (snd (syncOne user now o w))) !! k =
                 clientKeys (redis w) !! k).
  { destruct (syncOne_cases user now o w)
      as [(v & _ & ->)|[(_ & created & db' & _ & ->)|(_ & e & _ & ->)]];
      simpl; try reflexivity.
    apply lookup_insert_ne. intros Heq. apply (Hk (sync_clientId o)).
    symmetry. exact Heq. }
  destruct (syncOne user now o w) as [r w1]. simpl in Hone.
  specialize (IH w1). destruct (syncLoop user now l w1) as [rs w2]. simpl in *.
  congruence.
Qed.

(** X17. Client keys of different users never meet: for user ids without
    a colon (as generated ids are), a sync of one user leaves every dedup
    lookup of every other user as it was, whatever client ids either of them
    chose. The separator is what keeps them apart: with a colon in a user
    id, two different (user, client id) pairs can name the same key. *)
Theorem sync_keys_are_per_user :
  (forall user other batch now w clientId t,
      colonFree user = true -> colonFree other = true -> user <> other ->
      redis_get (clientKey other clientId) t
        (redis (snd (syncOrders user batch now w))) =
      redis_get (clientKey other clientId) t (redis w))
  /\
  clientKey "a:b" "c" = clientKey "a" "b:c".
Proof.
  split; [|reflexivity].
  intros user other batch now w c t Hu Ho Hne.
  apply redis_get_same_entry. unfold syncOrders. apply syncLoop_other_keys.
  intros c' Heq. apply Hne. symmetry. eapply clientKey_user_inj; eassumption.
Qed.

(** ** Driver availability *)

Lemma getActiveDelivery_none (driverId : string) (db : DB) :
  getActiveDelivery driverId db = None <-> activeDeliveries driverId db = [].
Proof.
  unfold getActiveDelivery, activeDeliveries. rewrite filter_nil_iff. split.
  - intros H x Hx. exact (find_none _ _ H x Hx).
  - intros H. destruct (find _ (deliveries db)) as [x|] eqn:E; [|reflexivity].
    apply find_some in E. destruct E as [Hin Hp]. rewrite (H x Hin) in Hp.
    discriminate.
Qed.

(** X18. [updateDriverAvailability] case by case: an unknown driver is a
    NotFound error; going offline is refused with a BadRequest error exactly
    when the driver holds a delivery that is ASSIGNED, PICKED_UP or
    IN_TRANSIT; going online is never refused, whatever the driver holds; a
    call that succeeds sets [isAvailable] of that driver to the value given
    and writes nothing else. The
    controller acts on the caller's own profile and answers NotFound when
    the caller has none. *)
Theorem updateDriverAvailability_spec (driverId : string) (db : DB) :
  (findDriver driverId db = None ->
   forall b,
     updateDriverAvailability driverId b db = Throw (NotFoundError "Driver not found"))
  /\
  (forall driver,
      findDriver driverId db = Some driver ->
      (activeDeliveries driverId db <> [] ->
       updateDriverAvailability driverId false db =
       Throw (BadRequestError "Cannot go offline with active delivery"))
      /\
      (forall b,
          b = true \/ activeDeliveries driverId db = [] ->
          exists db',
            updateDriverAvailability driverId b db =
              Ok (Driver.mk (Driver.id driver) (Driver.userId driver) b
                    (Driver.totalDeliveries driver), db') /\
            findDriver driverId db' =
              Some (Driver.mk (Driver.id driver) (Driver.userId driver) b
                      (Driver.totalDeliveries driver)) /\
            (forall other,
                other <> driverId -> findDriver other db' = findDriver other db) /\
            deliveries db' = deliveries db /\ orders db' = orders db /\
            carts db' = carts db /\ cartItems db' = cartItems db))
  /\
  (forall user b,
      (forall d, In d (drivers db) -> Driver.userId d <> user) ->
      controller_updateDriverAvailability user b db =
      Throw (NotFoundError "Driver profile not found"))
  /\
  (forall user b profile,
      getDriverByUserId user db = Ok profile ->
      In profile (drivers db) /\ Driver.userId profile = user /\
      controller_updateDriverAvailability user b db =
      updateDriverAvailability (Driver.id profile) b db).
Proof.
  split; [|split; [|split]].
  - intros Hnone b. unfold updateDriverAvailability. rewrite Hnone. reflexivity.
  - intros driver Hd. split.
    + intros Hact. unfold updateDriverAvailability. rewrite Hd. simpl.
      destruct (getActiveDelivery driverId db) eqn:E; [reflexivity|].
      apply getActiveDelivery_none in E. contradiction.
    + intros b Hb. unfold updateDriverAvailability. rewrite Hd.
      assert (Hcheck : (if negb b then getActiveDelivery driverId db else None) = None).
      { destruct b; [reflexivity|]. simpl. apply getActiveDelivery_none.
        destruct Hb as [Hb|Hb]; [discriminate|exact Hb]. }
      rewrite Hcheck. eexists. split; [reflexivity|].
      split.
      { rewrite findDriver_updateDriverRow by reflexivity.
        rewrite String.eqb_refl, Hd. reflexivity. }
      split.
      { intros other Hne. rewrite findDriver_updateDriverRow by reflexivity.
        apply String.eqb_neq in Hne. rewrite Hne. reflexivity. }
      repeat split.
  - intros user b Hnone. unfold controller_updateDriverAvailability, getDriverByUserId.
    destruct (find _ (drivers db)) as [d|] eqn:E; [|reflexivity].
    apply find_some in E. destruct E as [Hin Hu]. apply String.eqb_eq in Hu.
    exfalso. exact (Hnone d Hin Hu).
  - intros user b profile. unfold controller_updateDriverAvailability, getDriverByUserId.
    destruct (find _ (drivers db)) as [d|] eqn:E; [|discriminate].
    intros H. injection H as <-.
    apply find_some in E. destruct E as [Hin Hu]. apply String.eqb_eq in Hu. auto.
Qed.

(** ** Pagination *)

Lemma parseIntOr_supported (a : PageArg) (d : Z) :
  supportedArg a = true ->
  parseIntOr a d =
  Some match a with
       | ArgNumber n => if n =? 0 then d else n
       | ArgNumeral n => n
       | _ => d
       end.
Proof.
  destruct a as [|n| | |n]; simpl; intros H; try rewrite H; reflexivity.
Qed.

Lemma parsePagination_bounds_of (pageArg limitArg : PageArg) :
  supportedArg pageArg = true ->
  supportedArg limitArg = true ->
  exists p, parsePagination pageArg limitArg = Some p /\ 1 <= limit p <= 100.
Proof.
  intros Hp Hl. unfold parsePagination.
  rewrite (parseIntOr_supported pageArg 1 Hp), (parseIntOr_supported limitArg 10 Hl).
  eexists. split; [reflexivity|]. simpl. lia.
Qed.

(** X19. For arguments within [PAGE_RANGE], [parsePagination] yields a page
    of at least 1, a limit between 1 and 100, [take] equal to the limit and
    a non-negative [skip] of (page - 1) * limit. A missing, zero or
    negative page is page 1. A missing limit is 10, a negative limit is 1,
    a limit above 100 is 100; a limit of zero is 10 when it comes as a
    number, which is falsy, and 1 when it comes as the string "0", which
    is not. Every other value is kept. *)
Theorem parsePagination_bounds (pageArg limitArg : PageArg) :
  supportedArg pageArg = true ->
  supportedArg limitArg = true ->
  exists p,
    parsePagination pageArg limitArg = Some p /\
    1 <= page p /\ 1 <= limit p <= 100 /\
    take p = limit p /\ skip p = (page p - 1) * limit p /\ 0 <= skip p /\
    page p = match pageArg with
             | ArgNumber n | ArgNumeral n => if n <=? 0 then 1 else n
             | _ => 1
             end /\
    limit p = match limitArg with
              | ArgNumber n =>
                  if n =? 0 then 10 else if n <? 0 then 1
                  else if 100 <? n then 100 else n
              | ArgNumeral n =>
                  if n <=? 0 then 1 else if 100 <? n then 100 else n
              | _ => 10
              end.
Proof.
  intros Hp Hl. unfold parsePagination.
  rewrite (parseIntOr_supported pageArg 1 Hp), (parseIntOr_supported limitArg 10 Hl).
  eexists. split; [reflexivity|]. simpl.
  repeat split; try lia; try nia.
  - destruct pageArg as [|n| | |n]; try reflexivity.
    + destruct (Z.eqb_spec n 0), (Z.leb_spec n 0); lia.
    + destruct (Z.leb_spec n 0); lia.
  - destruct limitArg as [|n| | |n]; try reflexivity.
    + destruct (Z.eqb_spec n 0), (Z.ltb_spec n 0), (Z.ltb_spec 100 n); lia.
    + destruct (Z.leb_spec n 0), (Z.ltb_spec 100 n); lia.
Qed.

Lemma ceil_pages (len L : nat) :
  (1 <= L)%nat ->
  let n := Z.to_nat (totalPages (Z.of_nat len) (Z.of_nat L)) in
  (len <= n * L)%nat /\ (forall k, (1 <= k <= n)%nat -> ((k - 1) * L < len)%nat).
Proof.
  intros HL n. unfold totalPages in n.
  assert (Hq := Z.div_mod (Z.of_nat len + Z.of_nat L - 1) (Z.of_nat L) ltac:(lia)).
  assert (Hr := Z.mod_pos_bound (Z.of_nat len + Z.of_nat L - 1) (Z.of_nat L) ltac:(lia)).
  assert (Hq0 : 0 <= (Z.of_nat len + Z.of_nat L - 1) / Z.of_nat L)
    by (apply Z.div_pos; lia).
  set (q := (Z.of_nat len + Z.of_nat L - 1) / Z.of_nat L) in *.
  set (r := (Z.of_nat len + Z.of_nat L - 1) mod Z.of_nat L) in *.
  assert (Hn : Z.of_nat n = q) by (unfold n; lia).
  split.
  - apply Nat2Z.inj_le. rewrite Nat2Z.inj_mul, Hn. nia.
  - intros k Hk. apply Nat2Z.inj_lt. rewrite Nat2Z.inj_mul.
    assert (Z.of_nat (k - 1) <= q - 1) by lia. nia.
Qed.

Lemma firstn_add {A : Type} (a b : nat) (l : list A) :
  firstn (a + b) l = firstn a l ++ firstn b (skipn a l).
Proof.
  revert l. induction a as [|a IH]; intros l; simpl; [reflexivity|].
  destruct l as [|x l]; simpl.
  - destruct b; reflexivity.
  - rewrite IH. reflexivity.
Qed.

Lemma concat_windows {A : Type} (L : nat) (rows : list A) (m : nat) :
  concat (map (fun j => firstn L (skipn (j * L) rows)) (seq 0 m)) = firstn (m * L) rows.
Proof.
  induction m as [|m IH]; [reflexivity|].
  rewrite seq_S, map_app, concat_app, IH. simpl. rewrite app_nil_r.
  rewrite <- firstn_add. f_equal. lia.
Qed.

(** The window of page [k], counted from 1. *)
Lemma window_of_page {A : Type} (rows : list A) (limitArg : PageArg) (k : nat)
    (p0 : Pagination) :
  parsePagination ArgUndefined limitArg = Some p0 ->
  Z.of_nat (length rows) <= PAGE_RANGE ->
  (1 <= k)%nat ->
  Z.of_nat k <= PAGE_RANGE ->
  pageRows rows k limitArg =
  Some (firstn (Z.to_nat (limit p0)) (skipn ((k - 1) * Z.to_nat (limit p0)) rows)).
Proof.
  intros Hp0 Hrows Hk Hrange.
  unfold pageRows, paginate, parsePagination in *.
  cbn [parseIntOr] in *.
  assert (Hin : inPageRange (Z.of_nat k) = true)
    by (unfold inPageRange; apply Z.leb_le; lia).
  rewrite Hin.
  destruct (parseIntOr limitArg 10) as [intLimit|]; [|discriminate].
  injection Hp0 as <-. cbn [limit page skip take].
  apply Z.leb_le in Hrows. rewrite Hrows. cbn [option_map fst].
  unfold pageWindow. cbn [limit page skip take].
  set (lim := Z.min 100 (Z.max 1 intLimit)).
  assert (Hlim : 1 <= lim) by (unfold lim; lia).
  assert (Hpage : Z.max 1 (if Z.of_nat k =? 0 then 1 else Z.of_nat k) = Z.of_nat k)
    by (destruct (Z.eqb_spec (Z.of_nat k) 0); lia).
  rewrite Hpage. f_equal. f_equal. f_equal.
  rewrite Z2Nat.inj_mul by lia. f_equal. lia.
Qed.

Lemma Forall2_map_seq {A : Type} (P : nat -> A -> Prop) (f : nat -> A) (a n : nat) :
  (forall k, (a <= k < a + n)%nat -> P k (f k)) ->
  Forall2 P (seq a n) (map f (seq a n)).
Proof.
  revert a. induction n as [|n IH]; intros a H; simpl; constructor.
  - apply H. lia.
  - apply IH. intros k Hk. apply H. lia.
Qed.

(** X20. The pages of a listing tile it. For a limit within [PAGE_RANGE]
    and at most [PAGE_RANGE] selected rows, with [totalPages] as the
    listing reports it: the windows of pages 1 to [totalPages], one after
    the other, are exactly the selected rows, in order, none twice and none
    missing; each of these pages holds at least one row; page [k] holds the
    rows from position (k - 1) * limit on, at most limit of them; every
    page beyond [totalPages] is empty; and every call reports the limit,
    the number of selected rows as total and the same [totalPages]. *)
Theorem pages_tile_the_rows {A : Type} (rows : list A) (limitArg : PageArg) :
  supportedArg limitArg = true ->
  Z.of_nat (length rows) <= PAGE_RANGE ->
  exists p0,
    parsePagination ArgUndefined limitArg = Some p0 /\
    let lim := limit p0 in
    let n := Z.to_nat (totalPages (Z.of_nat (length rows)) lim) in
    (exists windows,
        Forall2 (fun k w => pageRows rows k limitArg = Some w) (seq 1 n) windows /\
        concat windows = rows) /\
    (forall k,
        (1 <= k <= n)%nat ->
        exists w, pageRows rows k limitArg = Some w /\ w <> []) /\
    (forall k,
        (1 <= k)%nat ->
        Z.of_nat k <= PAGE_RANGE ->
        exists w,
          pageRows rows k limitArg = Some w /\
          w = firstn (Z.to_nat lim) (skipn ((k - 1) * Z.to_nat lim) rows) /\
          (length w <= Z.to_nat lim)%nat) /\
    (forall k,
        (n < k)%nat -> Z.of_nat k <= PAGE_RANGE -> pageRows rows k limitArg = Some []) /\
    (forall pageArg,
        supportedArg pageArg = true ->
        exists w p,
          parsePagination pageArg limitArg = Some p /\
          paginate rows pageArg limitArg =
          Some (w, mkPageInfo (page p) lim (Z.of_nat (length rows)) (Z.of_nat n))).
Proof.
  intros Hl Hrows.
  destruct (parsePagination_bounds_of ArgUndefined limitArg eq_refl Hl)
    as (p0 & Hp0 & Hlim).
  exists p0. split; [exact Hp0|]. intros lim n.
  fold lim in Hlim.
  set (L := Z.to_nat lim).
  assert (HL : (1 <= L)%nat) by (unfold L; lia).
  assert (HlimL : lim = Z.of_nat L) by (unfold L; lia).
  destruct (ceil_pages (length rows) L HL) as [Hcover Hinside].
  rewrite <- HlimL in Hcover, Hinside. fold n in Hcover, Hinside.
  assert (Hn : (n <= length rows)%nat).
  { destruct n as [|n']; [lia|].
    specialize (Hinside (S n') ltac:(lia)).
    assert ((S n' - 1) * 1 <= (S n' - 1) * L)%nat by (apply Nat.mul_le_mono_l; lia).
    lia. }
  assert (Hwin : forall k,
             (1 <= k)%nat -> Z.of_nat k <= PAGE_RANGE ->
             pageRows rows k limitArg = Some (firstn L (skipn ((k - 1) * L) rows)))
    by (intros k Hk Hr; exact (window_of_page rows limitArg k p0 Hp0 Hrows Hk Hr)).
  split; [|split; [|split; [|split]]].
  - exists (map (fun k => firstn L (skipn ((k - 1) * L) rows)) (seq 1 n)). split.
    + apply Forall2_map_seq. intros k Hk. apply Hwin; lia.
    + rewrite <- seq_shift, map_map.
      rewrite (map_ext _ (fun j => firstn L (skipn (j * L) rows))).
      * rewrite concat_windows. apply firstn_all2. exact Hcover.
      * intros j. replace (S j - 1)%nat with j by lia. reflexivity.
  - intros k Hk. eexists. split; [apply Hwin; lia|].
    specialize (Hinside k Hk).
    assert (Hlen : (0 < length (firstn L (skipn ((k - 1) * L) rows)))%nat).
    { rewrite length_firstn, length_skipn. lia. }
    intros Hnil. rewrite Hnil in Hlen. simpl in Hlen. lia.
  - intros k Hk Hr. eexists. split; [apply Hwin; assumption|].
    split; [reflexivity|]. rewrite length_firstn. lia.
  - intros k Hk Hr. rewrite Hwin by lia. f_equal.
    rewrite skipn_all2; [destruct L; reflexivity|].
    assert ((n * L <= (k - 1) * L)%nat) by (apply Nat.mul_le_mono_r; lia). lia.
  - intros pageArg Hp.
    destruct (parsePagination_bounds_of pageArg limitArg Hp Hl) as (p & Hpp & _).
    assert (Hsame : limit p = lim).
    { unfold lim. unfold parsePagination in Hp0, Hpp. cbn [parseIntOr] in Hp0.
      destruct (parseIntOr pageArg 1); [|discriminate].
      destruct (parseIntOr limitArg 10); [|discriminate].
      injection Hp0 as <-. injection Hpp as <-. reflexivity. }
    exists (pageWindow p rows), p. split; [exact Hpp|].
    unfold paginate. rewrite Hpp.
    apply Z.leb_le in Hrows. rewrite Hrows. rewrite Hsame.
    f_equal. f_equal. f_equal. unfold n.
    rewrite Z2Nat.id; [reflexivity|].
    unfold totalPages. apply Z.div_pos; lia.
Qed.

(** ** Order ids *)

Lemma fresh_orders_updated (n orderId : nat) (s : OrderStatus.t) (l : list Order.t) :
  Forall (fun o => (Order.id o < n)%nat) l ->
  Forall (fun o => (Order.id o < n)%nat)
    (map (fun o => if Nat.eqb (Order.id o) orderId then Order.with_status s o else o) l).
Proof.
  intros H. apply List.Forall_forall. intros o Ho. apply in_map_iff in Ho.
  destruct Ho as (x & <- & Hx). rewrite List.Forall_forall in H. specialize (H x Hx).
  destruct (Nat.eqb (Order.id x) orderId); exact H.
Qed.

Lemma fresh_orders_weaken (n m : nat) (l : list Order.t) :
  (n <= m)%nat ->
  Forall (fun o => (Order.id o < n)%nat) l -> Forall (fun o => (Order.id o < m)%nat) l.
Proof.
  intros Hle H. eapply List.Forall_impl; [|exact H]. simpl. intros o Ho. lia.
Qed.

Lemma ordersFresh_step (op : Op) (db : DB) :
  ordersFresh db -> ordersFresh (step db op).
Proof.
  unfold ordersFresh. intros Hfresh.
  destruct op as [user data|target s|target user|target driverId t
                 |target s now|driverId b]; simpl.
  - destruct (createOrder user data db) as [[o db']|e] eqn:E; [|exact Hfresh]. simpl.
    destruct (createOrder_frame _ _ _ _ _ E) as (_ & _ & Hn).
    destruct (createOrder_effect _ _ _ _ _ E) as (_ & _ & _ & Ho & _).
    rewrite Ho, Hn. apply List.Forall_app. split.
    + eapply fresh_orders_weaken; [|exact Hfresh]. lia.
    + constructor; [|constructor].
      unfold createOrder in E.
      destruct (findRestaurant _ db); [|discriminate].
      destruct (collectOrderItems _ _ db); [|discriminate].
      injection E as <- _. simpl. lia.
  - unfold updateOrderStatus.
    destruct (findOrder target db); [|exact Hfresh].
    destruct (negb _); [exact Hfresh|]. simpl.
    apply fresh_orders_updated. exact Hfresh.
  - unfold cancelOrder.
    destruct (findOrder target db) as [o|] eqn:Eo; [|exact Hfresh].
    destruct (negb (String.eqb (Order.userId o) user)); [exact Hfresh|].
    destruct (negb _); [exact Hfresh|].
    unfold updateOrderStatus. rewrite Eo.
    destruct (negb _); [exact Hfresh|]. simpl.
    apply fresh_orders_updated. exact Hfresh.
  - destruct (assignDriver target driverId t db) as [[dl db']|e] eqn:E;
      [|exact Hfresh]. simpl.
    destruct (assignDriver_effect _ _ _ _ _ _ E)
      as (order & driver & _ & _ & _ & _ & _ & _ & Ho & _ & Hn).
    rewrite Ho, Hn.
    destruct (OrderStatus.eqb (Order.status order) OrderStatus.PREPARING); simpl.
    + apply fresh_orders_updated. eapply fresh_orders_weaken; [|exact Hfresh]. lia.
    + eapply fresh_orders_weaken; [|exact Hfresh]. lia.
  - unfold updateDeliveryStatus.
    destruct (findDelivery target db) as [dl|]; [|exact Hfresh].
    destruct (negb _); [exact Hfresh|]. simpl.
    destruct (DeliveryStatus.eqb s DeliveryStatus.DELIVERED); simpl; [|exact Hfresh].
    apply fresh_orders_updated. exact Hfresh.
  - unfold updateDriverAvailability.
    destruct (findDriver driverId db); [|exact Hfresh].
    destruct (if negb b then getActiveDelivery driverId db else None); exact Hfresh.
Qed.

Lemma find_fresh_order (db : DB) :
  ordersFresh db -> findOrder (nextId db) db = None.
Proof.
  unfold ordersFresh, findOrder. intros Hfresh.
  destruct (find _ (orders db)) as [o|] eqn:E; [|reflexivity].
  apply find_some in E. destruct E as [Hin Hid]. apply Nat.eqb_eq in Hid.
  rewrite List.Forall_forall in Hfresh. specialize (Hfresh o Hin). lia.
Qed.

(** X21. An order can be read back under its id: in a store whose order
    ids lie below the id counter (which every sequence of service calls
    preserves), the order [createOrder] returns is the one a lookup of its
    id finds afterwards; its customer reads it through [getOrderById],
    another customer gets NotFound, and no order that existed before is
    hidden or changed by the new one. *)
Theorem created_order_reads_back :
  (forall ops db, ordersFresh db -> ordersFresh (run ops db))
  /\
  (forall user data db order db',
      ordersFresh db ->
      createOrder user data db = Ok (order, db') ->
      findOrder (Order.id order) db' = Some order /\
      getOrderById (Order.id order) (Some user) db' =
        Ok (order, deliveryOfOrder (Order.id order) db') /\
      (forall other,
          other <> "" -> other <> user ->
          getOrderById (Order.id order) (Some other) db' =
          Throw (NotFoundError "Order not found")) /\
      (forall orderId,
          orderId <> Order.id order -> findOrder orderId db' = findOrder orderId db)).
Proof.
  split.
  - intros ops. induction ops as [|op ops IH]; intros db Hfresh; simpl; [exact Hfresh|].
    apply IH. apply ordersFresh_step. exact Hfresh.
  - intros user data db order db' Hfresh Hok.
    destruct (createOrder_effect _ _ _ _ _ Hok) as (_ & _ & _ & Ho & _).
    assert (Hid : Order.id order = nextId db /\ Order.userId order = user).
    { unfold createOrder in Hok.
      destruct (findRestaurant _ db); [|discriminate].
      destruct (collectOrderItems _ _ db); [|discriminate].
      injection Hok as <- _. auto. }
    destruct Hid as [Hid Hu].
    assert (Hfind : forall k,
               findOrder k db' =
               match findOrder k db with
               | Some o => Some o
               | None => if Nat.eqb (Order.id order) k then Some order else None
               end)
      by (intros k; unfold findOrder; rewrite Ho;
          exact (find_app_last (fun o => Nat.eqb (Order.id o) k) (orders db) order)).
    assert (Hnew : findOrder (Order.id order) db' = Some order).
    { rewrite Hfind, Hid, (find_fresh_order db Hfresh), Nat.eqb_refl. reflexivity. }
    split; [exact Hnew|]. split; [|split].
    + unfold getOrderById. rewrite Hnew. simpl. rewrite Hu, String.eqb_refl.
      rewrite andb_false_r. reflexivity.
    + intros other Hne Hother. unfold getOrderById. rewrite Hnew. simpl.
      apply String.eqb_neq in Hne. rewrite Hne, Hu.
      assert (Hx : String.eqb user other = false)
        by (apply String.eqb_neq; congruence).
      rewrite Hx. reflexivity.
    + intros k Hk. rewrite Hfind.
      destruct (findOrder k db); [reflexivity|].
      assert (Hx : Nat.eqb (Order.id order) k = false)
        by (apply Nat.eqb_neq; congruence).
      rewrite Hx. reflexivity.
Qed.

(** ** What a sync result names *)

Lemma createOrder_owner (user : string) (data : CreateOrderData) (db db' : DB)
    (o : Order.t) :
  createOrder user data db = Ok (o, db') ->
  Order.userId o = user /\ Order.status o = OrderStatus.PENDING.
Proof.
  unfold createOrder.
  destruct (findRestaurant _ db); [|discriminate].
  destruct (collectOrderItems _ _ db); [|discriminate].
  intros H. injection H as <- _. auto.
Qed.

Lemma namesOrderIn_more (pool extra : list Order.t) (r : QueueResult) :
  namesOrderIn pool r -> namesOrderIn (pool ++ extra) r.
Proof.
  unfold namesOrderIn. destruct (success r); [|auto].
  intros (o & Hin & H). exists o. split; [apply in_or_app; left; exact Hin|exact H].
Qed.

Lemma syncLoop_names (user : string) (now : Z) (l : list SyncRequest) :
  forall w base,
    (forall o v,
        In o l ->
        redis_get (keyOf user o) now (redis w) = Some v ->
        exists ord,
          In ord base /\ map_orderId v = Order.id ord /\
          map_orderNumber v = Order.orderNumber ord) ->
    exists created,
      orders (db (snd (syncLoop user now l w))) = orders (db w) ++ created /\
      Forall (fun o => Order.userId o = user /\ Order.status o = OrderStatus.PENDING)
             created /\
      Forall (namesOrderIn (base ++ created)) (fst (syncLoop user now l w)).
Proof.
  induction l as [|o l IH]; intros w base Hkeys; simpl.
  - exists []. rewrite app_nil_r. auto.
  - destruct (syncOne_cases user now o w)
      as [(v & Hget & Hone)|[(Hget & created & db' & Hc & Hone)|(Hget & e & Hc & Hone)]];
      rewrite Hone.
    + destruct (IH w base) as (rest & Hords & Hown & Hres).
      { intros o' v' Hin. apply Hkeys. right. exact Hin. }
      destruct (syncLoop user now l w) as [rs w2]. simpl in *.
      exists rest. split; [exact Hords|]. split; [exact Hown|].
      constructor; [|exact Hres].
      destruct (Hkeys o v (or_introl eq_refl) Hget) as (ord & Hin & Hid & Hnum).
      unfold namesOrderIn. simpl. exists ord.
      split; [apply in_or_app; left; exact Hin|]. rewrite Hid, Hnum. auto.
    + set (w1 := set_redis _ _).
      destruct (createOrder_effect _ _ _ _ _ Hc) as (_ & _ & _ & Ho & _).
      destruct (createOrder_owner _ _ _ _ _ Hc) as [Hu Hst].
      destruct (IH w1 (base ++ [created])) as (rest & Hords & Hown & Hres).
      { intros o' v' Hin Hget'. unfold w1 in Hget'. simpl in Hget'.
        destruct (String.string_dec (keyOf user o) (keyOf user o')) as [Heq|Hne].
        - rewrite <- Heq in Hget'.
          rewrite redis_get_setex_same in Hget' by (unfold CLIENT_KEY_TTL; lia).
          injection Hget' as <-. exists created.
          split; [apply in_or_app; right; left; reflexivity|]. auto.
        - rewrite redis_get_setex_other in Hget' by exact Hne.
          destruct (Hkeys o' v' (or_intror Hin) Hget') as (ord & Hin' & H).
          exists ord. split; [apply in_or_app; left; exact Hin'|exact H]. }
      destruct (syncLoop user now l w1) as [rs w2]. simpl in *.
      exists (created :: rest). split; [rewrite Hords, Ho, <- app_assoc; reflexivity|].
      split; [constructor; auto|].
      replace (base ++ created :: rest) with ((base ++ [created]) ++ rest)
        by (rewrite <- app_assoc; reflexivity).
      constructor; [|exact Hres].
      unfold namesOrderIn. simpl. exists created.
      split; [apply in_or_app; left; apply in_or_app; right; left; reflexivity|]. auto.
    + destruct (IH w base) as (rest & Hords & Hown & Hres).
      { intros o' v' Hin. apply Hkeys. right. exact Hin. }
      destruct (syncLoop user now l w) as [rs w2]. simpl in *.
      exists rest. split; [exact Hords|]. split; [exact Hown|].
      constructor; [|exact Hres].
      unfold namesOrderIn. simpl. split; [reflexivity|discriminate].
Qed.

(** X22. What a sync response names: for a batch none of whose client ids
    has a live dedup mapping, the sync only appends orders to the store, all
    of them PENDING and owned by the caller; every success result names,
    by id and order number, one of the orders this sync created; and every
    failure result names no order and carries an error message. *)
Theorem sync_success_names_callers_order (user : string) (batch : list SyncRequest)
    (now : Z) (w : World) :
  Forall (unseen user now w) batch ->
  exists created,
    orders (db (snd (syncOrders user batch now w))) = orders (db w) ++ created /\
    Forall (fun o => Order.userId o = user /\ Order.status o = OrderStatus.PENDING)
           created /\
    Forall (namesOrderIn created) (fst (syncOrders user batch now w)).
Proof.
  intros Hunseen. unfold syncOrders.
  apply (syncLoop_names user now (sortByCreatedAt batch) w []).
  intros o v Hin Hget. exfalso.
  assert (Hin' : In o batch).
  { eapply Permutation_in; [|exact Hin]. apply Permutation_sym.
    apply sortByCreatedAt_perm. }
  rewrite List.Forall_forall in Hunseen. specialize (Hunseen o Hin').
  unfold unseen, keyOf in *. congruence.
Qed.

(** ** The theorems at work on the sample store *)

Lemma createOrder_totals_witness :
  exists order db',
    createOrder "u1" twoPasta sampleDb = Ok (order, db') /\
    Order.subtotal order = 17.98%float /\
    Order.tax order = 1.798%float /\
    Order.deliveryFee order = 5.00%float /\
    Order.totalAmount order = 24.778%float.
Proof.
  apply (proj1 (proj2 createOrder_totals) "u1" "R1" "12 Main Street" None None sampleDb
           (MenuItem.mk "X" "Pasta" 8.99%float true "R1")); reflexivity.
Defined.

Lemma updateOrderStatus_spec_witness :
  updateOrderStatus 1 OrderStatus.PREPARING orderedDb =
  Throw (BadRequestError "Cannot transition from PENDING to PREPARING").
Proof.
  destruct (updateOrderStatus_spec 1 OrderStatus.PREPARING orderedDb) as (_ & Hbad & _).
  eapply eq_trans;
    [eapply Hbad; [vm_compute; reflexivity|simpl; intros H; inversion H]
    |reflexivity].
Defined.

Lemma assignDriver_spec_witness :
  exists delivery db',
    assignDriver 1 "D1" None confirmedDb = Ok (delivery, db') /\
    Delivery.status delivery = DeliveryStatus.ASSIGNED /\
    findDriver "D1" db' = Some (Driver.mk "D1" "driver-user-1" false 0) /\
    option_map Order.status (findOrder 1 db') = Some OrderStatus.CONFIRMED.
Proof.
  destruct (assignDriver 1 "D1" None confirmedDb) as [[delivery db']|e] eqn:E;
    [|vm_compute in E; discriminate E].
  destruct (proj1 (proj2 (assignDriver_spec 1 "D1" None confirmedDb)) delivery db' E)
    as (order & driver & Ho & Hd & _ & Hst & _ & _ & _ & _
        & (order' & Ho' & Hst' & _) & _ & Hd' & _).
  vm_compute in Ho. injection Ho as <-.
  vm_compute in Hd. injection Hd as <-.
  exists delivery, db'. split; [reflexivity|]. split; [exact Hst|].
  split; [exact Hd'|]. rewrite Ho'. simpl. f_equal. exact Hst'.
Defined.

Lemma createOrder_empty_items_uses_cart_witness :
  exists order db',
    createOrder "u1" (mkCreateOrderData "R1" "12 Main Street" None (Some []))
      (db cartWorld) = Ok (order, db') /\
    map (fun i => (OrderItem.menuItemId i, OrderItem.quantity i, OrderItem.unitPrice i))
        (Order.items order) = [("X", 2, 8.99%float)] /\
    orders db' = [order] /\
    itemsOfCart 1 db' = [].
Proof.
  destruct (createOrder "u1" (mkCreateOrderData "R1" "12 Main Street" None (Some []))
              (db cartWorld)) as [[order db']|e] eqn:E;
    [|vm_compute in E; discriminate E].
  destruct (proj1 (proj2 (proj2
              (createOrder_empty_items_uses_cart "u1" "R1" "12 Main Street" None
                 (db cartWorld)))) order db' E)
    as (cart & Hc & _ & _ & Hclear & Hlines & Hords & _).
  vm_compute in Hc. injection Hc as <-.
  exists order, db'. split; [reflexivity|].
  split; [rewrite Hlines; vm_compute; reflexivity|].
  split; [exact Hords|exact Hclear].
Defined.

Lemma processQueue_drains_fifo_witness :
  exists w' log,
    processQueue 3 queuedWorld =
      Some ([mkQueueResult "q-a" true (Some 1%nat) (Some 1%nat) None;
             mkQueueResult "q-bad" false None None (Some "Cake is not available")],
            w', log) /\
    log =
      [EvLpop (Some queuedA); EvSetProcessing queuedA;
       EvCreateOrder "u1" (dataOfQueued queuedA) true; EvDelProcessing;
       EvLpop (Some queuedBad); EvSetProcessing queuedBad;
       EvCreateOrder "u1" (dataOfQueued queuedBad) false; EvDelProcessing;
       EvLpop None] /\
    orders (db w') = [pendingOrder] /\
    queue (redis w') = [] /\
    processing (redis w') = None /\
    isProcessing w' = false.
Proof.
  destruct (proj2 (processQueue_drains_fifo 3 queuedWorld ltac:(simpl; lia)) eq_refl)
    as (results & w' & Hrun & _ & _ & Hq & Hflag & Hmark & Hcalls & _).
  assert (Hres : results =
                 [mkQueueResult "q-a" true (Some 1%nat) (Some 1%nat) None;
                  mkQueueResult "q-bad" false None None (Some "Cake is not available")]
                 /\ orders (db w') = [pendingOrder]).
  { pose proof (f_equal fst Hcalls) as H1. pose proof (f_equal snd Hcalls) as H2.
    cbn [fst snd] in H1, H2. split.
    - rewrite H1. vm_compute. reflexivity.
    - rewrite H2. vm_compute. reflexivity. }
  destruct Hres as [-> Hords].
  eexists w', _. split; [exact Hrun|]. split; [reflexivity|].
  split; [exact Hords|]. split; [exact Hq|].
  split; [apply Hmark; discriminate|exact Hflag].
Defined.

Lemma syncOrders_resubmission_idempotent_witness :
  let first := syncOrders "u1" [reqA; reqBad; reqB] 10 sampleWorld in
  let second := syncOrders "u1" [reqA; reqBad; reqB] 3600 (snd first) in
  (snd second = snd first /\
   Forall2 (answersAgain (fst first) 10 3600) (fst first) (fst second) /\
   length (orders (db (snd second))) =
     (length (orders (db sampleWorld)) + length (succeededClients (fst first)))%nat)
  /\
  map success (fst first) = [true; false; true] /\
  map res_orderId (fst first) = [Some 1%nat; None; Some 2%nat] /\
  map res_orderId (fst second) = [Some 1%nat; None; Some 2%nat] /\
  length (orders (db (snd second))) = 2%nat.
Proof.
  assert (Hunseen : Forall (unseen "u1" 10 sampleWorld) [reqA; reqBad; reqB])
    by (repeat (apply List.Forall_cons; [reflexivity|]); apply List.Forall_nil).
  assert (Hdurable : Forall (durable "u1" 10 3600 sampleWorld) [reqA; reqBad; reqB])
    by (repeat (apply List.Forall_cons; [intros v H; discriminate H|]);
        apply List.Forall_nil).
  destruct (syncOrders_resubmission_idempotent "u1" [reqA; reqBad; reqB] 10 3600
              sampleWorld Hdurable ltac:(lia))
    as (Hsame & Hagain & _ & Hcount).
  split; [split; [exact Hsame|split; [exact Hagain|exact (Hcount Hunseen)]]|].
  vm_compute. repeat split.
Defined.

(** ** Further theorems at work on the sample store *)

Lemma driverInvariant_confirmedDb : driverInvariant confirmedDb.
Proof.
  split; [constructor|]. split; [intros d []|]. split; [intros d; simpl; lia|].
  intros driver _ Hact. exfalso. apply Hact. reflexivity.
Qed.

Lemma delivery_lifecycle_is_linear_witness :
  exists d',
    findDelivery 2 (run (deliveryReports 2 100 200 300) assignedDb) = Some d' /\
    sameAssignment assignedDelivery d' /\
    (stage (Delivery.status assignedDelivery) <= stage (Delivery.status d'))%nat /\
    (Delivery.status assignedDelivery = DeliveryStatus.DELIVERED ->
     d' = assignedDelivery).
Proof.
  exact (proj2 (delivery_lifecycle_is_linear assignedDb 2 assignedDelivery
                  ltac:(vm_compute; reflexivity))
               (deliveryReports 2 100 200 300)).
Defined.

Lemma delivery_timestamps_follow_status_witness :
  timestamped
    (Delivery.mk 2 1 "D1" None DeliveryStatus.DELIVERED (Some 100) (Some 300)).
Proof.
  apply (delivery_timestamps_follow_status confirmedThenDelivered sampleDb) with 2%nat.
  - intros deliveryId d H. discriminate H.
  - vm_compute. reflexivity.
Defined.

Lemma updateDeliveryStatus_spec_witness :
  updateDeliveryStatus 2 DeliveryStatus.DELIVERED 100 assignedDb =
    Throw (BadRequestError "Cannot transition from ASSIGNED to DELIVERED")
  /\
  exists updated db',
    updateDeliveryStatus 2 DeliveryStatus.DELIVERED 300 inTransitDb =
      Ok (updated, db') /\
    Delivery.status updated = DeliveryStatus.DELIVERED /\
    Delivery.pickupTime updated = Some 100 /\
    Delivery.deliveryTime updated = Some 300 /\
    findDriver "D1" db' = Some (Driver.mk "D1" "driver-user-1" true 1) /\
    option_map Order.status (findOrder 1 db') = Some OrderStatus.DELIVERED.
Proof.
  split.
  - destruct (updateDeliveryStatus_spec 2 DeliveryStatus.DELIVERED 100 assignedDb)
      as (_ & Hbad & _).
    eapply eq_trans;
      [eapply (Hbad assignedDelivery);
       [vm_compute; reflexivity|simpl; intros H; inversion H]
      |reflexivity].
  - destruct (proj2 (proj2 (updateDeliveryStatus_spec 2 DeliveryStatus.DELIVERED 300
                              inTransitDb))
                (Delivery.mk 2 1 "D1" None DeliveryStatus.IN_TRANSIT (Some 100) None)
                ltac:(vm_compute; reflexivity) ltac:(constructor))
      as (updated & db' & Hcall & _ & _ & Hst & Hpick & Hdel & _ & _ & Hdone & _).
    destruct (Hdone eq_refl) as (Horder & _ & _ & Hdriver & _).
    destruct (findOrder 1 inTransitDb) as [o|] eqn:Hfo;
      [|vm_compute in Hfo; discriminate].
    destruct (Horder o Hfo) as (o' & Ho' & Hst' & _).
    exists updated, db'. split; [exact Hcall|]. split; [exact Hst|].
    split; [exact Hpick|]. split; [exact Hdel|].
    split.
    + exact (Hdriver (Driver.mk "D1" "driver-user-1" false 0)
               ltac:(vm_compute; reflexivity)).
    + simpl in Ho'. rewrite Ho'. simpl. f_equal. exact Hst'.
Defined.

Lemma delivery_round_releases_driver_witness :
  findDriver "D1" (run (deliveryReports 2 100 200 300) assignedDb) =
    Some (Driver.mk "D1" "driver-user-1" true 1) /\
  activeDeliveries "D1" (run (deliveryReports 2 100 200 300) assignedDb) = [].
Proof.
  destruct (delivery_round_releases_driver confirmedDb assignedDb 1 "D1" None
              assignedDelivery 100 200 300 driverInvariant_confirmedDb
              ltac:(vm_compute; reflexivity))
    as (_ & _ & (driver & Hd & _ & Hd4) & _ & Hidle).
  vm_compute in Hd. injection Hd as <-.
  split; [exact Hd4|exact Hidle].
Defined.

Lemma cancelOrder_spec_witness :
  cancelOrder 1 "u2" orderedDb = Throw (NotFoundError "Order not found").
Proof.
  apply (proj1 (proj2 (cancelOrder_spec 1 "u2" orderedDb) pendingOrder
                  ltac:(vm_compute; reflexivity))).
  simpl. discriminate.
Defined.

Lemma getOrderById_ownership_witness :
  controller_getOrderById CUSTOMER "u2" 1 orderedDb =
  Throw (NotFoundError "Order not found").
Proof.
  apply (proj2 (proj1 (getOrderById_ownership 1 orderedDb) "u2" ltac:(discriminate))).
  right. exists pendingOrder. split; [vm_compute; reflexivity|simpl; discriminate].
Defined.

Lemma createOrder_lines_are_orderable_witness :
  Forall (fun i => orderable sampleDb "R1" (OrderItem.menuItemId i))
         (Order.items pendingOrder).
Proof.
  exact (proj1 (proj2 (createOrder_lines_are_orderable "u1" twoPasta sampleDb orderedDb
                         pendingOrder ltac:(vm_compute; reflexivity)))).
Defined.

Lemma createOrder_explicit_items_witness :
  isOk (createOrder "u1" twoPasta sampleDb) = true.
Proof.
  apply (proj1 (createOrder_explicit_items "u1" "R1" "12 Main Street" None
                  (mkOrderItemInput "X" 2 None) [] sampleDb)).
  split; [discriminate|].
  constructor; [|constructor].
  exists (MenuItem.mk "X" "Pasta" 8.99%float true "R1"). repeat split.
Defined.


Lemma cart_calls_keep_other_carts_witness :
  rowsOfOthers 1 (stepCart twoCartsDb (OpClearCart "u1")) = rowsOfOthers 1 twoCartsDb.
Proof.
  apply (cart_calls_keep_other_carts (OpClearCart "u1") twoCartsDb).
  vm_compute.
  repeat (apply List.NoDup_cons; [simpl; intuition discriminate|]).
  apply List.NoDup_nil.
Defined.

Lemma mixed_cart_cannot_be_ordered_witness :
  isOk (createOrder "u1" (mkCreateOrderData "R1" "12 Main Street" None None)
          mixedCartDb) = false.
Proof.
  eapply (proj2 mixed_cart_cannot_be_ordered "u1" (mkAddToCartData "X" 1 None)
            (mkAddToCartData "W" 1 None) sampleDb);
    [vm_compute; reflexivity|vm_compute; reflexivity
    |reflexivity|reflexivity|discriminate|reflexivity].
Defined.

Lemma processQueue_creates_one_order_per_success_witness :
  exists results w' log created,
    processQueue 3 queuedWorld = Some (results, w', log) /\
    orders (db w') = orders (db queuedWorld) ++ created /\
    processed (queue (redis queuedWorld)) results created /\
    length created = countOf success results.
Proof.
  apply (processQueue_creates_one_order_per_success 3 queuedWorld);
    [reflexivity|simpl; lia].
Defined.

Lemma enqueued_orders_belong_to_caller_witness :
  getQueueLength queuedWorld = 2%nat.
Proof.
  exact (proj1 (enqueued_orders_belong_to_caller "u1" [queuedA; queuedBad] 3 sampleWorld
                  eq_refl eq_refl ltac:(simpl; lia))).
Defined.

Lemma sync_summary_adds_up_witness :
  match controller_processQueue 3 queuedWorld with
  | Some (s, _) => (successful s + failedCount s)%nat = total s
  | None => False
  end.
Proof.
  destruct (controller_processQueue 3 queuedWorld) as [[s w']|] eqn:E.
  - exact (proj2 (proj2 sync_summary_adds_up 3%nat queuedWorld s w' E)).
  - vm_compute in E. discriminate E.
Defined.

Lemma sync_keys_are_per_user_witness :
  redis_get (clientKey "u2" "c-a") 20
    (redis (snd (syncOrders "u1" [reqA] 10 sampleWorld))) =
  redis_get (clientKey "u2" "c-a") 20 (redis sampleWorld).
Proof.
  exact (proj1 sync_keys_are_per_user "u1" "u2" [reqA] 10 sampleWorld "c-a" 20
           eq_refl eq_refl ltac:(discriminate)).
Defined.

Lemma updateDriverAvailability_spec_witness :
  updateDriverAvailability "D1" false assignedDb =
    Throw (BadRequestError "Cannot go offline with active delivery")
  /\
  exists db',
    updateDriverAvailability "D2" false assignedDb =
      Ok (Driver.mk "D2" "driver-user-2" false 0, db') /\
    findDriver "D2" db' = Some (Driver.mk "D2" "driver-user-2" false 0) /\
    findDriver "D1" db' = findDriver "D1" assignedDb.
Proof.
  split.
  - apply (proj1 (proj1 (proj2 (updateDriverAvailability_spec "D1" assignedDb))
                    (Driver.mk "D1" "driver-user-1" false 0)
                    ltac:(vm_compute; reflexivity))).
    vm_compute. discriminate.
  - destruct (proj2 (proj1 (proj2 (updateDriverAvailability_spec "D2" assignedDb))
                       (Driver.mk "D2" "driver-user-2" true 0)
                       ltac:(vm_compute; reflexivity))
                false (or_intror eq_refl))
      as (db' & Hcall & Hfind & Hother & _).
    exists db'. split; [exact Hcall|]. split; [exact Hfind|].
    apply Hother. discriminate.
Defined.

Lemma parsePagination_bounds_witness :
  parsePagination (ArgNumeral 2) (ArgNumeral 20) = Some (mkPagination 2 20 20 20) /\
  parsePagination (ArgNumeral 0) (ArgNumeral 200) = Some (mkPagination 1 100 0 100).
Proof.
  split.
  - destruct (parsePagination_bounds (ArgNumeral 2) (ArgNumeral 20) eq_refl eq_refl)
      as ([pg lm sk tk] & Hcall & _ & _ & Htake & Hskip & _ & Hpage & Hlimit).
    simpl in *. subst. exact Hcall.
  - destruct (parsePagination_bounds (ArgNumeral 0) (ArgNumeral 200) eq_refl eq_refl)
      as ([pg lm sk tk] & Hcall & _ & _ & Htake & Hskip & _ & Hpage & Hlimit).
    simpl in *. subst. exact Hcall.
Defined.

Lemma pages_tile_the_rows_witness :
  pageRows [1; 2; 3; 4; 5]%Z 1 (ArgNumeral 2) = Some [1; 2]%Z /\
  pageRows [1; 2; 3; 4; 5]%Z 3 (ArgNumeral 2) = Some [5]%Z /\
  pageRows [1; 2; 3; 4; 5]%Z 4 (ArgNumeral 2) = Some [] /\
  option_map snd (paginate [1; 2; 3; 4; 5]%Z (ArgNumber 3) (ArgNumeral 2)) =
    Some (mkPageInfo 3 2 5 3).
Proof.
  destruct (pages_tile_the_rows [1; 2; 3; 4; 5]%Z (ArgNumeral 2) eq_refl
              ltac:(vm_compute; discriminate))
    as (p0 & Hp0 & _ & _ & Hwin & Hbeyond & Hinfo).
  vm_compute in Hp0. injection Hp0 as <-.
  split; [|split; [|split]].
  - destruct (Hwin 1%nat ltac:(lia) ltac:(vm_compute; discriminate))
      as (w & Hw & -> & _). exact Hw.
  - destruct (Hwin 3%nat ltac:(lia) ltac:(vm_compute; discriminate))
      as (w & Hw & -> & _). exact Hw.
  - apply Hbeyond; [vm_compute; lia|vm_compute; discriminate].
  - destruct (Hinfo (ArgNumber 3) eq_refl) as (w & p & Hp & Hcall).
    vm_compute in Hp. injection Hp as <-. rewrite Hcall. reflexivity.
Defined.

Lemma created_order_reads_back_witness :
  findOrder 1 orderedDb = Some pendingOrder.
Proof.
  exact (proj1 (proj2 created_order_reads_back "u1" twoPasta sampleDb pendingOrder
                  orderedDb ltac:(constructor) ltac:(vm_compute; reflexivity))).
Defined.

Lemma sync_success_names_callers_order_witness :
  exists created,
    orders (db (snd (syncOrders "u1" [reqA; reqBad; reqB] 10 sampleWorld))) =
      orders (db sampleWorld) ++ created /\
    Forall (fun o => Order.userId o = "u1" /\ Order.status o = OrderStatus.PENDING)
           created /\
    Forall (namesOrderIn created) (fst (syncOrders "u1" [reqA; reqBad; reqB] 10 sampleWorld)).
Proof.
  apply sync_success_names_callers_order.
  repeat (apply List.Forall_cons; [reflexivity|]). apply List.Forall_nil.
Defined.

Lemma cart_lines_are_addressed_within_own_cart_witness :
  removeFromCart "u1" 4 twoCartsDb = Throw (NotFoundError "Cart item not found").
Proof.
  apply (proj1 (proj2 (cart_lines_are_addressed_within_own_cart "u1" 4 twoCartsDb)
                  (Cart.mk 1 "u1") ltac:(vm_compute; reflexivity))).
  vm_compute. reflexivity.
Defined.

Lemma clearQueue_drops_pending_work_witness :
  processQueue 1 (clearQueue queuedWorld) =
  Some ([], clearQueue queuedWorld, [EvLpop None]).
Proof.
  exact (proj2 (proj2 (proj2 (proj2
           (clearQueue_drops_pending_work 1 queuedWorld eq_refl ltac:(lia)))))).
Defined.
